(** * TrueType font parser of gopdf (package core, [TTFParser])

    A shallow embedding of the parser found in [src/fontdescriptor_obj.go]
    (the [package core] part): the binary cursor over an [os.File], the
    table directory, the nine table parsers, the orchestration routine
    [Parse] and the derived accessors, followed by the properties of the
    specification that concern them.

    Conventions.
    - Go's [uint64], [int64] and [int] (64 bit) are modelled by [Z]; every
      operation that can wrap is written with its wrap-around.
    - The receiver [me *TTFParser] and the file [fd *os.File] are mutated in
      place by the Go code; here they form the state of a state monad, so
      the state reached by a failing call is still observable.
    - A Go run-time panic (index out of range) is a third outcome, distinct
      from a returned [error]. *)

From Stdlib Require Import ZArith List Lia Bool.
From Stdlib Require Import Strings.String Strings.Ascii Strings.Byte.
From stdpp Require Import base option list gmap strings.

Local Open Scope Z_scope.

(** ** Machine integers *)

Module Int.

Definition two64 : Z := 2 ^ 64.
Definition two63 : Z := 2 ^ 63.

(** Wrap-around of [uint64] arithmetic. *)
Definition u64 (z : Z) : Z := z mod two64.
Definition add (a b : Z) : Z := u64 (a + b).
Definition sub (a b : Z) : Z := u64 (a - b).
Definition mul (a b : Z) : Z := u64 (a * b).

(** Wrap-around of [int64] arithmetic. *)
Definition s64 (z : Z) : Z :=
  let w := z mod two64 in if w <? two63 then w else w - two64.

(** The conversions [int64(x)] and [int(x)] of an [x uint64]. *)
Definition int64_of_uint64 (z : Z) : Z := if z <? two63 then z else z - two64.
Definition int_of_uint64 (z : Z) : Z := int64_of_uint64 z.

(** The conversion [uint64(x)] of an [x int64]. *)
Definition uint64_of_int64 (z : Z) : Z := u64 z.

End Int.

(** ** Errors and outcomes *)

Inductive error : Type :=
| ERROR_NO_UNICODE_ENCODING_FOUND
| ERROR_UNEXPECTED_SUBTABLE_FORMAT
| ERROR_INCORRECT_MAGIC_NUMBER
| ERROR_POSTSCRIPT_NAME_NOT_FOUND
| ErrTableNotFound (tag : string)   (* "me.tables not contain key=" + tag *)
| ErrUnrecognizedFormat             (* "Unrecognized file (font) format" *)
| ErrFileOutOfLength                (* "file out of length" *)
| ErrEOF                            (* io.EOF, from os.File.Read *)
| ErrSeekInvalid                    (* EINVAL, from os.File.Seek *)
| ErrOpen.                          (* os.Open / ioutil.ReadFile failed *)

Inductive Res (A : Type) : Type :=
| Ok (a : A)
| Err (e : error)
| Panic.
Arguments Ok {A} a.
Arguments Err {A} e.
Arguments Panic {A}.

(** ** The file *)

(** An open regular file: its content and the cursor of the descriptor. *)
Record File : Type := mkFile { fdata : list byte; fpos : Z }.

Definition byteZ (b : byte) : Z := Z.of_N (Byte.to_N b).

(** [big.Int.SetBytes] followed by [Uint64]: big-endian value. *)
Definition be_to_Z (bs : list byte) : Z :=
  fold_left (fun acc b => acc * 256 + byteZ b) bs 0.

(** [fd.Read(buff)] with [len(buff) = n]: a regular file gives as many
    bytes as remain, up to [n]; nothing left (and [n > 0]) is [io.EOF]. *)
Definition os_Read (n : Z) (f : File) : (list byte * option error) * File :=
  if n =? 0 then (([], None), f)
  else
    let rest := drop (Z.to_nat (fpos f)) (fdata f) in
    match rest with
    | [] => (([], Some ErrEOF), f)
    | _ =>
        let got := take (Z.to_nat n) rest in
        ((got, None), mkFile (fdata f) (fpos f + Z.of_nat (length got)))
    end.

(** [fd.Seek(offset, whence)] for [whence] 0 (absolute) and 1 (relative):
    a negative resulting position is refused, any other is accepted. *)
Definition os_Seek (offset : Z) (whence : Z) (f : File) : Res Z * File :=
  let target := if whence =? 0 then offset else fpos f + offset in
  if target <? 0 then (Err ErrSeekInvalid, f)
  else (Ok target, mkFile (fdata f) target).

(** ** The parser record *)

(** Modelled from the spec: the type [TableDirectoryEntry] is declared in a
    file of the package that is not part of the sources at hand; the parser
    uses its fields [Offset], [CheckSum] and [Length] only. *)
Record TableDirectoryEntry : Type := mkEntry {
  CheckSum : Z;
  Offset : Z;
  Length : Z
}.

Record TTFParser : Type := mkTTFParser {
  tables : gmap string TableDirectoryEntry;
  (* head *)
  unitsPerEm : Z;
  xMin : Z;
  yMin : Z;
  xMax : Z;
  yMax : Z;
  indexToLocFormat : Z;
  (* hhea *)
  numberOfHMetrics : Z;
  ascender : Z;
  descender : Z;
  numGlyphs : Z;
  widths : list Z;
  chars : gmap Z Z;
  postScriptName : string;
  (* OS/2 *)
  os2Version : Z;
  Embeddable : bool;
  Bold : bool;
  typoAscender : Z;
  typoDescender : Z;
  capHeight : Z;
  sxHeight : Z;
  (* post *)
  italicAngle : Z;
  underlinePosition : Z;
  underlineThickness : Z;
  isFixedPitch : bool;
  sTypoLineGap : Z;
  usWinAscent : Z;
  usWinDescent : Z;
  (* cmap *)
  IsShortIndex : bool;
  LocaTable : list Z;
  SegCount : Z;
  StartCount : list Z;
  EndCount : list Z;
  IdRangeOffset : list Z;
  IdDelta : list Z;
  GlyphIdArray : list Z;
  symbol : bool;
  (* data of font *)
  cahceFontData : list byte
}.

(** The zero value of the struct, as [TTFParser{}] gives it. *)
Definition zeroTTFParser : TTFParser :=
  mkTTFParser ∅ 0 0 0 0 0 0 0 0 0 0 [] ∅ EmptyString
              0 false false 0 0 0 0
              0 0 0 false 0 0 0
              false [] 0 [] [] [] [] [] false [].

(** Field assignment [me.f = v].  The record is rebuilt from its
    projections with the assigned one replaced. *)
Definition etaTTFParser (me : TTFParser) : TTFParser :=
  mkTTFParser (tables me) (unitsPerEm me) (xMin me) (yMin me) (xMax me)
    (yMax me) (indexToLocFormat me) (numberOfHMetrics me) (ascender me)
    (descender me) (numGlyphs me) (widths me) (chars me) (postScriptName me)
    (os2Version me) (Embeddable me) (Bold me) (typoAscender me)
    (typoDescender me) (capHeight me) (sxHeight me) (italicAngle me)
    (underlinePosition me) (underlineThickness me) (isFixedPitch me)
    (sTypoLineGap me) (usWinAscent me) (usWinDescent me) (IsShortIndex me)
    (LocaTable me) (SegCount me) (StartCount me) (EndCount me)
    (IdRangeOffset me) (IdDelta me) (GlyphIdArray me) (symbol me)
    (cahceFontData me).

Ltac field_setter proj :=
  let body := eval cbv beta delta [etaTTFParser] in
                (fun me : TTFParser => etaTTFParser me) in
  lazymatch eval pattern proj in body with
  | ?F _ =>
      let r := eval cbv beta in (fun v => F (fun _ : TTFParser => v)) in
      exact r
  end.

Module Set_.
Definition tables : gmap string TableDirectoryEntry -> TTFParser -> TTFParser :=
  ltac:(field_setter tables).
Definition unitsPerEm : Z -> TTFParser -> TTFParser := ltac:(field_setter unitsPerEm).
Definition xMin : Z -> TTFParser -> TTFParser := ltac:(field_setter xMin).
Definition yMin : Z -> TTFParser -> TTFParser := ltac:(field_setter yMin).
Definition xMax : Z -> TTFParser -> TTFParser := ltac:(field_setter xMax).
Definition yMax : Z -> TTFParser -> TTFParser := ltac:(field_setter yMax).
Definition indexToLocFormat : Z -> TTFParser -> TTFParser :=
  ltac:(field_setter indexToLocFormat).
Definition numberOfHMetrics : Z -> TTFParser -> TTFParser :=
  ltac:(field_setter numberOfHMetrics).
Definition ascender : Z -> TTFParser -> TTFParser := ltac:(field_setter ascender).
Definition descender : Z -> TTFParser -> TTFParser := ltac:(field_setter descender).
Definition numGlyphs : Z -> TTFParser -> TTFParser := ltac:(field_setter numGlyphs).
Definition widths : list Z -> TTFParser -> TTFParser := ltac:(field_setter widths).
Definition chars : gmap Z Z -> TTFParser -> TTFParser := ltac:(field_setter chars).
Definition postScriptName : string -> TTFParser -> TTFParser :=
  ltac:(field_setter postScriptName).
Definition os2Version : Z -> TTFParser -> TTFParser := ltac:(field_setter os2Version).
Definition Embeddable : bool -> TTFParser -> TTFParser := ltac:(field_setter Embeddable).
Definition Bold : bool -> TTFParser -> TTFParser := ltac:(field_setter Bold).
Definition typoAscender : Z -> TTFParser -> TTFParser := ltac:(field_setter typoAscender).
Definition typoDescender : Z -> TTFParser -> TTFParser := ltac:(field_setter typoDescender).
Definition capHeight : Z -> TTFParser -> TTFParser := ltac:(field_setter capHeight).
Definition sxHeight : Z -> TTFParser -> TTFParser := ltac:(field_setter sxHeight).
Definition italicAngle : Z -> TTFParser -> TTFParser := ltac:(field_setter italicAngle).
Definition underlinePosition : Z -> TTFParser -> TTFParser :=
  ltac:(field_setter underlinePosition).
Definition underlineThickness : Z -> TTFParser -> TTFParser :=
  ltac:(field_setter underlineThickness).
Definition isFixedPitch : bool -> TTFParser -> TTFParser :=
  ltac:(field_setter isFixedPitch).
Definition sTypoLineGap : Z -> TTFParser -> TTFParser := ltac:(field_setter sTypoLineGap).
Definition usWinAscent : Z -> TTFParser -> TTFParser := ltac:(field_setter usWinAscent).
Definition usWinDescent : Z -> TTFParser -> TTFParser := ltac:(field_setter usWinDescent).
Definition IsShortIndex : bool -> TTFParser -> TTFParser :=
  ltac:(field_setter IsShortIndex).
Definition LocaTable : list Z -> TTFParser -> TTFParser := ltac:(field_setter LocaTable).
Definition SegCount : Z -> TTFParser -> TTFParser := ltac:(field_setter SegCount).
Definition StartCount : list Z -> TTFParser -> TTFParser := ltac:(field_setter StartCount).
Definition EndCount : list Z -> TTFParser -> TTFParser := ltac:(field_setter EndCount).
Definition IdRangeOffset : list Z -> TTFParser -> TTFParser :=
  ltac:(field_setter IdRangeOffset).
Definition IdDelta : list Z -> TTFParser -> TTFParser := ltac:(field_setter IdDelta).
Definition GlyphIdArray : list Z -> TTFParser -> TTFParser :=
  ltac:(field_setter GlyphIdArray).
Definition symbol : bool -> TTFParser -> TTFParser := ltac:(field_setter symbol).
Definition cahceFontData : list byte -> TTFParser -> TTFParser :=
  ltac:(field_setter cahceFontData).
End Set_.

(** ** The monad of the parser

    The state is the receiver together with the open file.  A computation
    ends with a value, with a returned [error], or with a panic; in each
    case the state reached is kept. *)

Definition State : Type := TTFParser * File.
Definition M (A : Type) : Type := State -> Res A * State.

Definition ret {A} (a : A) : M A := fun s => (Ok a, s).

Definition bind {A B} (m : M A) (k : A -> M B) : M B :=
  fun s =>
    match m s with
    | (Ok a, s') => k a s'
    | (Err e, s') => (Err e, s')
    | (Panic, s') => (Panic, s')
    end.

Notation "x <- m ;; k" := (bind m (fun x => k))
  (at level 100, m at next level, right associativity).
Notation "m ;; k" := (bind m (fun _ => k))
  (at level 100, right associativity).

(** [return err]. *)
Definition fail {A} (e : error) : M A := fun s => (Err e, s).
Definition panic {A} : M A := fun s => (Panic, s).

(** Reading the receiver, and the assignment [me.f = v]. *)
Definition getMe : M TTFParser := fun s => (Ok (fst s), s).
Definition assign (f : TTFParser -> TTFParser) : M unit :=
  fun s => (Ok tt, (f (fst s), snd s)).

(** A call on the file. *)
Definition onFile {A} (op : File -> Res A * File) : M A :=
  fun s => let (r, f') := op (snd s) in (r, (fst s, f')).

(** A call statement whose returned error is dropped: [me.Seek(fd, tag)]
    written without [err :=]. *)
Definition discard {A} (m : M A) : M unit :=
  fun s =>
    match m s with
    | (Ok _, s') => (Ok tt, s')
    | (Err _, s') => (Ok tt, s')
    | (Panic, s') => (Panic, s')
    end.

(** [me.f, err = call(); if err != nil { return err }]: the field receives
    the first result also when the call fails (its zero value then). *)
Definition assignFrom {A} (set : A -> TTFParser -> TTFParser) (zero : A)
    (m : M A) : M unit :=
  fun s =>
    match m s with
    | (Ok v, s') => (Ok tt, (set v (fst s'), snd s'))
    | (Err e, s') => (Err e, (set zero (fst s'), snd s'))
    | (Panic, s') => (Panic, s')
    end.

(** Counted [for] loops.  The body receives the loop variable and the local
    variables the loop updates, and says whether the loop goes on or is
    left by [break]. *)
Inductive LoopCtl (L : Type) : Type :=
| Continue (l : L)
| Break (l : L).
Arguments Continue {L} l.
Arguments Break {L} l.

Fixpoint for_ {L} (n : nat) (i : Z) (acc : L)
    (body : Z -> L -> M (LoopCtl L)) : M L :=
  match n with
  | O => ret acc
  | S n' =>
      r <- body i acc ;;
      match r with
      | Continue a => for_ n' (i + 1) a body
      | Break a => ret a
      end
  end.

(** [l[i]] with Go's bounds check. *)
Definition index (l : list Z) (i : Z) : M Z :=
  if (0 <=? i) && (i <? Z.of_nat (length l)) then
    match l !! Z.to_nat i with
    | Some x => ret x
    | None => panic
    end
  else panic.

(** ** Binary cursor *)

Definition Read (len : Z) : M (list byte) :=
  if len <? 0 then panic            (* make([]byte, length) *)
  else
    fun s =>
      let '((buff, err), f') := os_Read len (snd s) in
      match err with
      | Some e => (Err e, (fst s, f'))
      | None =>
          if Z.of_nat (length buff) =? len then (Ok buff, (fst s, f'))
          else (Err ErrFileOutOfLength, (fst s, f'))
      end.

Definition Skip (len : Z) : M unit :=
  _ <- onFile (os_Seek len 1) ;; ret tt.

Definition Seek (tag : string) : M unit :=
  me <- getMe ;;
  match tables me !! tag with
  | None => fail (ErrTableNotFound tag)
  | Some table =>
      _ <- onFile (os_Seek (Int.int64_of_uint64 (Offset table)) 0) ;; ret tt
  end.

Definition FTell : M Z :=
  offset <- onFile (os_Seek 0 1) ;; ret (Int.uint64_of_int64 offset).

Definition ReadUShort : M Z :=
  buff <- Read 2 ;; ret (be_to_Z buff).

Definition ReadShort : M Z :=
  buff <- Read 2 ;;
  let u := be_to_Z buff in
  ret (if 0x8000 <=? u then Int.int64_of_uint64 u - 65536
       else Int.int64_of_uint64 u).

Definition ReadULong : M Z :=
  buff <- Read 4 ;; ret (be_to_Z buff).

Definition BytesToString (b : list byte) : string := string_of_list_byte b.

(** Both arguments are non-nil slices at the only call. *)
Fixpoint CompareBytes (a b : list byte) : bool :=
  match a, b with
  | [], [] => true
  | x :: a', y :: b' => if Byte.eqb x y then CompareBytes a' b' else false
  | _, _ => false
  end.

(** ** Library calls of the name sanitizer

    [ParseName] cleans the PostScript name with [strings.Replace] and with
    [regexp.ReplaceAllString].  Both act on the bytes of a Go string. *)

(** [strings.Replace(s, old, "", -1)] for a one-byte [old]: every
    occurrence is removed. *)
Definition strings_Replace_byte (s : list byte) (old : byte) : list byte :=
  List.filter (fun v => negb (Byte.eqb v old)) s.

(** [strconv.Itoa(0)] is the one-character string of the digit zero. *)
Definition strconv_Itoa_0 : byte := "0"%byte.

Module Regexp.

(** The fragment of Go's regular expressions that the pattern of
    [ParseName] uses: the empty expression, a character class of ASCII
    characters, and alternation. *)
Inductive syntax : Type :=
| EmptyMatch
| CharClass (cs : list byte)
| Alternate (r1 r2 : syntax).

Definition inb (c : byte) (cs : list byte) : bool :=
  existsb (Byte.eqb c) cs.

(** Length of the match of [r] that starts at the head of [s].  Go's
    matching is leftmost-first: of the alternatives of [x|y] that match,
    the one written first is taken. *)
Fixpoint matchAt (r : syntax) (s : list byte) : option nat :=
  match r with
  | EmptyMatch => Some 0%nat
  | CharClass cs =>
      match s with
      | c :: _ => if inb c cs then Some 1%nat else None
      | [] => None
      end
  | Alternate r1 r2 =>
      match matchAt r1 s with
      | Some n => Some n
      | None => matchAt r2 s
      end
  end.

Definition between (lo hi : Z) (b : byte) : bool :=
  (lo <=? byteZ b) && (byteZ b <=? hi).

(** Width of the rune at the head of [s], as [utf8.DecodeRuneInString]
    reports it: 0 for the empty string, 1 for ASCII and for every invalid
    or truncated encoding. *)
Definition runeWidth (s : list byte) : nat :=
  match s with
  | [] => 0%nat
  | s0 :: t =>
      let cont := between 0x80 0xBF in
      let sized (sz : nat) (lo hi : Z) : nat :=
        match sz, t with
        | 2%nat, s1 :: _ => if between lo hi s1 then 2%nat else 1%nat
        | 3%nat, s1 :: s2 :: _ =>
            if between lo hi s1 && cont s2 then 3%nat else 1%nat
        | 4%nat, s1 :: s2 :: s3 :: _ =>
            if between lo hi s1 && cont s2 && cont s3 then 4%nat else 1%nat
        | _, _ => 1%nat
        end in
      let b := byteZ s0 in
      if b <? 0x80 then 1%nat
      else if b <? 0xC2 then 1%nat
      else if b <? 0xE0 then sized 2%nat 0x80 0xBF
      else if b =? 0xE0 then sized 3%nat 0xA0 0xBF
      else if b =? 0xED then sized 3%nat 0x80 0x9F
      else if b <? 0xF0 then sized 3%nat 0x80 0xBF
      else if b =? 0xF0 then sized 4%nat 0x90 0xBF
      else if b <? 0xF4 then sized 4%nat 0x80 0xBF
      else if b =? 0xF4 then sized 4%nat 0x80 0x8F
      else 1%nat
  end.

(** The first match at or after the head of [s], which sits at position
    [pos] of the subject: its start and its end. *)
Fixpoint doExecute (r : syntax) (s : list byte) (pos : nat)
    : option (nat * nat) :=
  match matchAt r s with
  | Some n => Some (pos, (pos + n)%nat)
  | None =>
      match s with
      | [] => None
      | _ :: s' => doExecute r s' (S pos)
      end
  end.

(** The loop of [Regexp.replaceAll].  [searchPos] grows at every turn, so
    the loop body runs at most [length src + 1] times. *)
Fixpoint replaceAll (turns : nat) (r : syntax) (src repl : list byte)
    (lastMatchEnd searchPos : nat) (buf : list byte) : list byte :=
  match turns with
  | O => buf ++ drop lastMatchEnd src
  | S turns' =>
      if (searchPos <=? length src)%nat then
        match doExecute r (drop searchPos src) searchPos with
        | None => buf ++ drop lastMatchEnd src
        | Some (a0, a1) =>
            let buf1 :=
              buf ++ take (a0 - lastMatchEnd) (drop lastMatchEnd src) in
            let buf2 :=
              if (lastMatchEnd <? a1)%nat || (a0 =? 0)%nat
              then buf1 ++ repl else buf1 in
            let width := runeWidth (drop searchPos src) in
            let searchPos' :=
              if (a1 <? searchPos + width)%nat then (searchPos + width)%nat
              else if (a1 <? searchPos + 1)%nat then (searchPos + 1)%nat
              else a1 in
            replaceAll turns' r src repl a1 searchPos' buf2
        end
      else buf ++ drop lastMatchEnd src
  end.

(** [re.ReplaceAllString(src, repl)] for a [repl] without [$]. *)
Definition ReplaceAllString (r : syntax) (src repl : list byte) : list byte :=
  replaceAll (S (length src)) r src repl 0 0 [].

End Regexp.

(** The pattern literal of [ParseName], "|[ \\[\\](){}<>/%]|", as
    [regexp.Compile] reads it.  The two bars, delimiters in the PHP
    original, are alternation bars in Go: the expression is the empty
    expression, or the class, or the empty expression. *)
Definition namePattern : Regexp.syntax :=
  Regexp.Alternate Regexp.EmptyMatch
    (Regexp.Alternate
       (Regexp.CharClass
          [" "; "["; "]"; "("; ")"; "{"; "}"; "<"; ">"; "/"; "%"]%byte)
       Regexp.EmptyMatch).

(** [regexp.Compile] accepts the pattern above, so no error is returned. *)
Definition PregReplace (pattern : Regexp.syntax) (replacement subject : list byte)
    : M (list byte) :=
  ret (Regexp.ReplaceAllString pattern subject replacement).

(** ** Table parsers *)

Definition ParseHead : M unit :=
  Seek "head" ;;
  Skip (3 * 4) ;;                       (* version, fontRevision, checkSumAdjustment *)
  magicNumber <- ReadULong ;;
  if negb (magicNumber =? 0x5F0F3CF5) then fail ERROR_INCORRECT_MAGIC_NUMBER
  else
    Skip 2 ;;
    assignFrom Set_.unitsPerEm 0 ReadUShort ;;
    Skip (2 * 8) ;;                     (* created, modified *)
    assignFrom Set_.xMin 0 ReadShort ;;
    assignFrom Set_.yMin 0 ReadShort ;;
    assignFrom Set_.xMax 0 ReadShort ;;
    assignFrom Set_.yMax 0 ReadShort ;;
    Skip (2 * 3) ;;                     (* macStyle, lowestRecPPEM, fontDirectionHint *)
    assignFrom Set_.indexToLocFormat 0 ReadShort.

Definition ParseHhea : M unit :=
  Seek "hhea" ;;
  Skip 4 ;;                             (* version *)
  assignFrom Set_.ascender 0 ReadShort ;;
  assignFrom Set_.descender 0 ReadShort ;;
  Skip (13 * 2) ;;
  assignFrom Set_.numberOfHMetrics 0 ReadUShort.

Definition ParseMaxp : M unit :=
  Seek "maxp" ;;
  Skip 4 ;;
  assignFrom Set_.numGlyphs 0 ReadUShort.

(** The loop of [ArrayPadUint], [i] running from its current value for
    [n] more turns. *)
Fixpoint ArrayPadUint_loop (n : nat) (i : Z) (arr : list Z) (val : Z)
    (result : list Z) : list Z :=
  match n with
  | O => result
  | S n' =>
      ArrayPadUint_loop n' (Int.add i 1) arr val
        (result ++
           [if Int.int_of_uint64 i <? Z.of_nat (length arr)
            then nth (Z.to_nat i) arr 0 else val])
  end.

Definition ArrayPadUint (arr : list Z) (size : Z) (val : Z) : M (list Z) :=
  ret (ArrayPadUint_loop (Z.to_nat size) 0 arr val []).

Definition ParseHmtx : M unit :=
  discard (Seek "hmtx") ;;
  me <- getMe ;;
  for_ (Z.to_nat (numberOfHMetrics me)) 0 tt (fun _ _ =>
    advanceWidth <- ReadUShort ;;
    Skip 2 ;;
    assign (fun me => Set_.widths (widths me ++ [advanceWidth]) me) ;;
    ret (Continue tt)) ;;
  me <- getMe ;;
  if numberOfHMetrics me <? numGlyphs me then
    lastWidth <- index (widths me) (Int.sub (numberOfHMetrics me) 1) ;;
    assignFrom Set_.widths [] (ArrayPadUint (widths me) (numGlyphs me) lastWidth)
  else ret tt.

(** [for i := 0; i < int(n); i++ { tmp := ReadUShort(); a = append(a, tmp) }] *)
Definition readUShorts (n : Z) : M (list Z) :=
  for_ (Z.to_nat (Int.int_of_uint64 n)) 0 [] (fun _ a =>
    tmp <- ReadUShort ;; ret (Continue (a ++ [tmp]))).

(** The body of the inner loop of [ParseCmap] for the codepoint [c] of a
    segment with delta [d] and range offset [ro]. *)
Definition cmapCodepoint (d ro : Z) (c : Z) : M (LoopCtl unit) :=
  if c =? 0xFFFF then ret (Break tt)
  else
    gid <- (if 0 <? ro then
              gid <- ReadUShort ;;
              ret (if 0 <? gid then Int.add gid d else gid)
            else ret (Int.add c d)) ;;
    let gid := if 65536 <=? gid then Int.sub gid 65536 else gid in
    (if 0 <? gid then
       assign (fun me =>
         Set_.chars (<[Int.int_of_uint64 c := gid]> (chars me)) me)
     else ret tt) ;;
    ret (Continue tt).

(** The body of the outer loop of [ParseCmap] for segment [i].  The inner
    loop runs [c] from [c1] to [c2]; both are 16-bit values, so the
    increment of the [uint64] loop variable does not wrap. *)
Definition cmapSegment (startCount endCount idDelta idRangeOffset : list Z)
    (offset : Z) (i : Z) : M (LoopCtl unit) :=
  c1 <- index startCount i ;;
  c2 <- index endCount i ;;
  d <- index idDelta i ;;
  ro <- index idRangeOffset i ;;
  (if 0 <? ro then
     _ <- onFile (os_Seek
            (Int.int64_of_uint64
               (Int.add (Int.add offset (Int.uint64_of_int64 (2 * i))) ro)) 0) ;;
     ret tt
   else ret tt) ;;
  for_ (Z.to_nat (c2 + 1 - c1)) c1 tt (fun c _ => cmapCodepoint d ro c) ;;
  ret (Continue tt).

Definition zeroEntry : TableDirectoryEntry := mkEntry 0 0 0.

Definition ParseCmap : M unit :=
  discard (Seek "cmap") ;;
  discard (Skip 2) ;;                   (* version *)
  numTables <- ReadUShort ;;
  offset31 <-
    for_ (Z.to_nat (Int.int_of_uint64 numTables)) 0 0 (fun _ offset31 =>
      platformID <- ReadUShort ;;
      encodingID <- ReadUShort ;;
      offset <- ReadULong ;;
      assign (Set_.symbol false) ;;
      if (platformID =? 3) && (encodingID =? 1) then
        (if encodingID =? 0 then assign (Set_.symbol true) else ret tt) ;;
        ret (Continue offset)
      else ret (Continue offset31)) ;;
  if offset31 =? 0 then fail ERROR_NO_UNICODE_ENCODING_FOUND
  else
    me <- getMe ;;
    _ <- onFile (os_Seek
           (Int.int64_of_uint64
              (Int.add (Offset (default zeroEntry (tables me !! "cmap"%string)))
                       offset31)) 0) ;;
    format <- ReadUShort ;;
    if negb (format =? 4) then fail ERROR_UNEXPECTED_SUBTABLE_FORMAT
    else
      length <- ReadUShort ;;
      Skip 2 ;;                         (* language *)
      segCount <- ReadUShort ;;
      let segCount := segCount / 2 in
      assign (Set_.SegCount segCount) ;;
      Skip (3 * 2) ;;                   (* searchRange, entrySelector, rangeShift *)
      let glyphCount :=
        Int.sub length (Int.add 16 (Int.mul 8 segCount)) / 2 in
      endCount <- readUShorts segCount ;;
      assign (Set_.EndCount endCount) ;;
      Skip 2 ;;                         (* reservedPad *)
      startCount <- readUShorts segCount ;;
      assign (Set_.StartCount startCount) ;;
      idDelta <- readUShorts segCount ;;
      assign (Set_.IdDelta idDelta) ;;
      offset <- FTell ;;
      idRangeOffset <- readUShorts segCount ;;
      assign (Set_.IdRangeOffset idRangeOffset) ;;
      glyphIdArray <- readUShorts glyphCount ;;
      assign (Set_.GlyphIdArray glyphIdArray) ;;
      assign (Set_.chars ∅) ;;
      for_ (Z.to_nat (Int.int_of_uint64 segCount)) 0 tt (fun i _ =>
        cmapSegment startCount endCount idDelta idRangeOffset offset i) ;;
      ret tt.

(** The cleaning of the raw PostScript name in [ParseName]: the zero bytes
    are dropped, then every occurrence of [strconv.Itoa(0)], then the
    matches of the pattern are replaced by the empty string. *)
Definition cleanName (stmp : list byte) : M (list byte) :=
  let tmpStmp := List.filter (fun v => negb (byteZ v =? 0)) stmp in
  let s := tmpStmp in
  let s := strings_Replace_byte s strconv_Itoa_0 in
  PregReplace namePattern [] s.

Definition ParseName : M unit :=
  Seek "name" ;;
  tableOffset <- FTell ;;
  assign (Set_.postScriptName EmptyString) ;;
  Skip 2 ;;                             (* format *)
  count <- ReadUShort ;;
  stringOffset <- ReadUShort ;;
  for_ (Z.to_nat (Int.int_of_uint64 count)) 0 tt (fun _ _ =>
    Skip (3 * 2) ;;                     (* platformID, encodingID, languageID *)
    nameID <- ReadUShort ;;
    length <- ReadUShort ;;
    offset <- ReadUShort ;;
    if nameID =? 6 then
      _ <- onFile (os_Seek
             (Int.int64_of_uint64
                (Int.add (Int.add tableOffset stringOffset) offset)) 0) ;;
      stmp <- Read (Int.int_of_uint64 length) ;;
      s <- cleanName stmp ;;
      assign (Set_.postScriptName (string_of_list_byte s)) ;;
      ret (Break tt)
    else ret (Continue tt)) ;;
  me <- getMe ;;
  if String.eqb (postScriptName me) EmptyString
  then fail ERROR_POSTSCRIPT_NAME_NOT_FOUND
  else ret tt.

Definition ParseOS2 : M unit :=
  Seek "OS/2" ;;
  version <- ReadUShort ;;
  assign (Set_.os2Version version) ;;
  Skip (3 * 2) ;;                       (* xAvgCharWidth, usWeightClass, usWidthClass *)
  fsType <- ReadUShort ;;
  assign (Set_.Embeddable
            (negb (fsType =? 2) && (Z.land fsType 0x200 =? 0))) ;;
  Skip ((11 * 2) + 10 + (4 * 4) + 4) ;;
  fsSelection <- ReadUShort ;;
  assign (Set_.Bold (negb (Z.land fsSelection 32 =? 0))) ;;
  Skip (2 * 2) ;;                       (* usFirstCharIndex, usLastCharIndex *)
  assignFrom Set_.typoAscender 0 ReadShort ;;
  assignFrom Set_.typoDescender 0 ReadShort ;;
  assignFrom Set_.sTypoLineGap 0 ReadShort ;;
  assignFrom Set_.usWinAscent 0 ReadUShort ;;
  assignFrom Set_.usWinDescent 0 ReadUShort ;;
  if 2 <=? version then
    Skip (2 * 4) ;;
    assignFrom Set_.sxHeight 0 ReadShort ;;
    assignFrom Set_.capHeight 0 ReadShort
  else
    assign (fun me => Set_.capHeight (ascender me) me).

Definition ParsePost : M unit :=
  Seek "post" ;;
  Skip 4 ;;                             (* version *)
  assignFrom Set_.italicAngle 0 ReadShort ;;
  Skip 2 ;;                             (* decimal part *)
  assignFrom Set_.underlinePosition 0 ReadShort ;;
  assignFrom Set_.underlineThickness 0 ReadShort ;;
  isFixedPitch <- ReadULong ;;
  assign (Set_.isFixedPitch (negb (isFixedPitch =? 0))).

Definition ParseLoca : M unit :=
  assign (Set_.IsShortIndex false) ;;
  me <- getMe ;;
  (if indexToLocFormat me =? 0 then assign (Set_.IsShortIndex true)
   else ret tt) ;;
  Seek "loca" ;;
  me <- getMe ;;
  let table := default zeroEntry (tables me !! "loca"%string) in
  locaTable <-
    (if IsShortIndex me then
       let entries := Length table / 2 in
       for_ (Z.to_nat entries) 0 [] (fun _ locaTable =>
         item <- ReadUShort ;;
         ret (Continue (locaTable ++ [Int.mul item 2])))
     else
       let entries := Length table / 4 in
       for_ (Z.to_nat entries) 0 [] (fun _ locaTable =>
         item <- ReadULong ;;
         ret (Continue (locaTable ++ [item])))) ;;
  assign (Set_.LocaTable locaTable).

(** ** The orchestration routine *)

(** [readFontData]: [ioutil.ReadFile] on the path that [os.Open] has
    opened, hence the same content. *)
Definition readFontData (content : list byte) : M (list byte) :=
  ret content.

(** The body of [Parse] once [os.Open] has succeeded on a file of the given
    content; the state starts with the cursor at 0. *)
Definition ParseOpened (content : list byte) : M unit :=
  version <- Read 4 ;;
  if negb (CompareBytes version [x00; x01; x00; x00])
  then fail ErrUnrecognizedFormat
  else
    numTables <- ReadUShort ;;
    discard (Skip (3 * 2)) ;;           (* searchRange, entrySelector, rangeShift *)
    assign (Set_.tables ∅) ;;
    for_ (Z.to_nat numTables) 0 tt (fun _ _ =>
      tag <- Read 4 ;;
      checksum <- ReadULong ;;
      offset <- ReadULong ;;
      length <- ReadULong ;;
      let table := mkEntry checksum offset length in
      assign (fun me =>
        Set_.tables (<[BytesToString tag := table]> (tables me)) me) ;;
      ret (Continue tt)) ;;
    ParseHead ;;
    ParseHhea ;;
    ParseMaxp ;;
    ParseHmtx ;;
    ParseCmap ;;
    ParseName ;;
    ParseOS2 ;;
    ParsePost ;;
    ParseLoca ;;
    assignFrom Set_.cahceFontData [] (readFontData content).

(** [me.Parse(fontpath)].  [None] stands for a path that cannot be opened;
    the outcome comes with the receiver as the call leaves it. *)
Definition Parse (file : option (list byte)) (me : TTFParser)
    : Res unit * TTFParser :=
  match file with
  | None => (Err ErrOpen, me)
  | Some content =>
      let (r, s) := ParseOpened content (me, mkFile content 0) in (r, fst s)
  end.

(** ** Derived accessors *)

Definition Symbolic : Z := Z.shiftl 1 2.
Definition Nonsymbolic : Z := Z.shiftl 1 5.

Definition Flag (me : TTFParser) : Z :=
  let flag := 0 in
  if symbol me then Z.lor flag Symbolic else Z.lor flag Nonsymbolic.

Definition Ascender (me : TTFParser) : Z :=
  if typoAscender me =? 0 then ascender me
  else Int.int64_of_uint64 (usWinAscent me).

Definition Descender (me : TTFParser) : Z :=
  if typoDescender me =? 0 then descender me
  else
    let descender_ := Int.int64_of_uint64 (usWinDescent me) in
    if descender me <? 0 then Int.s64 (descender_ * (-1)) else descender_.

Definition Widths (me : TTFParser) : list Z := widths me.
Definition Chars (me : TTFParser) : gmap Z Z := chars me.
Definition NumGlyphs (me : TTFParser) : Z := numGlyphs me.
Definition NumberOfHMetrics (me : TTFParser) : Z := numberOfHMetrics me.

(** ** Concrete font files

    A small builder of well-formed sfnt files, used for the concrete inputs
    of the examples below. *)

Module Sample.

Definition b (z : Z) : byte :=
  match Byte.of_N (Z.to_N (z mod 256)) with
  | Some x => x
  | None => x00
  end.

(** Big-endian 16 and 32 bit fields; a negative value is written in two's
    complement. *)
Definition u16 (z : Z) : list byte := [b (z / 256); b z].
Definition u32 (z : Z) : list byte := u16 (z / 65536) ++ u16 z.
Definition zeros (n : nat) : list byte := repeat x00 n.
Definition len (l : list byte) : Z := Z.of_nat (length l).

Fixpoint directory (ts : list (string * list byte)) (off : Z) : list byte :=
  match ts with
  | [] => []
  | (tag, body) :: rest =>
      list_byte_of_string tag ++ u32 0 ++ u32 off ++ u32 (len body)
        ++ directory rest (off + len body)
  end.

Definition font (ts : list (string * list byte)) : list byte :=
  let n := Z.of_nat (length ts) in
  [x00; x01; x00; x00] ++ u16 n ++ zeros 6
    ++ directory ts (12 + 16 * n) ++ concat (map snd ts).

Definition head (magic unitsPerEm_ xMin_ yMin_ xMax_ yMax_ locFormat : Z)
    : list byte :=
  zeros 12 ++ u32 magic ++ u16 0 ++ u16 unitsPerEm_ ++ zeros 16
    ++ u16 xMin_ ++ u16 yMin_ ++ u16 xMax_ ++ u16 yMax_ ++ zeros 6
    ++ u16 locFormat.

Definition hhea (ascender_ descender_ numberOfHMetrics_ : Z) : list byte :=
  zeros 4 ++ u16 ascender_ ++ u16 descender_ ++ zeros 26
    ++ u16 numberOfHMetrics_.

Definition maxp (numGlyphs_ : Z) : list byte := zeros 4 ++ u16 numGlyphs_.

(** One (advanceWidth, leftSideBearing) pair per element. *)
Definition hmtx (ws : list (Z * Z)) : list byte :=
  concat (map (fun p => u16 (fst p) ++ u16 (snd p)) ws).

(** A cmap table with one encoding record (platform, encoding) pointing to
    a format-4 subtable of the given segments
    (start, end, idDelta, idRangeOffset) and glyph-index array. *)
Definition cmap (platformID encodingID : Z) (segs : list (Z * Z * Z * Z))
    (glyphIds : list Z) : list byte :=
  let n := Z.of_nat (length segs) in
  u16 0 ++ u16 1 ++
  u16 platformID ++ u16 encodingID ++ u32 12 ++
  u16 4 ++ u16 (16 + 8 * n + 2 * Z.of_nat (length glyphIds)) ++ u16 0
    ++ u16 (2 * n) ++ zeros 6
    ++ concat (map (fun '(_, e, _, _) => u16 e) segs) ++ u16 0
    ++ concat (map (fun '(st, _, _, _) => u16 st) segs)
    ++ concat (map (fun '(_, _, d, _) => u16 d) segs)
    ++ concat (map (fun '(_, _, _, ro) => u16 ro) segs)
    ++ concat (map u16 glyphIds).

(** A name table with the single record [nameID] of the given payload. *)
Definition name (nameID : Z) (payload : list byte) : list byte :=
  u16 0 ++ u16 1 ++ u16 18 ++
  zeros 6 ++ u16 nameID ++ u16 (len payload) ++ u16 0 ++ payload.

Definition os2 (version fsType fsSelection typoAsc typoDesc lineGap
    winAscent winDescent sxHeight_ capHeight_ : Z) : list byte :=
  u16 version ++ zeros 6 ++ u16 fsType ++ zeros 52 ++ u16 fsSelection
    ++ zeros 4 ++ u16 typoAsc ++ u16 typoDesc ++ u16 lineGap
    ++ u16 winAscent ++ u16 winDescent
    ++ zeros 8 ++ u16 sxHeight_ ++ u16 capHeight_.

Definition post (italic ulPos ulThick fixedPitch : Z) : list byte :=
  zeros 4 ++ u16 italic ++ zeros 2 ++ u16 ulPos ++ u16 ulThick
    ++ u32 fixedPitch.

Definition loca (offsets : list Z) : list byte := concat (map u16 offsets).

(** A font of three glyphs with two explicit horizontal metrics, the
    letters A to F mapped by one segment, and the closing 0xFFFF segment. *)
Definition tablesA : list (string * list byte) :=
  [ ("head"%string, head 0x5F0F3CF5 1000 (-10) (-200) 900 800 0);
    ("hhea"%string, hhea 800 (-200) 2);
    ("maxp"%string, maxp 3);
    ("hmtx"%string, hmtx [(500, 0); (600, 0)]);
    ("cmap"%string, cmap 3 1 [(65, 70, 0, 0); (0xFFFF, 0xFFFF, 1, 0)] []);
    ("name"%string, name 6 (list_byte_of_string "A/B C"));
    ("OS/2"%string, os2 3 0 0 750 (-250) 0 850 300 450 700);
    ("post"%string, post 0 (-100) 50 0);
    ("loca"%string, loca [0; 10; 20; 30]) ].

Definition fontA : list byte := font tablesA.

Definition headA : list byte := head 0x5F0F3CF5 1000 (-10) (-200) 900 800 0.
Definition cmapA : list byte :=
  cmap 3 1 [(65, 70, 0, 0); (0xFFFF, 0xFFFF, 1, 0)] [].
Definition os2A : list byte := os2 3 0 0 750 (-250) 0 850 300 450 700.
Definition postA : list byte := post 0 (-100) 50 0.

(** [fontA] with more explicit metrics (2) than glyphs (1). *)
Definition fontB : list byte :=
  font
    [ ("head"%string, headA);
      ("hhea"%string, hhea 800 (-200) 2);
      ("maxp"%string, maxp 1);
      ("hmtx"%string, hmtx [(500, 0); (600, 0)]);
      ("cmap"%string, cmapA);
      ("name"%string, name 6 (list_byte_of_string "Sample"));
      ("OS/2"%string, os2A);
      ("post"%string, postA);
      ("loca"%string, loca [0; 10]) ].

(** [fontA] without its hmtx table. *)
Definition fontNoHmtx : list byte :=
  font
    [ ("head"%string, headA);
      ("hhea"%string, hhea 800 (-200) 2);
      ("maxp"%string, maxp 3);
      ("cmap"%string, cmapA);
      ("name"%string, name 6 (list_byte_of_string "Sample"));
      ("OS/2"%string, os2A);
      ("post"%string, postA);
      ("loca"%string, loca [0; 10; 20; 30]) ].

(** [fontA] without its cmap table. *)
Definition fontNoCmap : list byte :=
  font
    [ ("head"%string, headA);
      ("hhea"%string, hhea 800 (-200) 2);
      ("maxp"%string, maxp 3);
      ("hmtx"%string, hmtx [(500, 0); (600, 0)]);
      ("name"%string, name 6 (list_byte_of_string "Sample"));
      ("OS/2"%string, os2A);
      ("post"%string, postA);
      ("loca"%string, loca [0; 10; 20; 30]) ].

(** One glyph, no explicit metric, an empty hmtx table. *)
Definition fontNoMetrics : list byte :=
  font
    [ ("head"%string, headA);
      ("hhea"%string, hhea 800 (-200) 0);
      ("maxp"%string, maxp 1);
      ("hmtx"%string, hmtx []);
      ("cmap"%string, cmapA);
      ("name"%string, name 6 (list_byte_of_string "Sample"));
      ("OS/2"%string, os2A);
      ("post"%string, postA);
      ("loca"%string, loca [0; 10]) ].

(** [fontA] with the PostScript name "A0". *)
Definition fontNameA0 : list byte :=
  font
    [ ("head"%string, headA);
      ("hhea"%string, hhea 800 (-200) 2);
      ("maxp"%string, maxp 3);
      ("hmtx"%string, hmtx [(500, 0); (600, 0)]);
      ("cmap"%string, cmapA);
      ("name"%string, name 6 (list_byte_of_string "A0"));
      ("OS/2"%string, os2A);
      ("post"%string, postA);
      ("loca"%string, loca [0; 10; 20; 30]) ].

(** [fontA] with a wrong magic number in head. *)
Definition fontBadMagic : list byte :=
  font
    [ ("head"%string, head 0x5F0F3CF4 1000 (-10) (-200) 900 800 0);
      ("hhea"%string, hhea 800 (-200) 2);
      ("maxp"%string, maxp 3);
      ("hmtx"%string, hmtx [(500, 0); (600, 0)]);
      ("cmap"%string, cmapA);
      ("name"%string, name 6 (list_byte_of_string "Sample"));
      ("OS/2"%string, os2A);
      ("post"%string, postA);
      ("loca"%string, loca [0; 10; 20; 30]) ].

End Sample.

(** ** Inputs and results of the examples *)

(** The receivers that the parses of [fontA] and [fontB] by a new parser
    leave. *)
Definition parsedA : TTFParser :=
  Eval vm_compute in snd (Parse (Some Sample.fontA) zeroTTFParser).
Definition parsedB : TTFParser :=
  Eval vm_compute in snd (Parse (Some Sample.fontB) zeroTTFParser).

Definition parsedNoHmtx : TTFParser :=
  Eval vm_compute in snd (Parse (Some Sample.fontNoHmtx) zeroTTFParser).

(** A font of two glyphs with one explicit horizontal metric, of advance
    width 700; the receiver that its parse by a new parser leaves, and the
    one that its parse by the parser that has parsed [fontA] leaves. *)
Definition fontOneMetric : list byte :=
  Sample.font
    [ ("head"%string, Sample.headA);
      ("hhea"%string, Sample.hhea 800 (-200) 1);
      ("maxp"%string, Sample.maxp 2);
      ("hmtx"%string, Sample.hmtx [(700, 0)]);
      ("cmap"%string, Sample.cmapA);
      ("name"%string, Sample.name 6 (list_byte_of_string "Sample"));
      ("OS/2"%string, Sample.os2A);
      ("post"%string, Sample.postA);
      ("loca"%string, Sample.loca [0; 10; 20]) ].
Definition parsedOneMetric : TTFParser :=
  Eval vm_compute in snd (Parse (Some fontOneMetric) zeroTTFParser).
Definition parsedTwice : TTFParser :=
  Eval vm_compute in snd (Parse (Some fontOneMetric) parsedA).

Definition parsedNameA0 : TTFParser :=
  Eval vm_compute in snd (Parse (Some Sample.fontNameA0) zeroTTFParser).

Definition meHmtx : TTFParser :=
  Set_.numGlyphs 4
    (Set_.numberOfHMetrics 2
       (Set_.tables {[ "hmtx"%string := mkEntry 0 3 8 ]} zeroTTFParser)).
Definition fdHmtx : File :=
  mkFile (Sample.zeros 3 ++ Sample.hmtx [(500, 7); (600, 8)]) 0.
Definition entryHmtx : TableDirectoryEntry := mkEntry 0 3 8.

Definition meHead : TTFParser :=
  Set_.unitsPerEm 2048
    (Set_.tables {[ "head"%string := mkEntry 0 0 52 ]} zeroTTFParser).
Definition fdHead : File :=
  mkFile (Sample.head 0x5F0F3CF4 1000 (-10) (-200) 900 800 1) 0.
Definition entryHead : TableDirectoryEntry := mkEntry 0 0 52.

(** ** Observations and predicates of the statements *)

(** The [n] bytes of [data] from position [pos], and the big-endian
    fields read there. *)
Definition bytesAt (data : list byte) (pos n : Z) : list byte :=
  take (Z.to_nat n) (drop (Z.to_nat pos) data).
Definition u16At (data : list byte) (pos : Z) : Z := be_to_Z (bytesAt data pos 2).
Definition u32At (data : list byte) (pos : Z) : Z := be_to_Z (bytesAt data pos 4).

(** Weakest preconditions on the receiver.
    [wp m Q me]: from the receiver [me] and any file, if [m] ends with a
    value then [Q] holds of the value and of the receiver reached. *)

Definition wp {A} (m : M A) (Q : A -> TTFParser -> Prop) (me : TTFParser) : Prop :=
  forall fd a s', m (me, fd) = (Ok a, s') -> Q a (fst s').

(** The fields that [ParseHmtx] settles. *)
Definition hmtxFrame (me me' : TTFParser) : Prop :=
  widths me' = widths me
  /\ numberOfHMetrics me' = numberOfHMetrics me
  /\ numGlyphs me' = numGlyphs me.

(** The fields that [ParseCmap] settles, with the former. *)
Definition cmapFrame (me me' : TTFParser) : Prop :=
  hmtxFrame me me' /\ chars me' = chars me /\ symbol me' = symbol me.

(** The fields of [ParseOS2] and [ParseHhea] that [Descender] reads. *)
Definition os2Frame (me me' : TTFParser) : Prop :=
  typoDescender me' = typoDescender me
  /\ usWinDescent me' = usWinDescent me
  /\ descender me' = descender me.

(** No codepoint is mapped to glyph 0 and the sentinel 0xFFFF is no key. *)
Definition charsOK (me : TTFParser) : Prop :=
  map_Forall (fun k v => v <> 0 /\ k <> 0xFFFF) (chars me).

Definition cmapDone (me me' : TTFParser) : Prop :=
  hmtxFrame me me' /\ symbol me' = false /\ charsOK me'.

(** The length that [ParseHmtx] gives to the width sequence of a parser
    that had none. *)
Definition widthsLen (me : TTFParser) : Prop :=
  length (widths me)
  = Z.to_nat (Z.max (numberOfHMetrics me) (numGlyphs me)).

(** The tail-padding law: from numberOfHMetrics on, every width is the
    last explicit one. *)
Definition widthsPadded (me : TTFParser) : Prop :=
  forall i, numberOfHMetrics me <= i < numGlyphs me ->
    widths me !! Z.to_nat i = widths me !! Z.to_nat (numberOfHMetrics me - 1).

Definition metricsRange (me : TTFParser) : Prop :=
  0 <= numberOfHMetrics me < 65536 /\ 0 <= numGlyphs me < 65536.

Definition hmtxDone (me me' : TTFParser) : Prop :=
  numberOfHMetrics me' = numberOfHMetrics me
  /\ numGlyphs me' = numGlyphs me
  /\ (widths me = [] -> widthsLen me')
  /\ (widths me = [] -> metricsRange me -> widthsPadded me').

Definition winDescentRange (me : TTFParser) : Prop :=
  0 <= usWinDescent me < 65536.

(** What holds of the receiver [me] that a successful parse started from
    [me0] leaves. *)
Definition parsed (me0 me : TTFParser) : Prop :=
  (widths me0 = [] -> widthsLen me /\ widthsPadded me)
  /\ metricsRange me
  /\ symbol me = false
  /\ charsOK me
  /\ winDescentRange me.

(** ** Further observations *)

(** The signed 16-bit field at a position: two's complement of the
    unsigned one. *)
Definition s16At (data : list byte) (pos : Z) : Z :=
  let u := u16At data pos in if 0x8000 <=? u then u - 65536 else u.

(** The bytes that remain from the cursor on. *)
Definition remaining (fd : File) : Z := Z.of_nat (length (fdata fd)) - fpos fd.

(** ** Inputs of the further examples *)

(** A parser that holds two widths already, with more explicit metrics
    than glyphs. *)
Definition meHmtx2 : TTFParser :=
  Set_.widths [11; 12]
    (Set_.numGlyphs 1
       (Set_.numberOfHMetrics 2
          (Set_.tables {[ "hmtx"%string := mkEntry 0 3 8 ]} zeroTTFParser))).


(** A new parser whose directory holds the single table [tag], at offset 0
    and of the given length. *)
Definition meTable (tag : string) (len : Z) : TTFParser :=
  Set_.tables {[ tag := mkEntry 0 0 len ]} zeroTTFParser.

(** A file that holds one table, the cursor at its start. *)
Definition fdOf (table : list byte) : File := mkFile table 0.

(** ** Field layouts, as the parsers read them

    [data] is the content of the file and [o] the offset of the table. *)

Definition headFields (data : list byte) (o : Z) (me' : TTFParser) : Prop :=
  unitsPerEm me' = u16At data (o + 18)
  /\ xMin me' = s16At data (o + 36)
  /\ yMin me' = s16At data (o + 38)
  /\ xMax me' = s16At data (o + 40)
  /\ yMax me' = s16At data (o + 42)
  /\ indexToLocFormat me' = s16At data (o + 50).

Definition hheaFields (data : list byte) (o : Z) (me' : TTFParser) : Prop :=
  ascender me' = s16At data (o + 4)
  /\ descender me' = s16At data (o + 6)
  /\ numberOfHMetrics me' = u16At data (o + 34).

Definition postFields (data : list byte) (o : Z) (me' : TTFParser) : Prop :=
  italicAngle me' = s16At data (o + 4)
  /\ underlinePosition me' = s16At data (o + 8)
  /\ underlineThickness me' = s16At data (o + 10)
  /\ isFixedPitch me' = negb (u32At data (o + 12) =? 0).

Definition os2Fields (data : list byte) (o : Z) (me me' : TTFParser) : Prop :=
  os2Version me' = u16At data o
  /\ Embeddable me'
     = (negb (u16At data (o + 8) =? 2)
        && (Z.land (u16At data (o + 8)) 0x200 =? 0))
  /\ Bold me' = negb (Z.land (u16At data (o + 62)) 32 =? 0)
  /\ typoAscender me' = s16At data (o + 68)
  /\ typoDescender me' = s16At data (o + 70)
  /\ sTypoLineGap me' = s16At data (o + 72)
  /\ usWinAscent me' = u16At data (o + 74)
  /\ usWinDescent me' = u16At data (o + 76)
  /\ (if 2 <=? u16At data o
      then sxHeight me' = s16At data (o + 86)
           /\ capHeight me' = s16At data (o + 88)
      else sxHeight me' = sxHeight me /\ capHeight me' = ascender me).

(** The length of the part of OS/2 that is read, by version. *)
Definition os2Length (version : Z) : Z := if 2 <=? version then 90 else 78.

(** The loca offsets that [ParseLoca] stores, by index format. *)
Definition locaOffsets (data : list byte) (e : TableDirectoryEntry)
    (locFormat : Z) : list Z :=
  if locFormat =? 0 then
    map (fun k => 2 * u16At data (Offset e + 2 * Z.of_nat k))
      (seq 0 (Z.to_nat (Length e / 2)))
  else
    map (fun k => u32At data (Offset e + 4 * Z.of_nat k))
      (seq 0 (Z.to_nat (Length e / 4))).

(** An OS/2 table of version 1, cut after usWinDescent. *)
Definition os2V1 : list byte :=
  take 78 (Sample.os2 1 0x200 32 750 (-250) 0 850 300 0 0).

(** ** The directory, as [Parse] builds it *)

(** The tag and the entry of the 16-byte directory record at [pos]. *)
Definition dirTag (data : list byte) (pos : Z) : string :=
  BytesToString (bytesAt data pos 4).
Definition dirEntry (data : list byte) (pos : Z) : TableDirectoryEntry :=
  mkEntry (u32At data (pos + 4)) (u32At data (pos + 8)) (u32At data (pos + 12)).

(** The map after the [n] records from [pos] on have been inserted, in
    file order, into [t]. *)
Fixpoint dirTables (n : nat) (data : list byte) (pos : Z)
    (t : gmap string TableDirectoryEntry) : gmap string TableDirectoryEntry :=
  match n with
  | O => t
  | S n' =>
      dirTables n' data (pos + 16) (<[dirTag data pos := dirEntry data pos]> t)
  end.

(** The tags whose absence [Parse] reports. *)
Definition checkedTags : list string :=
  ["head"; "hhea"; "maxp"; "name"; "OS/2"; "post"; "loca"]%string.

(** ** Predicates of the further statements *)

Definition frameA (me me' : TTFParser) : Prop :=
  tables me' = tables me
  /\ indexToLocFormat me' = indexToLocFormat me
  /\ ascender me' = ascender me.

Definition frameB (me me' : TTFParser) : Prop :=
  frameA me me' /\ postScriptName me' = postScriptName me.

Definition frameC (me me' : TTFParser) : Prop :=
  frameB me me'
  /\ typoAscender me' = typoAscender me
  /\ usWinAscent me' = usWinAscent me
  /\ os2Version me' = os2Version me
  /\ capHeight me' = capHeight me.

(** The PostScript name is not empty and holds no zero byte. *)
Definition nameOK (me : TTFParser) : Prop :=
  postScriptName me <> EmptyString
  /\ x00 ∉ list_byte_of_string (postScriptName me).

Definition present (tag : string) (me : TTFParser) : Prop :=
  is_Some (tables me !! tag).

(** What holds, besides [parsed], of the receiver [me] that the table
    parsers leave when they all succeed from [me1] on a file of the given
    content. *)
Definition parsedTables (content : list byte) (me1 me : TTFParser) : Prop :=
  tables me = tables me1
  /\ Forall (fun tag => present tag me) checkedTags
  /\ cahceFontData me = content
  /\ nameOK me
  /\ 0 <= usWinAscent me < 65536
  /\ IsShortIndex me = (indexToLocFormat me =? 0)
  /\ (os2Version me < 2 -> capHeight me = ascender me)
  /\ -32768 <= ascender me < 32768.

(** The accessors [FontData] and [CapHeight]. *)
Definition FontData (me : TTFParser) : list byte := cahceFontData me.
Definition CapHeight (me : TTFParser) : Z := capHeight me.

(** The parsers that check the result of [Seek], with their tags. *)
Definition checkedParsers : list (string * M unit) :=
  [ ("head"%string, ParseHead); ("hhea"%string, ParseHhea);
    ("maxp"%string, ParseMaxp); ("name"%string, ParseName);
    ("OS/2"%string, ParseOS2); ("post"%string, ParsePost);
    ("loca"%string, ParseLoca) ].

(** The nameID of the [k]-th record of a name table at offset [o]. *)
Definition nameIDAt (data : list byte) (o : Z) (k : Z) : Z :=
  u16At data (o + 6 + 12 * k + 6).

(** A name table whose two records are not PostScript names, and one whose
    PostScript name is made of zero digits. *)
Definition nameNoPS : list byte :=
  Sample.u16 0 ++ Sample.u16 2 ++ Sample.u16 30 ++
  Sample.zeros 6 ++ Sample.u16 1 ++ Sample.u16 2 ++ Sample.u16 0 ++
  Sample.zeros 6 ++ Sample.u16 4 ++ Sample.u16 2 ++ Sample.u16 2 ++
  list_byte_of_string "AbCd".
Definition nameZeros : list byte := Sample.name 6 (list_byte_of_string "000").

(** ** The encoding records of cmap *)

(** The [k]-th encoding record of a cmap table at offset [o]. *)
Definition platformAt (data : list byte) (o k : Z) : Z := u16At data (o + 4 + 8 * k).
Definition encodingAt (data : list byte) (o k : Z) : Z := u16At data (o + 4 + 8 * k + 2).
Definition subtableAt (data : list byte) (o k : Z) : Z := u32At data (o + 4 + 8 * k + 4).

(** The value of [offset31] after the [n] records from [pos] on, starting
    from [acc]. *)
Fixpoint cmapOffset31 (n : nat) (data : list byte) (pos acc : Z) : Z :=
  match n with
  | O => acc
  | S n' =>
      cmapOffset31 n' data (pos + 8)
        (if (u16At data pos =? 3) && (u16At data (pos + 2) =? 1)
         then u32At data (pos + 4) else acc)
  end.

(** A cmap table whose only record is of the Macintosh platform, and one
    whose Unicode subtable has the format 12. *)
Definition cmapMac : list byte := Sample.cmap 1 0 [(65, 70, 0, 0)] [].
Definition cmapFormat12 : list byte :=
  Sample.u16 0 ++ Sample.u16 1 ++ Sample.u16 3 ++ Sample.u16 1 ++ Sample.u32 12
    ++ Sample.u16 12 ++ Sample.zeros 14.

(** The glyph index of a codepoint in a segment with a range offset, from
    the value [g] read in the glyph-index array and the delta [d]. *)
Definition indirectGlyph (g d : Z) : Z :=
  if g =? 0 then 0 else (g + d) mod 65536.

(** A segment A..C with range offset 4 whose glyph-index array [7; 0; 9]
    sits at the position 4 of the file. *)
Definition fdGlyphIds : File :=
  mkFile (Sample.zeros 4 ++ Sample.u16 7 ++ Sample.u16 0 ++ Sample.u16 9) 0.

(** ** The font descriptor object (package gopdf)

    [FontDescriptorObj] writes the text of the descriptor dictionary into
    its buffer.  The interface [IFont] and the type of the items that
    [GetDesc] returns are declared outside the sources at hand; a font is
    taken as what its two methods return.  A [bytes.Buffer] is the string
    written so far. *)

Module FontDescriptor.

Record FontDescItem : Type := mkItem { Key : string; Val : string }.

Record IFont : Type := mkFont { GetName : string; GetDesc : list FontDescItem }.

Record FontDescriptorObj : Type := mkObj {
  buffer : string;
  font : option IFont;               (* [None] is the nil interface *)
  fontFileObjRelate : string
}.

Definition GetType (f : FontDescriptorObj) : string := "FontDescriptor".
Definition GetObjBuff (f : FontDescriptorObj) : string := buffer f.
Definition GetFont (f : FontDescriptorObj) : option IFont := font f.
Definition SetFont (ft : IFont) (f : FontDescriptorObj) : FontDescriptorObj :=
  mkObj (buffer f) (Some ft) (fontFileObjRelate f).
Definition SetFontFileObjRelate (relate : string) (f : FontDescriptorObj)
    : FontDescriptorObj :=
  mkObj (buffer f) (font f) relate.

Definition WriteString (s : string) (buf : string) : string := buf +:+ s.

(** The text written for one item. *)
Definition itemText (d : FontDescItem) : string :=
  ((("/" +:+ Key d) +:+ " ") +:+ Val d) +:+ " ".

(** The loop of [Build] over the items, [i] running for [n] more turns;
    the result comes with the buffer as the loop leaves it. *)
Fixpoint Build_loop (n : nat) (i : Z) (descs : list FontDescItem)
    (buf : string) : Res unit * string :=
  match n with
  | O => (Ok tt, buf)
  | S n' =>
      if (0 <=? i) && (i <? Z.of_nat (length descs)) then
        match descs !! Z.to_nat i with
        | Some d => Build_loop n' (i + 1) descs (WriteString (itemText d) buf)
        | None => (Panic, buf)
        end
      else (Panic, buf)
  end.

Definition newline : string := String "010"%char EmptyString.

(** [Build].  A method call on the nil interface panics. *)
Definition Build (f : FontDescriptorObj) : Res unit * FontDescriptorObj :=
  match font f with
  | None => (Panic, f)
  | Some ft =>
      let buf :=
        WriteString
          (("<</Type /FontDescriptor /FontName /" +:+ GetName ft) +:+ " ")
          (buffer f) in
      let descs := GetDesc ft in
      let max := length descs in
      match Build_loop max 0 descs buf with
      | (Ok _, buf) =>
          let buf :=
            if String.eqb (GetType f) "Type1"
            then WriteString "/FontFile " buf
            else WriteString "/FontFile2 " buf in
          let buf := WriteString (fontFileObjRelate f) buf in
          let buf := WriteString (">>" +:+ newline) buf in
          (Ok tt, mkObj buf (font f) (fontFileObjRelate f))
      | (Err e, buf) => (Err e, mkObj buf (font f) (fontFileObjRelate f))
      | (Panic, buf) => (Panic, mkObj buf (font f) (fontFileObjRelate f))
      end
  end.

(** The text of the items, in their order. *)
Fixpoint itemsText (descs : list FontDescItem) : string :=
  match descs with
  | [] => EmptyString
  | d :: rest => itemText d +:+ itemsText rest
  end.

Definition sampleFont : IFont :=
  mkFont "Sample" [mkItem "Ascent" "850"; mkItem "Flags" "32"].
Definition sampleObj : FontDescriptorObj :=
  mkObj "%PDF" (Some sampleFont) "7 0 R".

End FontDescriptor.

(** ** The PostScript name record *)

(** The name that [ParseName] stores for the raw payload [stmp]. *)
Definition cleanedName (stmp : list byte) : list byte :=
  List.filter (fun v => negb (Byte.eqb v strconv_Itoa_0))
    (List.filter (fun v => negb (byteZ v =? 0)) stmp).

(** Length and offset of the string of the [k]-th name record, and the
    stringOffset field of the table. *)
Definition nameLengthAt (data : list byte) (o k : Z) : Z :=
  u16At data (o + 6 + 12 * k + 8).
Definition nameOffsetAt (data : list byte) (o k : Z) : Z :=
  u16At data (o + 6 + 12 * k + 10).
Definition stringOffsetAt (data : list byte) (o : Z) : Z := u16At data (o + 4).

(** A name table with a family name, then the PostScript name "Ab-1" in
    UTF-16BE, then a second PostScript name. *)
Definition nameTwoPS : list byte :=
  Sample.u16 0 ++ Sample.u16 3 ++ Sample.u16 42 ++
  Sample.zeros 6 ++ Sample.u16 1 ++ Sample.u16 2 ++ Sample.u16 0 ++
  Sample.zeros 6 ++ Sample.u16 6 ++ Sample.u16 8 ++ Sample.u16 2 ++
  Sample.zeros 6 ++ Sample.u16 6 ++ Sample.u16 2 ++ Sample.u16 10 ++
  list_byte_of_string "Fm" ++
  [x00; "A"; x00; "b"; x00; "-"; x00; "1"]%byte ++
  list_byte_of_string "Zz".

(** ** The format-4 subtable of cmap

    [sub] is the position of the subtable in the file. *)

(** [n] consecutive 16-bit fields from [pos]. *)
Definition u16Array (data : list byte) (pos n : Z) : list Z :=
  map (fun k => u16At data (pos + 2 * Z.of_nat k)) (seq 0 (Z.to_nat n)).

Definition cmapSegCount (data : list byte) (sub : Z) : Z :=
  u16At data (sub + 6) / 2.
Definition cmapGlyphCount (data : list byte) (sub : Z) : Z :=
  (u16At data (sub + 2) - (16 + 8 * cmapSegCount data sub)) / 2.
Definition cmapEndCount (data : list byte) (sub : Z) : list Z :=
  u16Array data (sub + 14) (cmapSegCount data sub).
Definition cmapStartCount (data : list byte) (sub : Z) : list Z :=
  u16Array data (sub + 16 + 2 * cmapSegCount data sub) (cmapSegCount data sub).
Definition cmapIdDelta (data : list byte) (sub : Z) : list Z :=
  u16Array data (sub + 16 + 4 * cmapSegCount data sub) (cmapSegCount data sub).
Definition cmapRangePos (data : list byte) (sub : Z) : Z :=
  sub + 16 + 6 * cmapSegCount data sub.
Definition cmapIdRangeOffset (data : list byte) (sub : Z) : list Z :=
  u16Array data (cmapRangePos data sub) (cmapSegCount data sub).
Definition cmapGlyphIdArray (data : list byte) (sub : Z) : list Z :=
  u16Array data (sub + 16 + 8 * cmapSegCount data sub) (cmapGlyphCount data sub).

(** The receiver when the segment loop of [ParseCmap] starts. *)
Definition cmapDecoded (data : list byte) (sub : Z) (me : TTFParser)
    : TTFParser :=
  Set_.chars ∅
    (Set_.GlyphIdArray (cmapGlyphIdArray data sub)
       (Set_.IdRangeOffset (cmapIdRangeOffset data sub)
          (Set_.IdDelta (cmapIdDelta data sub)
             (Set_.StartCount (cmapStartCount data sub)
                (Set_.EndCount (cmapEndCount data sub)
                   (Set_.SegCount (cmapSegCount data sub)
                      (Set_.symbol false me))))))).

(** A cmap table of two segments and a glyph-index array of two entries. *)
Definition cmapTwoSegs : list byte :=
  Sample.cmap 3 1 [(65, 70, 3, 0); (0xFFFF, 0xFFFF, 1, 0)] [7; 8].

(** ** [CompareBytes] on slices that may be nil

    A slice is [None] when it is nil.  [None] as a result is the index
    panic of [a[i]] or [b[i]]. *)

Fixpoint CompareBytes_loop (n i : nat) (a b : list byte) : option bool :=
  match n with
  | O => Some true
  | S n' =>
      match a !! i, b !! i with
      | Some x, Some y =>
          if negb (Byte.eqb x y) then Some false
          else CompareBytes_loop n' (S i) a b
      | _, _ => None
      end
  end.

Definition CompareBytes_slices (a b : option (list byte)) : option bool :=
  match a, b with
  | None, None => Some true
  | None, Some _ => Some false
  | Some _, None => Some false
  | Some a, Some b =>
      if negb (length a =? length b)%nat then Some false
      else CompareBytes_loop (length a) 0 a b
  end.

(** [fontA] with a second maxp record, of one glyph, in front of the
    directory, and the receiver that its parse leaves. *)
Definition fontTwoMaxp : list byte :=
  Sample.font (("maxp"%string, Sample.maxp 1) :: Sample.tablesA).
Definition parsedTwoMaxp : TTFParser :=
  Eval vm_compute in snd (Parse (Some fontTwoMaxp) zeroTTFParser).

(** ** [XHeight]: the float64 arithmetic

    Go's [float64] is the binary64 format of the primitive floats, with
    rounding to nearest even. *)

From Stdlib Require PrimFloat FloatOps SpecFloat Uint63.

Module Float64.
Import PrimFloat.

(** [float64(z)] for an [int64] [z]. *)
Definition of_int64 (z : Z) : float :=
  if z =? - Int.two63 then
    opp (mul (of_uint63 (Uint63.of_Z (2 ^ 62))) (of_uint63 (Uint63.of_Z 2)))
  else if z <? 0 then opp (of_uint63 (Uint63.of_Z (- z)))
  else of_uint63 (Uint63.of_Z z).

(** [int64(f)]: the truncation toward zero.  For a NaN, an infinity or a
    value outside [int64] the result depends on the implementation; it is
    [-2^63] on amd64.  [XHeight] does not get there: 0.66 times an [int64]
    is below 2^63 in magnitude. *)
Definition to_int64 (f : float) : Z :=
  match FloatOps.Prim2SF f with
  | SpecFloat.S754_zero _ => 0
  | SpecFloat.S754_finite s m e =>
      let mag := if e <? 0 then Z.pos m / 2 ^ (- e) else Z.pos m * 2 ^ e in
      if mag <? Int.two63 then (if s then - mag else mag) else - Int.two63
  | _ => - Int.two63
  end.

(** The constant [0.66], rounded to float64: 0x1.51eb851eb851fp-1. *)
#[local] Set Warnings "-inexact-float".
Definition c066 : float := 0.66%float.
#[local] Set Warnings "inexact-float".

End Float64.

Definition XHeight (me : TTFParser) : Z :=
  if (2 <=? os2Version me) && negb (sxHeight me =? 0) then sxHeight me
  else
    Float64.to_int64
      (PrimFloat.mul Float64.c066 (Float64.of_int64 (ascender me))).

(** Whether the float64 product agrees with the truncated quotient
    66 a / 100 for the [n] values from [a] on. *)
Fixpoint xHeightAgrees (n : nat) (a : Z) : bool :=
  match n with
  | O => true
  | S n' =>
      (Float64.to_int64 (PrimFloat.mul Float64.c066 (Float64.of_int64 a))
       =? Z.quot (66 * a) 100)
      && xHeightAgrees n' (a + 1)
  end.

(** * Properties *)

(** ** Integers and bytes *)

Lemma byteZ_range (x : byte) : 0 <= byteZ x < 256.
Proof.
  unfold byteZ. pose proof (Byte.to_N_bounded x). lia.
Qed.

Lemma be_to_Z_2 (x y : byte) : be_to_Z [x; y] = byteZ x * 256 + byteZ y.
Proof. reflexivity. Qed.

Lemma be_to_Z_4 (x y z t : byte) :
  be_to_Z [x; y; z; t]
  = ((byteZ x * 256 + byteZ y) * 256 + byteZ z) * 256 + byteZ t.
Proof. reflexivity. Qed.

Lemma be_to_Z_range (bs : list byte) (n : nat) :
  length bs = n -> 0 <= be_to_Z bs < 256 ^ Z.of_nat n.
Proof.
  unfold be_to_Z. intros <-.
  induction bs as [|x bs IH] using rev_ind.
  - simpl. lia.
  - rewrite fold_left_app, length_app. simpl.
    pose proof (byteZ_range x).
    replace (Z.of_nat (length bs + 1)) with (Z.of_nat (length bs) + 1) by lia.
    rewrite Z.pow_add_r by lia. lia.
Qed.

Lemma int64_of_uint64_small (z : Z) :
  0 <= z < Int.two63 -> Int.int64_of_uint64 z = z.
Proof.
  intros H. unfold Int.int64_of_uint64.
  destruct (Z.ltb_spec z Int.two63); lia.
Qed.

Lemma u64_small (z : Z) : 0 <= z < Int.two64 -> Int.u64 z = z.
Proof. intros H. unfold Int.u64. apply Z.mod_small. exact H. Qed.

(** ** Outcomes of the cursor operations *)

Lemma Read_Ok (len : Z) (s s' : State) (buff : list byte) :
  Read len s = (Ok buff, s') ->
  fst s' = fst s /\ Z.of_nat (length buff) = len.
Proof.
  unfold Read. destruct (len <? 0); [discriminate|].
  destruct (os_Read len (snd s)) as [[b e] f'].
  destruct e; [discriminate|].
  destruct (Z.eqb_spec (Z.of_nat (length b)) len); [|discriminate].
  intros [= <- <-]. auto.
Qed.

Lemma Read_me (len : Z) (s : State) : fst (snd (Read len s)) = fst s.
Proof.
  unfold Read. destruct (len <? 0); [reflexivity|].
  destruct (os_Read len (snd s)) as [[b e] f'].
  destruct e; [reflexivity|].
  destruct (Z.of_nat (length b) =? len); reflexivity.
Qed.

Lemma onFile_me {A} (op : File -> Res A * File) (s : State) :
  fst (snd (onFile op s)) = fst s.
Proof. unfold onFile. destruct (op (snd s)). reflexivity. Qed.

Lemma Skip_me (len : Z) (s : State) : fst (snd (Skip len s)) = fst s.
Proof.
  unfold Skip, bind. pose proof (onFile_me (os_Seek len 1) s) as H.
  destruct (onFile (os_Seek len 1) s) as [[a|e|] s1]; exact H.
Qed.

Lemma Seek_me (tag : string) (s : State) : fst (snd (Seek tag s)) = fst s.
Proof.
  unfold Seek, bind, getMe. destruct (tables (fst s) !! tag) as [t|].
  - pose proof (onFile_me (os_Seek (Int.int64_of_uint64 (Offset t)) 0) s) as H.
    destruct (onFile _ s) as [[a|e|] s1]; exact H.
  - reflexivity.
Qed.

Lemma bind_Ok {A B} (m : M A) (k : A -> M B) (s s' : State) (a : A) :
  m s = (Ok a, s') -> (x <- m ;; k x) s = k a s'.
Proof. intros E. unfold bind. rewrite E. reflexivity. Qed.

Lemma bind_Err {A B} (m : M A) (k : A -> M B) (s s' : State) (e : error) :
  m s = (Err e, s') -> (x <- m ;; k x) s = (Err e, s').
Proof. intros E. unfold bind. rewrite E. reflexivity. Qed.

(** ** Running the cursor on a known file *)

Lemma Read_at me (data : list byte) (pos n : Z) :
  0 <= pos -> 0 < n -> pos + n <= Z.of_nat (length data) ->
  Read n (me, mkFile data pos)
  = (Ok (bytesAt data pos n), (me, mkFile data (pos + n))).
Proof.
  intros Hp Hn Hl. unfold Read.
  destruct (Z.ltb_spec n 0); [lia|].
  unfold os_Read, bytesAt. simpl.
  destruct (Z.eqb_spec n 0); [lia|].
  remember (drop (Z.to_nat pos) data) as rest eqn:E.
  assert (length (take (Z.to_nat n) rest) = Z.to_nat n) as Hlen
    by (rewrite E, length_take, length_drop; lia).
  destruct rest as [|x rest].
  { rewrite take_nil in Hlen. simpl in Hlen. lia. }
  cbv zeta. rewrite Hlen.
  destruct (Z.eqb_spec (Z.of_nat (Z.to_nat n)) n); [|lia].
  repeat f_equal. lia.
Qed.

Lemma ReadUShort_at me (data : list byte) (pos : Z) :
  0 <= pos -> pos + 2 <= Z.of_nat (length data) ->
  ReadUShort (me, mkFile data pos)
  = (Ok (u16At data pos), (me, mkFile data (pos + 2))).
Proof.
  intros Hp Hl. unfold ReadUShort.
  erewrite bind_Ok by (apply Read_at; lia). reflexivity.
Qed.

Lemma ReadULong_at me (data : list byte) (pos : Z) :
  0 <= pos -> pos + 4 <= Z.of_nat (length data) ->
  ReadULong (me, mkFile data pos)
  = (Ok (u32At data pos), (me, mkFile data (pos + 4))).
Proof.
  intros Hp Hl. unfold ReadULong.
  erewrite bind_Ok by (apply Read_at; lia). reflexivity.
Qed.

Lemma Skip_at me (data : list byte) (pos n : Z) :
  0 <= pos + n ->
  Skip n (me, mkFile data pos) = (Ok tt, (me, mkFile data (pos + n))).
Proof.
  intros H. unfold Skip, bind, onFile, os_Seek. simpl.
  destruct (Z.ltb_spec (pos + n) 0); [lia|]. reflexivity.
Qed.

Lemma Seek_at me (fd : File) (tag : string) (e : TableDirectoryEntry) :
  tables me !! tag = Some e -> 0 <= Offset e < Int.two63 ->
  Seek tag (me, fd) = (Ok tt, (me, mkFile (fdata fd) (Offset e))).
Proof.
  intros Ht Ho. unfold Seek, bind, getMe, onFile, os_Seek. simpl.
  rewrite Ht. rewrite int64_of_uint64_small by exact Ho. simpl.
  destruct (Z.ltb_spec (Offset e) 0); [lia|]. reflexivity.
Qed.

Lemma Seek_missing me (fd : File) (tag : string) :
  tables me !! tag = None ->
  Seek tag (me, fd) = (Err (ErrTableNotFound tag), (me, fd)).
Proof.
  intros Ht. unfold Seek, bind, getMe. simpl. rewrite Ht. reflexivity.
Qed.

Lemma index_at (l : list Z) (i x : Z) (s : State) :
  0 <= i -> l !! Z.to_nat i = Some x -> index l i s = (Ok x, s).
Proof.
  intros Hi E. unfold index. rewrite E.
  pose proof (lookup_lt_Some _ _ _ E) as Hlt.
  destruct (Z.leb_spec 0 i); [|lia].
  destruct (Z.ltb_spec i (Z.of_nat (length l))); [|lia].
  reflexivity.
Qed.

(** ** Rules of the weakest precondition *)

Section WpRules.

Context {A B : Type}.
Implicit Types (Q : A -> TTFParser -> Prop) (me : TTFParser).

Lemma wp_ret (a : A) Q me : Q a me -> wp (ret a) Q me.
Proof. intros H fd a' s' [= <- <-]. exact H. Qed.

Lemma wp_fail (e : error) Q me : wp (fail e) Q me.
Proof. intros fd a s' [=]. Qed.

Lemma wp_panic Q me : wp panic Q me.
Proof. intros fd a s' [=]. Qed.

Lemma wp_bind (m : M A) (k : A -> M B) (R : B -> TTFParser -> Prop) me :
  wp m (fun a me' => wp (k a) R me') me -> wp (m' <- m ;; k m') R me.
Proof.
  intros H fd b s'. unfold bind.
  destruct (m (me, fd)) as [[a|e|] [me1 fd1]] eqn:E; try discriminate.
  intros Hk. exact (H fd a _ E fd1 b s' Hk).
Qed.

Lemma wp_mono (m : M A) Q (Q' : A -> TTFParser -> Prop) me :
  wp m Q me -> (forall a me', Q a me' -> Q' a me') -> wp m Q' me.
Proof. intros H HQ fd a s' E. apply HQ. exact (H fd a s' E). Qed.

Lemma wp_onFile (op : File -> Res A * File) Q me :
  (forall a, Q a me) -> wp (onFile op) Q me.
Proof.
  intros H fd a s'. unfold onFile. simpl.
  destruct (op fd) as [r f']. intros [= -> <-]. apply H.
Qed.

Lemma wp_assignFrom (set : A -> TTFParser -> TTFParser) (zero : A) (m : M A)
    (R : unit -> TTFParser -> Prop) me :
  wp m (fun v me' => R tt (set v me')) me -> wp (assignFrom set zero m) R me.
Proof.
  intros H fd u s'. unfold assignFrom.
  destruct (m (me, fd)) as [[a|e|] s1] eqn:E; try discriminate.
  intros [= <- <-]. exact (H fd a s1 E).
Qed.

(** A call whose error is dropped goes on from the state the call left;
    the rule asks that the call leaves the receiver alone. *)
Lemma wp_discard (m : M A) (R : unit -> TTFParser -> Prop) me :
  (forall s, fst (snd (m s)) = fst s) -> R tt me -> wp (discard m) R me.
Proof.
  intros Hm H fd u s'. unfold discard. specialize (Hm (me, fd)).
  destruct (m (me, fd)) as [[a|e|] s1]; try discriminate;
    intros [= <- <-]; simpl in Hm; rewrite Hm; exact H.
Qed.

End WpRules.

Lemma wp_getMe (Q : TTFParser -> TTFParser -> Prop) me :
  Q me me -> wp getMe Q me.
Proof. intros H fd a s' [= <- <-]. exact H. Qed.

Lemma wp_assign (f : TTFParser -> TTFParser) (Q : unit -> TTFParser -> Prop) me :
  Q tt (f me) -> wp (assign f) Q me.
Proof. intros H fd a s' [= <- <-]. exact H. Qed.

Lemma wp_Read (len : Z) (Q : list byte -> TTFParser -> Prop) me :
  (forall buff, Z.of_nat (length buff) = len -> Q buff me) -> wp (Read len) Q me.
Proof.
  intros H fd buff s' E. apply Read_Ok in E as [-> E]. apply H, E.
Qed.

Lemma wp_Skip (len : Z) (Q : unit -> TTFParser -> Prop) me :
  Q tt me -> wp (Skip len) Q me.
Proof.
  intros H. unfold Skip. apply wp_bind, wp_onFile. intros _.
  apply wp_ret, H.
Qed.

Lemma wp_Seek (tag : string) (Q : unit -> TTFParser -> Prop) me :
  Q tt me -> wp (Seek tag) Q me.
Proof.
  intros H. unfold Seek. apply wp_bind, wp_getMe.
  destruct (tables me !! tag).
  - apply wp_bind, wp_onFile. intros _. apply wp_ret, H.
  - apply wp_fail.
Qed.

Lemma wp_FTell (Q : Z -> TTFParser -> Prop) me :
  (forall offset, Q offset me) -> wp FTell Q me.
Proof.
  intros H. unfold FTell. apply wp_bind, wp_onFile. intros o.
  apply wp_ret, H.
Qed.

Lemma wp_ReadUShort (Q : Z -> TTFParser -> Prop) me :
  (forall v, 0 <= v < 65536 -> Q v me) -> wp ReadUShort Q me.
Proof.
  intros H. unfold ReadUShort. apply wp_bind, wp_Read. intros buff Hl.
  apply wp_ret, H.
  apply (be_to_Z_range buff 2). lia.
Qed.

Lemma wp_ReadShort (Q : Z -> TTFParser -> Prop) me :
  (forall v, -32768 <= v < 32768 -> Q v me) -> wp ReadShort Q me.
Proof.
  intros H. unfold ReadShort. apply wp_bind, wp_Read. intros buff Hl.
  apply wp_ret, H.
  assert (0 <= be_to_Z buff < 65536) as Hb
    by (apply (be_to_Z_range buff 2); lia).
  rewrite int64_of_uint64_small by (unfold Int.two63; lia).
  destruct (Z.leb_spec 0x8000 (be_to_Z buff)); lia.
Qed.

Lemma wp_ReadULong (Q : Z -> TTFParser -> Prop) me :
  (forall v, 0 <= v < 4294967296 -> Q v me) -> wp ReadULong Q me.
Proof.
  intros H. unfold ReadULong. apply wp_bind, wp_Read. intros buff Hl.
  apply wp_ret, H.
  apply (be_to_Z_range buff 4). lia.
Qed.

Lemma wp_index (l : list Z) (i : Z) (Q : Z -> TTFParser -> Prop) me :
  (forall x, x ∈ l -> Q x me) -> wp (index l i) Q me.
Proof.
  intros H. unfold index.
  destruct ((0 <=? i) && (i <? Z.of_nat (length l))); [|apply wp_panic].
  destruct (l !! Z.to_nat i) as [x|] eqn:E; [|apply wp_panic].
  apply wp_ret, H. eapply list_elem_of_lookup_2, E.
Qed.

Lemma wp_index_lookup (l : list Z) (i : Z) (Q : Z -> TTFParser -> Prop) me :
  (forall x, 0 <= i < Z.of_nat (length l) -> l !! Z.to_nat i = Some x -> Q x me) ->
  wp (index l i) Q me.
Proof.
  intros H. unfold index.
  destruct (Z.leb_spec 0 i); [|apply wp_panic].
  destruct (Z.ltb_spec i (Z.of_nat (length l))); [|apply wp_panic].
  cbn [andb].
  destruct (l !! Z.to_nat i) as [x|] eqn:E; [|apply wp_panic].
  apply wp_ret, H; [lia | reflexivity].
Qed.

(** The loop rule: an invariant [Inv] on the loop variable, the local
    variables and the receiver; a [break] must establish the
    postcondition itself. *)
Lemma wp_for {L} (Inv : Z -> L -> TTFParser -> Prop)
    (body : Z -> L -> M (LoopCtl L)) (Q : L -> TTFParser -> Prop)
    (n : nat) (i0 : Z) (acc0 : L) me :
  Inv i0 acc0 me ->
  (forall i a me', i0 <= i < i0 + Z.of_nat n -> Inv i a me' ->
     wp (body i a)
        (fun r me'' =>
           match r with
           | Continue a' => Inv (i + 1) a' me''
           | Break a' => Q a' me''
           end) me') ->
  (forall a me', Inv (i0 + Z.of_nat n) a me' -> Q a me') ->
  wp (for_ n i0 acc0 body) Q me.
Proof.
  revert i0 acc0 me. induction n as [|n IH]; intros i0 acc0 me H0 Hb Hq.
  - simpl. apply wp_ret, Hq. replace (i0 + Z.of_nat 0) with i0 by lia. exact H0.
  - simpl. apply wp_bind.
    eapply wp_mono; [apply (Hb i0 acc0 me); [lia | exact H0]|].
    intros [a'|a'] me' Hr.
    + apply IH; [exact Hr | |].
      * intros i a me2 Hi. apply Hb. lia.
      * intros a me2. replace (i0 + 1 + Z.of_nat n) with (i0 + Z.of_nat (S n)) by lia.
        apply Hq.
    + apply wp_ret, Hr.
Qed.

Lemma wp_readUShorts (n : Z) (Q : list Z -> TTFParser -> Prop) me :
  (forall l, Forall (fun v => 0 <= v < 65536) l -> Q l me) ->
  wp (readUShorts n) Q me.
Proof.
  intros H. unfold readUShorts.
  apply (wp_for (fun _ l me' => Forall (fun v => 0 <= v < 65536) l /\ me' = me)).
  - split; [constructor | reflexivity].
  - intros i a me' _ [Ha ->]. apply wp_bind, wp_ReadUShort. intros v Hv.
    apply wp_ret. split; [|reflexivity].
    apply Forall_app. split; [exact Ha | repeat constructor; lia].
  - intros a me' [Ha ->]. apply H, Ha.
Qed.

(** A loop that maintains a property [I] of the receiver. *)
Lemma wp_for_keep {L} (I : TTFParser -> Prop)
    (body : Z -> L -> M (LoopCtl L)) (Q : L -> TTFParser -> Prop)
    (n : nat) (i0 : Z) (acc0 : L) me :
  I me ->
  (forall i a me', i0 <= i < i0 + Z.of_nat n -> I me' ->
     wp (body i a) (fun _ me'' => I me'') me') ->
  (forall a me', I me' -> Q a me') ->
  wp (for_ n i0 acc0 body) Q me.
Proof.
  intros H0 Hb Hq.
  apply (wp_for (fun _ _ me' => I me')); [exact H0 | | exact Hq].
  intros i a me' Hi Hme. eapply wp_mono; [apply (Hb i a me' Hi Hme)|].
  intros [a'|a'] me'' H; [exact H | apply Hq, H].
Qed.

(** One step of symbolic execution of a parser under [wp]. *)
Ltac wp_step :=
  lazymatch goal with
  | |- wp (bind _ _) _ _ => apply wp_bind
  | |- wp (ret _) _ _ => apply wp_ret
  | |- wp (fail _) _ _ => apply wp_fail
  | |- wp panic _ _ => apply wp_panic
  | |- wp getMe _ _ => apply wp_getMe
  | |- wp (assign _) _ _ => apply wp_assign
  | |- wp (assignFrom _ _ _) _ _ => apply wp_assignFrom
  | |- wp (onFile _) _ _ => apply wp_onFile; intros ?
  | |- wp (discard (Seek _)) _ _ => apply wp_discard; [apply Seek_me|]
  | |- wp (discard (Skip _)) _ _ => apply wp_discard; [apply Skip_me|]
  | |- wp (Read _) _ _ => apply wp_Read; intros ? ?
  | |- wp (Skip _) _ _ => apply wp_Skip
  | |- wp (Seek _) _ _ => apply wp_Seek
  | |- wp FTell _ _ => apply wp_FTell; intros ?
  | |- wp ReadUShort _ _ => apply wp_ReadUShort; intros ? ?
  | |- wp ReadShort _ _ => apply wp_ReadShort; intros ? ?
  | |- wp ReadULong _ _ => apply wp_ReadULong; intros ? ?
  | |- wp (readUShorts _) _ _ => apply wp_readUShorts; intros ? ?
  | |- wp (index _ _) _ _ => apply wp_index; intros ? ?
  | |- wp (if ?b then _ else _) _ _ => destruct b eqn:?
  end; cbv beta zeta.

Ltac wp_steps := repeat wp_step.

(** ** What each parser leaves alone *)

Ltac frame_solve :=
  unfold cmapFrame, hmtxFrame, os2Frame in *; simpl in *; intuition congruence.

Lemma ParseName_frame me : wp ParseName (fun _ me' => cmapFrame me me') me.
Proof.
  unfold ParseName. wp_steps.
  apply (wp_for_keep (fun me' => cmapFrame me me')).
  - frame_solve.
  - intros ? ? ? _ ?. unfold cleanName, PregReplace. wp_steps; frame_solve.
  - intros ? ? ?. wp_steps; frame_solve.
Qed.

Lemma ParsePost_frame me :
  wp ParsePost (fun _ me' => cmapFrame me me' /\ os2Frame me me') me.
Proof. unfold ParsePost. wp_steps; frame_solve. Qed.

Lemma ParseLoca_frame me :
  wp ParseLoca (fun _ me' => cmapFrame me me' /\ os2Frame me me') me.
Proof.
  unfold ParseLoca. wp_steps.
  all: apply (wp_for_keep (fun me' => cmapFrame me me' /\ os2Frame me me'));
    [frame_solve | intros ? ? ? _ ?; wp_steps; frame_solve
    | intros ? ? ?; wp_steps; frame_solve].
Qed.

Lemma ParseHead_widths me :
  wp ParseHead (fun _ me' => widths me' = widths me) me.
Proof. unfold ParseHead. wp_steps; reflexivity. Qed.

Lemma ParseHhea_done me :
  wp ParseHhea
     (fun _ me' => widths me' = widths me /\ 0 <= numberOfHMetrics me' < 65536)
     me.
Proof. unfold ParseHhea. wp_steps. simpl. split; [reflexivity | lia]. Qed.

Lemma ParseMaxp_done me :
  wp ParseMaxp
     (fun _ me' =>
        widths me' = widths me
        /\ numberOfHMetrics me' = numberOfHMetrics me
        /\ 0 <= numGlyphs me' < 65536) me.
Proof. unfold ParseMaxp. wp_steps. simpl. repeat split; lia. Qed.

Lemma ParseOS2_done me :
  wp ParseOS2 (fun _ me' => cmapFrame me me' /\ winDescentRange me') me.
Proof.
  unfold ParseOS2, winDescentRange. wp_steps; (split; [frame_solve | simpl; lia]).
Qed.

(** ** The character map and the symbolic flag after [ParseCmap] *)

Lemma int_of_uint64_not_sentinel (c : Z) :
  0 <= c < Int.two63 -> c <> 0xFFFF -> Int.int_of_uint64 c <> 0xFFFF.
Proof.
  intros H Hc. unfold Int.int_of_uint64.
  rewrite int64_of_uint64_small by exact H. exact Hc.
Qed.

Lemma cmapCodepoint_keep me0 (d ro c : Z) me :
  0 <= c < Int.two63 ->
  cmapDone me0 me ->
  wp (cmapCodepoint d ro c) (fun _ me' => cmapDone me0 me') me.
Proof.
  intros Hc H. unfold cmapCodepoint.
  destruct (Z.eqb_spec c 0xFFFF) as [|Hne]; [wp_steps; exact H|].
  assert (forall gid,
    wp ((if 0 <? gid
         then assign (fun me1 =>
                Set_.chars (<[Int.int_of_uint64 c := gid]> (chars me1)) me1)
         else ret tt) ;; ret (Continue tt))
       (fun _ me' => cmapDone me0 me') me) as Hstore.
  { intros gid. wp_steps; [|exact H].
    destruct H as (Hf & Hs & Hm). split; [frame_solve|]. split; [exact Hs|].
    unfold charsOK. simpl. apply map_Forall_insert_2; [|exact Hm].
    split; [lia | apply int_of_uint64_not_sentinel; assumption]. }
  apply wp_bind. destruct (0 <? ro).
  - apply wp_bind, wp_ReadUShort. intros v _. apply wp_ret. apply Hstore.
  - apply wp_ret. apply Hstore.
Qed.

Lemma cmapSegment_keep me0 (startCount endCount idDelta idRangeOffset : list Z)
    (offset i : Z) me :
  Forall (fun v => 0 <= v < 65536) startCount ->
  Forall (fun v => 0 <= v < 65536) endCount ->
  cmapDone me0 me ->
  wp (cmapSegment startCount endCount idDelta idRangeOffset offset i)
     (fun _ me' => cmapDone me0 me') me.
Proof.
  intros Hst Hen H. unfold cmapSegment.
  rewrite Forall_forall in Hst, Hen.
  apply wp_bind, wp_index. intros c1 Hc1. apply Hst in Hc1.
  apply wp_bind, wp_index. intros c2 Hc2. apply Hen in Hc2.
  apply wp_bind, wp_index. intros d _.
  apply wp_bind, wp_index. intros ro _.
  apply wp_bind.
  assert (wp (for_ (Z.to_nat (c2 + 1 - c1)) c1 () (fun c _ => cmapCodepoint d ro c);;
              ret (Continue ())) (fun _ me' => cmapDone me0 me') me) as Hloop.
  { apply wp_bind.
    apply (wp_for_keep (fun me' => cmapDone me0 me')); [exact H | |].
    - intros c a me' Hr Hme. apply cmapCodepoint_keep; [|exact Hme].
      unfold Int.two63. lia.
    - intros a me' Hme. apply wp_ret, Hme. }
  destruct (0 <? ro).
  - apply wp_bind, wp_onFile. intros _. apply wp_ret. exact Hloop.
  - apply wp_ret. exact Hloop.
Qed.

Lemma ParseCmap_done me : wp ParseCmap (fun _ me' => cmapDone me me') me.
Proof.
  unfold ParseCmap. wp_steps.
  apply (wp_for (fun _ offset31 me' =>
           hmtxFrame me me' /\ (offset31 <> 0 -> symbol me' = false))).
  - split; [frame_solve | intros []; reflexivity].
  - intros i offset31 me' _ [Hf Hs]. wp_steps.
    + exfalso. lia.
    + split; [frame_solve | reflexivity].
    + split; [frame_solve | reflexivity].
  - intros offset31 me' [Hf Hs].
    destruct (Z.eqb_spec offset31 0) as [|Hne]; [apply wp_fail|].
    specialize (Hs Hne). wp_steps.
    apply (wp_for_keep (fun me' => cmapDone me me')).
    + split; [frame_solve|]. split; [exact Hs|].
      unfold charsOK. simpl. apply map_Forall_empty.
    + intros ? ? ? _ ?. apply cmapSegment_keep; assumption.
    + intros ? ? ?. wp_steps. assumption.
Qed.

(** ** The width sequence after [ParseHmtx] *)

Lemma ArrayPadUint_loop_length (n : nat) (i : Z) (arr : list Z) (val : Z)
    (result : list Z) :
  length (ArrayPadUint_loop n i arr val result) = (length result + n)%nat.
Proof.
  revert i result. induction n as [|n IH]; intros i result; simpl.
  - lia.
  - rewrite IH, length_app. simpl. lia.
Qed.

Lemma ArrayPadUint_loop_prefix (n : nat) : forall (i : Z) (arr : list Z)
    (val : Z) (result : list Z) (j : nat),
  (j < length result)%nat ->
  ArrayPadUint_loop n i arr val result !! j = result !! j.
Proof.
  induction n as [|n IH]; intros i arr val result j Hj; simpl.
  - reflexivity.
  - rewrite IH by (rewrite length_app; simpl; lia).
    apply lookup_app_l. exact Hj.
Qed.

Lemma ArrayPadUint_loop_lookup (n : nat) : forall (i : Z) (arr : list Z)
    (val : Z) (result : list Z) (k : nat),
  0 <= i -> i + Z.of_nat n < Int.two63 -> (k < n)%nat ->
  ArrayPadUint_loop n i arr val result !! (length result + k)%nat
  = Some (if i + Z.of_nat k <? Z.of_nat (length arr)
          then nth (Z.to_nat (i + Z.of_nat k)) arr 0 else val).
Proof.
  induction n as [|n IH]; intros i arr val result k Hi Hn Hk; [lia|].
  simpl.
  assert (Int.add i 1 = i + 1) as Ea
    by (apply u64_small; unfold Int.two63, Int.two64 in *; lia).
  assert (Int.int_of_uint64 i = i) as Ei
    by (apply int64_of_uint64_small; lia).
  rewrite Ea, Ei.
  set (x := if i <? Z.of_nat (length arr) then nth (Z.to_nat i) arr 0 else val).
  destruct k as [|k].
  - rewrite ArrayPadUint_loop_prefix by (rewrite length_app; simpl; lia).
    rewrite Nat.add_0_r, Z.add_0_r. apply list_lookup_middle. reflexivity.
  - replace (length result + S k)%nat with (length (result ++ [x]) + k)%nat
      by (rewrite length_app; simpl; lia).
    rewrite IH by lia.
    replace (i + 1 + Z.of_nat k) with (i + Z.of_nat (S k)) by lia.
    reflexivity.
Qed.

Lemma ArrayPadUint_padded (ws : list Z) (n g : Z) (last : Z) :
  0 <= n < g -> g < 65536 ->
  Z.of_nat (length ws) = n ->
  ws !! Z.to_nat (n - 1) = Some last ->
  forall i, n <= i < g ->
    ArrayPadUint_loop (Z.to_nat g) 0 ws last [] !! Z.to_nat i
    = ArrayPadUint_loop (Z.to_nat g) 0 ws last [] !! Z.to_nat (n - 1).
Proof.
  intros Hn Hg Hlen Hlast i Hi.
  pose proof (lookup_lt_Some _ _ _ Hlast) as Hlt.
  rewrite (ArrayPadUint_loop_lookup _ 0 ws last [] (Z.to_nat i))
    by (unfold Int.two63; lia).
  rewrite (ArrayPadUint_loop_lookup _ 0 ws last [] (Z.to_nat (n - 1)))
    by (unfold Int.two63; lia).
  rewrite !Z.add_0_l, !Nat2Z.id.
  destruct (Z.ltb_spec (Z.of_nat (Z.to_nat i)) (Z.of_nat (length ws))); [lia|].
  destruct (Z.ltb_spec (Z.of_nat (Z.to_nat (n - 1))) (Z.of_nat (length ws))); [|lia].
  rewrite (nth_lookup_Some _ _ _ _ Hlast). reflexivity.
Qed.

Lemma ParseHmtx_done me : wp ParseHmtx (fun _ me' => hmtxDone me me') me.
Proof.
  unfold ParseHmtx. wp_steps.
  apply (wp_for (fun i (_ : unit) me' =>
           numberOfHMetrics me' = numberOfHMetrics me
           /\ numGlyphs me' = numGlyphs me
           /\ (widths me = [] -> Z.of_nat (length (widths me')) = i))).
  - repeat split. intros ->. reflexivity.
  - intros i a me' _ (Hn & Hg & Hw). wp_steps. simpl.
    repeat split; try assumption.
    intros E. rewrite length_app. simpl. specialize (Hw E). lia.
  - intros a me' (Hn & Hg & Hw). apply wp_bind, wp_getMe.
    destruct (Z.ltb_spec (numberOfHMetrics me') (numGlyphs me')) as [Hlt|Hge].
    + apply wp_bind, wp_index_lookup. intros last Hb Hlast.
      unfold ArrayPadUint. wp_steps.
      split; [exact Hn|]. split; [exact Hg|]. split.
      * intros E. unfold widthsLen. simpl.
        rewrite ArrayPadUint_loop_length. simpl. lia.
      * intros E [Hrn Hrg]. specialize (Hw E).
        assert (Int.sub (numberOfHMetrics me') 1 = numberOfHMetrics me' - 1) as Es.
        { destruct (Z.eq_dec (numberOfHMetrics me') 0) as [E0|E0].
          - lia.
          - apply u64_small. unfold Int.two64. lia. }
        rewrite Es in Hlast.
        unfold widthsPadded. simpl. rewrite Hn, Hg. intros i Hi.
        apply (ArrayPadUint_padded (widths me') (numberOfHMetrics me)
                 (numGlyphs me) last); try lia.
        rewrite <- Hn. exact Hlast.
    + wp_steps. split; [exact Hn|]. split; [exact Hg|]. split.
      * intros E. specialize (Hw E). unfold widthsLen. lia.
      * intros _ _. unfold widthsPadded. intros i Hi. lia.
Qed.

(** ** The whole parse *)

Lemma wp_then {A B} (m : M A) (k : M B) (P : A -> TTFParser -> Prop)
    (Q : B -> TTFParser -> Prop) me :
  wp m P me -> (forall a me', P a me' -> wp k Q me') -> wp (m ;; k) Q me.
Proof.
  intros Hm Hk. apply wp_bind. eapply wp_mono; [exact Hm|]. exact Hk.
Qed.

Lemma widthsLen_frame me me' :
  hmtxFrame me me' -> widthsLen me -> widthsLen me'.
Proof.
  unfold hmtxFrame, widthsLen. intros (-> & -> & ->). auto.
Qed.

Lemma widthsPadded_frame me me' :
  hmtxFrame me me' -> widthsPadded me -> widthsPadded me'.
Proof.
  unfold hmtxFrame, widthsPadded. intros (-> & -> & ->). auto.
Qed.

Lemma metricsRange_frame me me' :
  hmtxFrame me me' -> metricsRange me -> metricsRange me'.
Proof.
  unfold hmtxFrame, metricsRange. intros (_ & -> & ->). auto.
Qed.

Lemma charsOK_frame me me' : chars me' = chars me -> charsOK me -> charsOK me'.
Proof. unfold charsOK. intros ->. auto. Qed.

Lemma ParseOpened_parsed (content : list byte) me0 :
  wp (ParseOpened content) (fun _ me => parsed me0 me) me0.
Proof.
  unfold ParseOpened. wp_steps.
  apply (wp_for_keep (fun me' => widths me' = widths me0)).
  { reflexivity. }
  { intros ? ? ? _ ?. wp_steps. simpl. assumption. }
  intros [] m1 E1.
  eapply wp_then; [apply ParseHead_widths|]. intros [] m2 E2.
  eapply wp_then; [apply ParseHhea_done|]. intros [] m3 (E3 & R3).
  eapply wp_then; [apply ParseMaxp_done|]. intros [] m4 (E4 & N4 & R4).
  eapply wp_then; [apply ParseHmtx_done|]. intros [] m5 (N5 & G5 & L5 & P5).
  eapply wp_then; [apply ParseCmap_done|]. intros [] m6 (F6 & S6 & C6).
  eapply wp_then; [apply ParseName_frame|]. intros [] m7 F7.
  eapply wp_then; [apply ParseOS2_done|]. intros [] m8 (F8 & W8).
  eapply wp_then; [apply ParsePost_frame|]. intros [] m9 (F9 & O9).
  eapply wp_then; [apply ParseLoca_frame|]. intros [] m10 (F10 & O10).
  unfold readFontData. wp_steps.
  assert (metricsRange m4) as R by (unfold metricsRange; lia).
  assert (metricsRange m5) as R5 by (unfold metricsRange in *; lia).
  assert (hmtxFrame m5 (Set_.cahceFontData content m10)) as Fh
    by frame_solve.
  assert (cmapFrame m6 m10) as (_ & Fc & Fs) by frame_solve.
  assert (os2Frame m8 m10) as (_ & Ow & _) by frame_solve.
  unfold parsed. split; [|split; [|split; [|split]]].
  - intros E0. assert (widths m4 = []) as E by congruence. split.
    + apply (widthsLen_frame m5); [exact Fh | apply L5, E].
    + apply (widthsPadded_frame m5); [exact Fh | apply P5; [exact E | exact R]].
  - apply (metricsRange_frame m5); assumption.
  - simpl. congruence.
  - unfold charsOK. simpl. apply (charsOK_frame m6); assumption.
  - unfold winDescentRange in *. simpl. lia.
Qed.

Lemma Parse_parsed (content : list byte) (me0 me : TTFParser) :
  Parse (Some content) me0 = (Ok tt, me) -> parsed me0 me.
Proof.
  unfold Parse. intros E.
  destruct (ParseOpened content (me0, mkFile content 0)) as [r s] eqn:Es.
  injection E as -> <-.
  exact (ParseOpened_parsed content me0 _ _ _ Es).
Qed.

Example Parse_fontA : Parse (Some Sample.fontA) zeroTTFParser = (Ok tt, parsedA).
Proof. vm_compute. reflexivity. Qed.

Example Parse_fontB : Parse (Some Sample.fontB) zeroTTFParser = (Ok tt, parsedB).
Proof. vm_compute. reflexivity. Qed.

Example parsedA_fields :
  widths parsedA = [500; 600; 600]
  /\ map_to_list (chars parsedA)
     = [(67, 67); (69, 69); (65, 65); (70, 70); (66, 66); (68, 68)]
  /\ LocaTable parsedA = [0; 20; 40; 60]
  /\ (xMin parsedA, yMin parsedA, xMax parsedA, yMax parsedA)
     = (-10, -200, 900, 800)
  /\ (descender parsedA, typoDescender parsedA, usWinDescent parsedA)
     = (-200, -250, 300).
Proof. vm_compute. repeat split. Qed.

(** ** C1: a table missing from the directory *)

(** The parsers that check the result of [Seek] report the missing tag. *)
Lemma ParseHead_missing me (fd : File) :
  tables me !! "head"%string = None ->
  ParseHead (me, fd) = (Err (ErrTableNotFound "head"), (me, fd)).
Proof.
  intros H. unfold ParseHead. erewrite bind_Err by (apply Seek_missing, H).
  reflexivity.
Qed.

Lemma ParseMaxp_missing me (fd : File) :
  tables me !! "maxp"%string = None ->
  ParseMaxp (me, fd) = (Err (ErrTableNotFound "maxp"), (me, fd)).
Proof.
  intros H. unfold ParseMaxp. erewrite bind_Err by (apply Seek_missing, H).
  reflexivity.
Qed.

(** [ParseHmtx] drops the result of [Seek]: without an hmtx table it reads
    the metrics at the cursor, wherever that is. *)
Lemma ParseHmtx_missing me (fd : File) :
  tables me !! "hmtx"%string = None ->
  ParseHmtx (me, fd)
  = (_ <- ret tt ;;
     me <- getMe ;;
     for_ (Z.to_nat (numberOfHMetrics me)) 0 tt (fun _ _ =>
       advanceWidth <- ReadUShort ;;
       Skip 2 ;;
       assign (fun me => Set_.widths (widths me ++ [advanceWidth]) me) ;;
       ret (Continue tt)) ;;
     me <- getMe ;;
     if numberOfHMetrics me <? numGlyphs me then
       lastWidth <- index (widths me) (Int.sub (numberOfHMetrics me) 1) ;;
       assignFrom Set_.widths [] (ArrayPadUint (widths me) (numGlyphs me) lastWidth)
     else ret tt) (me, fd).
Proof.
  intros H. unfold ParseHmtx, bind at 1, discard.
  rewrite (Seek_missing _ _ _ H). reflexivity.
Qed.

(** C1 fails on the code: a font without hmtx table parses without error,
    the bytes after the glyph count of maxp (here the start of cmap) being
    taken for metrics; a font without cmap table does not fail with the
    missing-table error either, the bytes at the cursor being taken for a
    cmap header. *)
Theorem Parse_missing_table_not_reported :
  Parse (Some Sample.fontNoHmtx) zeroTTFParser = (Ok tt, parsedNoHmtx)
  /\ tables parsedNoHmtx !! "hmtx"%string = None
  /\ widths parsedNoHmtx = [0; 3; 3]
  /\ fst (Parse (Some Sample.fontNoCmap) zeroTTFParser)
     = Err ERROR_NO_UNICODE_ENCODING_FOUND.
Proof. vm_compute. repeat split. Qed.

(** ** C2: padding without any collected width *)

(** C2 fails on the code: with numberOfHMetrics = 0 and one glyph the index
    [numberOfHMetrics - 1] wraps to 2^64 - 1, and the unguarded indexing
    of the empty width sequence panics; no error is returned. *)
Theorem Parse_no_metrics_panics :
  fst (Parse (Some Sample.fontNoMetrics) zeroTTFParser) = Panic
  /\ fst (ParseHmtx
            (Set_.numGlyphs 1 zeroTTFParser, mkFile [] 0)) = Panic.
Proof. vm_compute. repeat split. Qed.

(** The same for every parser without widths and every file. *)
Lemma ParseHmtx_no_metrics_panics me (fd : File) :
  numberOfHMetrics me = 0 -> 0 < numGlyphs me -> widths me = [] ->
  fst (ParseHmtx (me, fd)) = Panic.
Proof.
  intros Hn Hg Hw. unfold ParseHmtx, bind at 1.
  assert (exists fd1, discard (Seek "hmtx") (me, fd) = (Ok tt, (me, fd1))) as [fd0 ->].
  { unfold discard. pose proof (Seek_me "hmtx" (me, fd)) as Hme.
    destruct (Seek "hmtx" (me, fd)) as [[a|e|] [me1 fd1]] eqn:E;
      simpl in Hme; subst me1.
    - exists fd1. reflexivity.
    - exists fd1. reflexivity.
    - exfalso. revert E. unfold Seek, bind, getMe, onFile, os_Seek. simpl.
      destruct (tables me !! "hmtx"%string); [|discriminate].
      destruct (Int.int64_of_uint64 (Offset t) <? 0); discriminate. }
  erewrite bind_Ok by reflexivity. cbn [fst]. rewrite Hn. cbn [Z.to_nat for_].
  erewrite bind_Ok by reflexivity.
  erewrite bind_Ok by reflexivity. cbn [fst]. rewrite Hn, Hw.
  destruct (Z.ltb_spec 0 (numGlyphs me)); [|lia].
  reflexivity.
Qed.

(** ** C3: cleaning of the PostScript name *)

(** C3 fails on the code: the digit 0 is removed from the name.  The
    PostScript name "A0" is stored as "A". *)
Theorem ParseName_drops_digit_zero :
  Parse (Some Sample.fontNameA0) zeroTTFParser = (Ok tt, parsedNameA0)
  /\ postScriptName parsedNameA0 = "A"%string
  /\ fst (cleanName (list_byte_of_string "A0") (zeroTTFParser, mkFile [] 0))
     = Ok (list_byte_of_string "A").
Proof. vm_compute. repeat split. Qed.

(** Every occurrence of the digit 0 goes. *)
Lemma strings_Replace_byte_removes (s : list byte) :
  strconv_Itoa_0 ∉ strings_Replace_byte s strconv_Itoa_0.
Proof.
  unfold strings_Replace_byte. rewrite list_elem_of_In, filter_In.
  intros [_ H]. vm_compute in H. discriminate H.
Qed.

(** With the bars of the pattern read as alternation, the empty
    alternative comes first and matches at every position: replacing the
    matches by the empty string returns the subject as it is. *)
Lemma doExecute_namePattern (s : list byte) (pos : nat) :
  Regexp.doExecute namePattern s pos = Some (pos, (pos + 0)%nat).
Proof. destruct s; reflexivity. Qed.

Lemma replaceAll_namePattern (src : list byte) (turns : nat) :
  forall (lastMatchEnd searchPos : nat) (buf : list byte),
    buf = take lastMatchEnd src -> (lastMatchEnd <= searchPos)%nat ->
    Regexp.replaceAll turns namePattern src [] lastMatchEnd searchPos buf = src.
Proof.
  induction turns as [|t IH]; intros l p buf -> Hle; cbn [Regexp.replaceAll].
  - apply take_drop.
  - destruct (Nat.leb_spec p (length src)); [|apply take_drop].
    rewrite doExecute_namePattern. apply IH.
    + rewrite Nat.add_0_r.
      assert (take l src ++ take (p - l) (drop l src) = take p src) as ->
        by (rewrite take_take_drop; f_equal; lia).
      destruct ((l <? p)%nat || (p =? 0)%nat); [apply app_nil_r | reflexivity].
    + rewrite Nat.add_0_r.
      destruct (Nat.ltb_spec p (p + Regexp.runeWidth (drop p src))); [lia|].
      destruct (Nat.ltb_spec p (p + 1)); lia.
Qed.

Lemma ReplaceAllString_namePattern (s : list byte) :
  Regexp.ReplaceAllString namePattern s [] = s.
Proof.
  unfold Regexp.ReplaceAllString. apply replaceAll_namePattern; [reflexivity | lia].
Qed.

(** Hence the cleaning removes the zero bytes and the digit 0, and nothing
    else. *)
Lemma cleanName_eq (stmp : list byte) (s : State) :
  cleanName stmp s
  = (Ok (List.filter (fun v => negb (Byte.eqb v strconv_Itoa_0))
           (List.filter (fun v => negb (byteZ v =? 0)) stmp)), s).
Proof.
  unfold cleanName, PregReplace, ret, strings_Replace_byte.
  rewrite ReplaceAllString_namePattern. reflexivity.
Qed.

(** For instance the characters of the class stay in the name of
    [fontA]. *)
Example PregReplace_namePattern :
  Regexp.ReplaceAllString namePattern (list_byte_of_string "A/B C") []
  = list_byte_of_string "A/B C"
  /\ postScriptName parsedA = "A/B C"%string.
Proof. vm_compute. split; reflexivity. Qed.

(** ** C4: the effective descender *)

(** C4, as stated, fails: [fontA] parses, its typoDescender is not 0
    (it is -250), and [Descender] returns -300, which is not
    abs(usWinDescent) = 300 and is negative. *)
Lemma Descender_abs_counterexample :
  ~ (forall (content : list byte) (me : TTFParser),
       Parse (Some content) zeroTTFParser = (Ok tt, me) ->
       typoDescender me <> 0 ->
       Descender me = Z.abs (usWinDescent me)).
Proof.
  intros H.
  assert (Descender parsedA = Z.abs (usWinDescent parsedA)) as E.
  { apply (H Sample.fontA parsedA).
    - vm_compute. reflexivity.
    - vm_compute. discriminate. }
  vm_compute in E. discriminate E.
Qed.

Example Descender_fontA :
  typoDescender parsedA = -250 /\ usWinDescent parsedA = 300
  /\ descender parsedA = -200 /\ Descender parsedA = -300.
Proof. vm_compute. repeat split. Qed.

(** C4, amended: after a successful parse, [Descender] returns the hhea
    descender when typoDescender is 0; otherwise it returns usWinDescent
    with the sign of the hhea descender: -usWinDescent when the hhea
    descender is negative, usWinDescent when it is not. *)
Theorem Descender_parsed (content : list byte) (me0 me : TTFParser) :
  Parse (Some content) me0 = (Ok tt, me) ->
  Descender me =
    if typoDescender me =? 0 then descender me
    else if descender me <? 0 then - usWinDescent me
    else usWinDescent me.
Proof.
  intros E. apply Parse_parsed in E as (_ & _ & _ & _ & Hw).
  unfold winDescentRange in Hw. unfold Descender.
  destruct (typoDescender me =? 0); [reflexivity|].
  rewrite int64_of_uint64_small by (unfold Int.two63; lia).
  destruct (descender me <? 0); [|reflexivity].
  unfold Int.s64, Int.two64, Int.two63.
  destruct (Z.eq_dec (usWinDescent me) 0) as [->|Hne]; [reflexivity|].
  replace (usWinDescent me * -1) with (- usWinDescent me) by lia.
  rewrite Z.mod_opp_l_nz; rewrite ?Z.mod_small by lia; try lia.
  destruct (Z.ltb_spec (2 ^ 64 - usWinDescent me) (2 ^ 63)); lia.
Qed.

Lemma Descender_parsed_witness :
  Parse (Some Sample.fontA) zeroTTFParser = (Ok tt, parsedA)
  /\ Descender parsedA =
       if typoDescender parsedA =? 0 then descender parsedA
       else if descender parsedA <? 0 then - usWinDescent parsedA
       else usWinDescent parsedA.
Proof.
  split.
  - vm_compute. reflexivity.
  - apply (Descender_parsed Sample.fontA zeroTTFParser parsedA).
    vm_compute. reflexivity.
Defined.

(** ** C5: length of the width sequence *)

(** C5, as stated, fails: [fontB] declares one glyph and two explicit
    metrics; it parses, and the width sequence has two elements. *)
Lemma widths_length_counterexample :
  ~ (forall (content : list byte) (me : TTFParser),
       Parse (Some content) zeroTTFParser = (Ok tt, me) ->
       Z.of_nat (length (widths me)) = numGlyphs me).
Proof.
  intros H. specialize (H Sample.fontB parsedB).
  assert (Parse (Some Sample.fontB) zeroTTFParser = (Ok tt, parsedB)) as E
    by (vm_compute; reflexivity).
  specialize (H E). clear E. vm_compute in H. discriminate H.
Qed.

(** C5, amended: after a successful parse by a parser that held no widths,
    the width sequence has max(numberOfHMetrics, glyph count) elements;
    hence exactly the glyph count when numberOfHMetrics does not exceed
    it. *)
Theorem widths_length_parsed (content : list byte) (me0 me : TTFParser) :
  Parse (Some content) me0 = (Ok tt, me) ->
  widths me0 = [] ->
  Z.of_nat (length (widths me)) = Z.max (numberOfHMetrics me) (numGlyphs me)
  /\ (numberOfHMetrics me <= numGlyphs me ->
      Z.of_nat (length (widths me)) = numGlyphs me).
Proof.
  intros E E0. apply Parse_parsed in E as (Hl & [Hn Hg] & _).
  destruct (Hl E0) as [Hlen _]. unfold widthsLen in Hlen.
  rewrite Hlen. lia.
Qed.

Lemma widths_length_parsed_witness :
  Parse (Some Sample.fontA) zeroTTFParser = (Ok tt, parsedA)
  /\ widths zeroTTFParser = []
  /\ Z.of_nat (length (widths parsedA))
     = Z.max (numberOfHMetrics parsedA) (numGlyphs parsedA)
  /\ (numberOfHMetrics parsedA <= numGlyphs parsedA ->
      Z.of_nat (length (widths parsedA)) = numGlyphs parsedA).
Proof.
  split; [vm_compute; reflexivity|]. split; [reflexivity|].
  apply (widths_length_parsed Sample.fontA zeroTTFParser parsedA).
  - vm_compute. reflexivity.
  - reflexivity.
Defined.

(** ** C6: the symbolic flag *)

(** C6: after a successful parse the symbolic flag is false, whatever it
    was before, so [Flag] returns the nonsymbolic value 0x20 and the
    symbolic bit 0x4 is not set. *)
Theorem Flag_parsed (content : list byte) (me0 me : TTFParser) :
  Parse (Some content) me0 = (Ok tt, me) ->
  symbol me = false /\ Flag me = 0x20 /\ Z.land (Flag me) 0x4 = 0.
Proof.
  intros E. apply Parse_parsed in E as (_ & _ & Hs & _).
  unfold Flag. rewrite Hs. repeat split.
Qed.

Lemma Flag_parsed_witness :
  Parse (Some Sample.fontA) (Set_.symbol true zeroTTFParser)
    = (Ok tt, parsedA)
  /\ symbol parsedA = false /\ Flag parsedA = 0x20
  /\ Z.land (Flag parsedA) 0x4 = 0.
Proof.
  split; [vm_compute; reflexivity|].
  apply (Flag_parsed Sample.fontA (Set_.symbol true zeroTTFParser) parsedA).
  vm_compute. reflexivity.
Defined.

(** ** C7: the padding of the width sequence *)

Lemma Set_widths_id me : Set_.widths (widths me) me = me.
Proof. destruct me. reflexivity. Qed.

Lemma nth_map_seq (f : nat -> Z) (n k : nat) (d : Z) :
  (k < n)%nat -> nth k (map f (seq 0 n)) d = f k.
Proof.
  intros H. rewrite (nth_indep _ d (f 0%nat)) by (rewrite length_map, length_seq; lia).
  rewrite map_nth, seq_nth by lia. reflexivity.
Qed.

(** The loop of [ParseHmtx] on a file that holds the [n] metric pairs from
    the cursor on: the advance widths are appended in file order. *)
Lemma hmtx_loop (n : nat) : forall me (data : list byte) (pos i : Z),
  0 <= pos ->
  pos + 4 * Z.of_nat n <= Z.of_nat (length data) + 2 ->
  for_ n i tt (fun _ _ =>
      advanceWidth <- ReadUShort ;;
      Skip 2 ;;
      assign (fun me => Set_.widths (widths me ++ [advanceWidth]) me) ;;
      ret (Continue tt)) (me, mkFile data pos)
  = (Ok tt,
     (Set_.widths
        (widths me
           ++ map (fun k => u16At data (pos + 4 * Z.of_nat k)) (seq 0 n)) me,
      mkFile data (pos + 4 * Z.of_nat n))).
Proof.
  induction n as [|n IH]; intros me data pos i Hp Hl.
  - simpl. unfold ret. rewrite app_nil_r, Set_widths_id.
    repeat f_equal. lia.
  - cbn [for_].
    erewrite bind_Ok; cycle 1.
    { erewrite bind_Ok by (apply ReadUShort_at; lia).
      erewrite bind_Ok by (apply Skip_at; lia).
      reflexivity. }
    cbn [fst snd]. rewrite IH by lia.
    f_equal. f_equal.
    + unfold Set_.widths. cbn. f_equal.
      rewrite <- app_assoc. f_equal. cbn [seq map app].
      f_equal; [f_equal; lia|].
      rewrite <- seq_shift, map_map. apply map_ext. intros k. f_equal. lia.
    + f_equal. lia.
Qed.

(** X30: let the directory hold an hmtx table whose numberOfHMetrics >= 1
    metric pairs are in the file, and let the parser hold no widths yet.
    If numberOfHMetrics is below the glyph count, [ParseHmtx] succeeds;
    the widths below numberOfHMetrics are the advance widths of the file
    in order, and every width from numberOfHMetrics on equals the width at
    numberOfHMetrics - 1. *)
Theorem ParseHmtx_padding me (fd : File) (e : TableDirectoryEntry) :
  tables me !! "hmtx"%string = Some e ->
  0 <= Offset e < Int.two63 ->
  widths me = [] ->
  1 <= numberOfHMetrics me < numGlyphs me ->
  numGlyphs me < 65536 ->
  Offset e + 4 * numberOfHMetrics me <= Z.of_nat (length (fdata fd)) + 2 ->
  exists me' fd',
    ParseHmtx (me, fd) = (Ok tt, (me', fd'))
    /\ length (widths me') = Z.to_nat (numGlyphs me)
    /\ (forall i, 0 <= i < numberOfHMetrics me ->
          widths me' !! Z.to_nat i = Some (u16At (fdata fd) (Offset e + 4 * i)))
    /\ (forall i, numberOfHMetrics me <= i < numGlyphs me ->
          widths me' !! Z.to_nat i
          = widths me' !! Z.to_nat (numberOfHMetrics me - 1)).
Proof.
  intros Ht Ho Hw Hn Hg Hl.
  set (adv := fun k : nat => u16At (fdata fd) (Offset e + 4 * Z.of_nat k)).
  set (n := Z.to_nat (numberOfHMetrics me)).
  set (ws := map adv (seq 0 n)).
  assert (length ws = n) as Hlen by (unfold ws; rewrite length_map, length_seq; reflexivity).
  set (padded := ArrayPadUint_loop (Z.to_nat (numGlyphs me)) 0 ws
                   (adv (n - 1)%nat) []).
  assert (ParseHmtx (me, fd)
          = (Ok tt, (Set_.widths padded me,
                     mkFile (fdata fd) (Offset e + 4 * Z.of_nat n)))) as E.
  { unfold ParseHmtx.
    erewrite bind_Ok; cycle 1.
    { unfold discard. erewrite Seek_at by eassumption. reflexivity. }
    erewrite bind_Ok by reflexivity. cbn [fst snd].
    erewrite bind_Ok by (apply hmtx_loop; unfold n in *; lia).
    erewrite bind_Ok by reflexivity. cbn [fst snd].
    rewrite Hw. cbn [app]. fold adv. fold n. fold ws.
    change (numberOfHMetrics (Set_.widths ws me)) with (numberOfHMetrics me).
    change (numGlyphs (Set_.widths ws me)) with (numGlyphs me).
    change (widths (Set_.widths ws me)) with ws.
    destruct (Z.ltb_spec (numberOfHMetrics me) (numGlyphs me)); [|lia].
    assert (Int.sub (numberOfHMetrics me) 1 = Z.of_nat (n - 1)) as Es.
    { unfold Int.sub. rewrite u64_small by (unfold Int.two64; lia). lia. }
    erewrite bind_Ok; cycle 1.
    { unfold index. rewrite Es, Hlen.
      destruct (Z.leb_spec 0 (Z.of_nat (n - 1))); [|lia].
      destruct (Z.ltb_spec (Z.of_nat (n - 1)) (Z.of_nat n)); [|lia].
      cbn [andb]. rewrite Nat2Z.id.
      assert (ws !! (n - 1)%nat = Some (adv (n - 1)%nat)) as ->.
      { unfold ws. rewrite list_lookup_fmap, lookup_seq_lt by lia. reflexivity. }
      reflexivity. }
    reflexivity. }
  exists (Set_.widths padded me), (mkFile (fdata fd) (Offset e + 4 * Z.of_nat n)).
  assert (forall k, (k < Z.to_nat (numGlyphs me))%nat ->
            padded !! k = Some (if (k <? n)%nat then adv k else adv (n - 1)%nat))
    as Hpad.
  { intros k Hk. unfold padded.
    rewrite (ArrayPadUint_loop_lookup _ 0 ws _ [] k)
      by (unfold Int.two63; lia).
    rewrite Hlen, Z.add_0_l, Nat2Z.id. f_equal.
    destruct (Z.ltb_spec (Z.of_nat k) (Z.of_nat n));
      destruct (Nat.ltb_spec k n); try lia.
    unfold ws. apply nth_map_seq. lia. }
  split; [exact E|]. cbn [widths Set_.widths]. split; [|split].
  - unfold padded. rewrite ArrayPadUint_loop_length. reflexivity.
  - intros i Hi. rewrite Hpad by lia.
    destruct (Nat.ltb_spec (Z.to_nat i) n); [|lia].
    unfold adv. repeat f_equal. lia.
  - intros i Hi. rewrite !Hpad by lia.
    destruct (Nat.ltb_spec (Z.to_nat i) n); [lia|].
    destruct (Nat.ltb_spec (Z.to_nat (numberOfHMetrics me - 1)) n); [|lia].
    repeat f_equal. lia.
Qed.

Lemma ParseHmtx_padding_witness :
  tables meHmtx !! "hmtx"%string = Some entryHmtx
  /\ 0 <= Offset entryHmtx < Int.two63
  /\ widths meHmtx = []
  /\ 1 <= numberOfHMetrics meHmtx < numGlyphs meHmtx
  /\ numGlyphs meHmtx < 65536
  /\ Offset entryHmtx + 4 * numberOfHMetrics meHmtx
     <= Z.of_nat (length (fdata fdHmtx)) + 2
  /\ exists me' fd',
       ParseHmtx (meHmtx, fdHmtx) = (Ok tt, (me', fd'))
       /\ length (widths me') = Z.to_nat (numGlyphs meHmtx)
       /\ (forall i, 0 <= i < numberOfHMetrics meHmtx ->
             widths me' !! Z.to_nat i
             = Some (u16At (fdata fdHmtx) (Offset entryHmtx + 4 * i)))
       /\ (forall i, numberOfHMetrics meHmtx <= i < numGlyphs meHmtx ->
             widths me' !! Z.to_nat i
             = widths me' !! Z.to_nat (numberOfHMetrics meHmtx - 1)).
Proof.
  assert (tables meHmtx !! "hmtx"%string = Some entryHmtx) as H1
    by (vm_compute; reflexivity).
  assert (0 <= Offset entryHmtx < Int.two63) as H2
    by (unfold Int.two63; simpl; lia).
  assert (widths meHmtx = []) as H3 by reflexivity.
  assert (1 <= numberOfHMetrics meHmtx < numGlyphs meHmtx) as H4
    by (simpl; lia).
  assert (numGlyphs meHmtx < 65536) as H5 by (simpl; lia).
  assert (Offset entryHmtx + 4 * numberOfHMetrics meHmtx
          <= Z.of_nat (length (fdata fdHmtx)) + 2) as H6
    by (simpl; lia).
  repeat (split; [assumption|]).
  exact (ParseHmtx_padding meHmtx fdHmtx entryHmtx H1 H2 H3 H4 H5 H6).
Defined.

Example ParseHmtx_padded_widths :
  widths (fst (snd (ParseHmtx (meHmtx, fdHmtx)))) = [500; 600; 600; 600].
Proof. vm_compute. reflexivity. Qed.

(** The padding law on every font that a parser without prior widths has
    parsed. *)
Lemma Parse_widths_padded (content : list byte) (me0 me : TTFParser) :
  Parse (Some content) me0 = (Ok tt, me) ->
  widths me0 = [] ->
  forall i, numberOfHMetrics me <= i < numGlyphs me ->
    widths me !! Z.to_nat i = widths me !! Z.to_nat (numberOfHMetrics me - 1).
Proof.
  intros E E0. apply Parse_parsed in E as (Hl & _).
  destruct (Hl E0) as [_ Hp]. exact Hp.
Qed.

(** C7: the padding law fails on a parser that holds widths already.
    [ParseHmtx] appends to the widths of the receiver and never resets
    them, while each parse builds the directory, the character map and
    the loca table anew.  A parser that has parsed [fontA] (widths
    [500; 600; 600]) and then parses [fontOneMetric], a font of two
    glyphs whose single explicit metric has the advance width 700,
    succeeds with the widths [500; 600]: the width at index 0 is not the
    advance width read from the file, and the width at index 1 is not the
    width at index numberOfHMetrics - 1 = 0.  A new parser gives
    [700; 700] on the same file. *)
Theorem ParseHmtx_reused_parser :
  Parse (Some Sample.fontA) zeroTTFParser = (Ok tt, parsedA)
  /\ Parse (Some fontOneMetric) parsedA = (Ok tt, parsedTwice)
  /\ numberOfHMetrics parsedTwice = 1
  /\ numGlyphs parsedTwice = 2
  /\ (exists e, tables parsedTwice !! "hmtx"%string = Some e
                /\ u16At fontOneMetric (Offset e) = 700)
  /\ widths parsedTwice = [500; 600]
  /\ widths parsedTwice !! 0%nat <> Some 700
  /\ widths parsedTwice !! 1%nat <> widths parsedTwice !! 0%nat
  /\ Parse (Some fontOneMetric) zeroTTFParser = (Ok tt, parsedOneMetric)
  /\ widths parsedOneMetric = [700; 700].
Proof.
  split; [vm_compute; reflexivity|].
  split; [vm_compute; reflexivity|].
  split; [reflexivity|]. split; [reflexivity|].
  split.
  { eexists. split; [vm_compute; reflexivity | vm_compute; reflexivity]. }
  split; [reflexivity|].
  split; [vm_compute; discriminate|].
  split; [vm_compute; discriminate|].
  split; [vm_compute; reflexivity | reflexivity].
Qed.

(** ** C8: entries of the character map *)

(** C8: after a successful parse the character map has no entry of value 0
    and no entry of key 0xFFFF. *)
Theorem chars_parsed (content : list byte) (me0 me : TTFParser) :
  Parse (Some content) me0 = (Ok tt, me) ->
  forall k v : Z, chars me !! k = Some v -> v <> 0 /\ k <> 0xFFFF.
Proof.
  intros E. apply Parse_parsed in E as (_ & _ & _ & Hc & _).
  exact Hc.
Qed.

Lemma chars_parsed_witness :
  Parse (Some Sample.fontA) zeroTTFParser = (Ok tt, parsedA)
  /\ forall k v : Z, chars parsedA !! k = Some v -> v <> 0 /\ k <> 0xFFFF.
Proof.
  split; [vm_compute; reflexivity|].
  apply (chars_parsed Sample.fontA zeroTTFParser parsedA).
  vm_compute. reflexivity.
Defined.

(** ** C9: segments without range offset *)

(** The single conditional subtraction realizes the modulus. *)
Lemma gid_wrap (c d : Z) :
  0 <= c <= 65535 -> 0 <= d <= 65535 ->
  (if 65536 <=? Int.add c d then Int.sub (Int.add c d) 65536 else Int.add c d)
  = (c + d) mod 65536.
Proof.
  intros Hc Hd.
  assert (Int.add c d = c + d) as ->
    by (apply u64_small; unfold Int.two64; lia).
  destruct (Z.leb_spec 65536 (c + d)).
  - unfold Int.sub. rewrite u64_small by (unfold Int.two64; lia).
    apply (Z.mod_unique (c + d) 65536 1); lia.
  - symmetry. apply Z.mod_small. lia.
Qed.

(** The inner loop body at a codepoint that is not the sentinel, in a
    segment without range offset: the glyph index (c + d) mod 65536 is
    stored under [c] unless it is 0, and nothing is read. *)
Lemma cmapCodepoint_direct me (fd : File) (d c : Z) :
  0 <= c < 65535 -> 0 <= d <= 65535 ->
  cmapCodepoint d 0 c (me, fd)
  = (Ok (Continue tt),
     (if 0 <? (c + d) mod 65536
      then Set_.chars (<[c := (c + d) mod 65536]> (chars me)) me
      else me, fd)).
Proof.
  intros Hc Hd. unfold cmapCodepoint.
  destruct (Z.eqb_spec c 0xFFFF); [lia|].
  change (0 <? 0) with false. cbv iota.
  erewrite bind_Ok by reflexivity. cbv zeta.
  rewrite gid_wrap by lia.
  assert (Int.int_of_uint64 c = c) as ->
    by (apply int64_of_uint64_small; unfold Int.two63; lia).
  destruct (0 <? (c + d) mod 65536); reflexivity.
Qed.

Lemma cmap_direct_loop (fd : File) (d : Z) (n : nat) : forall me (c1 : Z),
  0 <= c1 -> c1 + Z.of_nat n <= 65536 -> 0 <= d <= 65535 ->
  exists me',
    for_ n c1 tt (fun c _ => cmapCodepoint d 0 c) (me, fd) = (Ok tt, (me', fd))
    /\ (forall c, c1 <= c < c1 + Z.of_nat n -> c <> 0xFFFF ->
          chars me' !! c
          = if (c + d) mod 65536 =? 0 then chars me !! c
            else Some ((c + d) mod 65536))
    /\ (forall c, ~ (c1 <= c < c1 + Z.of_nat n) -> chars me' !! c = chars me !! c).
Proof.
  induction n as [|n IH]; intros me c1 Hc1 Hn Hd.
  - exists me. split; [reflexivity|]. split; [lia | reflexivity].
  - cbn [for_]. destruct (Z.eq_dec c1 0xFFFF) as [->|Hne].
    + exists me. split; [reflexivity|]. split; [lia | reflexivity].
    + erewrite bind_Ok by (apply cmapCodepoint_direct; lia).
      set (g := (c1 + d) mod 65536).
      set (me1 := if 0 <? g then Set_.chars (<[c1 := g]> (chars me)) me else me).
      assert (forall c, c <> c1 -> chars me1 !! c = chars me !! c) as Hother.
      { intros c Hc. unfold me1. destruct (0 <? g); [|reflexivity].
        cbn. apply lookup_insert_ne. congruence. }
      assert (chars me1 !! c1 = if g =? 0 then chars me !! c1 else Some g) as Hsame.
      { pose proof (Z.mod_pos_bound (c1 + d) 65536 ltac:(lia)) as Hg. fold g in Hg.
        unfold me1. destruct (Z.ltb_spec 0 g); destruct (Z.eqb_spec g 0); try lia.
        - cbn. apply lookup_insert_eq.
        - reflexivity. }
      destruct (IH me1 (c1 + 1)) as (me' & E & Hin & Hout); try lia.
      exists me'. split; [exact E|]. split.
      * intros c Hc Hs. destruct (Z.eq_dec c c1) as [->|Hcc].
        -- rewrite Hout by lia. exact Hsame.
        -- rewrite Hin by lia. rewrite Hother by exact Hcc. reflexivity.
      * intros c Hc. rewrite Hout by lia. apply Hother. lia.
Qed.

(** C9: in a segment [i] whose idRangeOffset is 0, with 16-bit start, end
    and idDelta, the segment is processed without error and every codepoint
    [c] of [start, end] other than 0xFFFF resolves to the glyph index
    (c + idDelta) mod 65536: that index is stored under [c], unless it is 0,
    in which case the entry of [c] is left as it was. *)
Theorem cmapSegment_direct me (fd : File)
    (startCount endCount idDelta idRangeOffset : list Z)
    (offset i c1 c2 d : Z) :
  0 <= i ->
  startCount !! Z.to_nat i = Some c1 ->
  endCount !! Z.to_nat i = Some c2 ->
  idDelta !! Z.to_nat i = Some d ->
  idRangeOffset !! Z.to_nat i = Some 0 ->
  0 <= c1 <= 65535 -> c2 <= 65535 -> 0 <= d <= 65535 ->
  exists me',
    cmapSegment startCount endCount idDelta idRangeOffset offset i (me, fd)
    = (Ok (Continue tt), (me', fd))
    /\ forall c, c1 <= c <= c2 -> c <> 0xFFFF ->
         chars me' !! c
         = if (c + d) mod 65536 =? 0 then chars me !! c
           else Some ((c + d) mod 65536).
Proof.
  intros Hi Es Ee Ed Er Hc1 Hc2 Hd.
  destruct (cmap_direct_loop fd d (Z.to_nat (c2 + 1 - c1)) me c1)
    as (me' & E & Hin & _); try lia.
  exists me'. split.
  - unfold cmapSegment.
    erewrite bind_Ok by (apply index_at; eassumption).
    erewrite bind_Ok by (apply index_at; eassumption).
    erewrite bind_Ok by (apply index_at; eassumption).
    erewrite bind_Ok by (apply index_at; eassumption).
    change (0 <? 0) with false. cbv iota.
    erewrite bind_Ok by reflexivity.
    erewrite bind_Ok by exact E. reflexivity.
  - intros c Hc Hs. apply Hin; lia.
Qed.

Lemma cmapSegment_direct_witness :
  0 <= 0
  /\ [65] !! Z.to_nat 0 = Some 65
  /\ [70] !! Z.to_nat 0 = Some 70
  /\ [65533] !! Z.to_nat 0 = Some 65533
  /\ [0] !! Z.to_nat 0 = Some 0
  /\ 0 <= 65 <= 65535 /\ 70 <= 65535 /\ 0 <= 65533 <= 65535
  /\ exists me',
       cmapSegment [65] [70] [65533] [0] 0 0 (zeroTTFParser, mkFile [] 0)
       = (Ok (Continue tt), (me', mkFile [] 0))
       /\ forall c, 65 <= c <= 70 -> c <> 0xFFFF ->
            chars me' !! c
            = if (c + 65533) mod 65536 =? 0 then chars zeroTTFParser !! c
              else Some ((c + 65533) mod 65536).
Proof.
  assert (0 <= 0) as H1 by lia.
  assert ([65] !! Z.to_nat 0 = Some 65) as H2 by reflexivity.
  assert ([70] !! Z.to_nat 0 = Some 70) as H3 by reflexivity.
  assert ([65533] !! Z.to_nat 0 = Some 65533) as H4 by reflexivity.
  assert ([0] !! Z.to_nat 0 = Some 0) as H5 by reflexivity.
  assert (0 <= 65 <= 65535) as H6 by lia.
  assert (70 <= 65535) as H7 by lia.
  assert (0 <= 65533 <= 65535) as H8 by lia.
  repeat (split; [assumption|]).
  exact (cmapSegment_direct zeroTTFParser (mkFile [] 0) [65] [70] [65533] [0]
           0 0 65 70 65533 H1 H2 H3 H4 H5 H6 H7 H8).
Defined.

Example cmapSegment_direct_chars :
  map_to_list
    (chars (fst (snd (cmapSegment [65] [70] [65533] [0] 0 0
                        (zeroTTFParser, mkFile [] 0)))))
  = [(67, 64); (69, 66); (65, 62); (70, 67); (66, 63); (68, 65)].
Proof. vm_compute. reflexivity. Qed.

(** ** C10: a wrong magic number in head *)

(** C10: when the directory has a head table whose magic field (the four
    bytes at offset 12 of the table) is present and differs from
    0x5F0F3CF5, [ParseHead] returns the incorrect-magic-number error and
    leaves the receiver as it was: unitsPerEm, xMin, yMin, xMax, yMax and
    indexToLocFormat, like every other field, are not modified. *)
Theorem ParseHead_bad_magic me (fd : File) (e : TableDirectoryEntry) :
  tables me !! "head"%string = Some e ->
  0 <= Offset e < Int.two63 ->
  Offset e + 16 <= Z.of_nat (length (fdata fd)) ->
  u32At (fdata fd) (Offset e + 12) <> 0x5F0F3CF5 ->
  exists fd',
    ParseHead (me, fd) = (Err ERROR_INCORRECT_MAGIC_NUMBER, (me, fd'))
    /\ unitsPerEm (fst (snd (ParseHead (me, fd)))) = unitsPerEm me
    /\ xMin (fst (snd (ParseHead (me, fd)))) = xMin me
    /\ yMin (fst (snd (ParseHead (me, fd)))) = yMin me
    /\ xMax (fst (snd (ParseHead (me, fd)))) = xMax me
    /\ yMax (fst (snd (ParseHead (me, fd)))) = yMax me
    /\ indexToLocFormat (fst (snd (ParseHead (me, fd)))) = indexToLocFormat me.
Proof.
  intros Ht Ho Hl Hm.
  assert (ParseHead (me, fd)
          = (Err ERROR_INCORRECT_MAGIC_NUMBER,
             (me, mkFile (fdata fd) (Offset e + 12 + 4)))) as E.
  { unfold ParseHead.
    erewrite bind_Ok by (apply Seek_at; eassumption).
    erewrite bind_Ok by (apply Skip_at; lia).
    erewrite bind_Ok by (apply ReadULong_at; lia).
    change (3 * 4) with 12.
    destruct (Z.eqb_spec (u32At (fdata fd) (Offset e + 12)) 0x5F0F3CF5);
      [contradiction|].
    reflexivity. }
  eexists. split; [exact E|]. rewrite E. simpl. repeat split.
Qed.

Lemma ParseHead_bad_magic_witness :
  tables meHead !! "head"%string = Some entryHead
  /\ 0 <= Offset entryHead < Int.two63
  /\ Offset entryHead + 16 <= Z.of_nat (length (fdata fdHead))
  /\ u32At (fdata fdHead) (Offset entryHead + 12) <> 0x5F0F3CF5
  /\ exists fd',
       ParseHead (meHead, fdHead)
       = (Err ERROR_INCORRECT_MAGIC_NUMBER, (meHead, fd'))
       /\ unitsPerEm (fst (snd (ParseHead (meHead, fdHead)))) = unitsPerEm meHead
       /\ xMin (fst (snd (ParseHead (meHead, fdHead)))) = xMin meHead
       /\ yMin (fst (snd (ParseHead (meHead, fdHead)))) = yMin meHead
       /\ xMax (fst (snd (ParseHead (meHead, fdHead)))) = xMax meHead
       /\ yMax (fst (snd (ParseHead (meHead, fdHead)))) = yMax meHead
       /\ indexToLocFormat (fst (snd (ParseHead (meHead, fdHead))))
          = indexToLocFormat meHead.
Proof.
  assert (tables meHead !! "head"%string = Some entryHead) as H1
    by (vm_compute; reflexivity).
  assert (0 <= Offset entryHead < Int.two63) as H2
    by (unfold Int.two63; simpl; lia).
  assert (Offset entryHead + 16 <= Z.of_nat (length (fdata fdHead))) as H3
    by (vm_compute; discriminate).
  assert (u32At (fdata fdHead) (Offset entryHead + 12) <> 0x5F0F3CF5) as H4
    by (vm_compute; discriminate).
  repeat (split; [assumption|]).
  exact (ParseHead_bad_magic meHead fdHead entryHead H1 H2 H3 H4).
Defined.

(** The whole parse of a file with the wrong magic number stops there. *)
Example Parse_bad_magic :
  fst (Parse (Some Sample.fontBadMagic) zeroTTFParser)
  = Err ERROR_INCORRECT_MAGIC_NUMBER.
Proof. vm_compute. reflexivity. Qed.

(** * Further properties of the code *)

(** ** The cursor *)

Lemma assignFrom_Ok {A} (set : A -> TTFParser -> TTFParser) (zero : A)
    (m : M A) (s s' : State) (v : A) :
  m s = (Ok v, s') ->
  assignFrom set zero m s = (Ok tt, (set v (fst s'), snd s')).
Proof. intros E. unfold assignFrom. rewrite E. reflexivity. Qed.

Lemma u16At_range (data : list byte) (pos : Z) :
  0 <= pos -> pos + 2 <= Z.of_nat (length data) -> 0 <= u16At data pos < 65536.
Proof.
  intros Hp Hl. unfold u16At, bytesAt. apply (be_to_Z_range _ 2).
  rewrite length_take, length_drop. lia.
Qed.

Lemma u32At_range (data : list byte) (pos : Z) :
  0 <= pos -> pos + 4 <= Z.of_nat (length data) ->
  0 <= u32At data pos < 4294967296.
Proof.
  intros Hp Hl. unfold u32At, bytesAt. apply (be_to_Z_range _ 4).
  rewrite length_take, length_drop. lia.
Qed.

Lemma ReadShort_at me (data : list byte) (pos : Z) :
  0 <= pos -> pos + 2 <= Z.of_nat (length data) ->
  ReadShort (me, mkFile data pos)
  = (Ok (s16At data pos), (me, mkFile data (pos + 2))).
Proof.
  intros Hp Hl. unfold ReadShort.
  erewrite bind_Ok by (apply Read_at; lia).
  fold (u16At data pos). pose proof (u16At_range data pos Hp Hl) as Hr.
  unfold ret, s16At.
  rewrite int64_of_uint64_small by (unfold Int.two63; lia). reflexivity.
Qed.

(** X1: a signed 16-bit read succeeds when two bytes remain, moves the
    cursor by two, leaves the receiver alone, and returns the two's
    complement reading of the big-endian field: a value of
    [-32768, 32767] congruent to the unsigned field modulo 65536. *)
Theorem ReadShort_twos_complement me (data : list byte) (pos : Z) :
  0 <= pos -> pos + 2 <= Z.of_nat (length data) ->
  exists v,
    ReadShort (me, mkFile data pos) = (Ok v, (me, mkFile data (pos + 2)))
    /\ -32768 <= v < 32768
    /\ v mod 65536 = u16At data pos
    /\ (v < 0 <-> 0x8000 <= u16At data pos).
Proof.
  intros Hp Hl. exists (s16At data pos). split; [apply ReadShort_at; assumption|].
  pose proof (u16At_range data pos Hp Hl) as Hr. unfold s16At.
  destruct (Z.leb_spec 0x8000 (u16At data pos)).
  - split; [lia|]. split; [|lia].
    symmetry. apply (Z.mod_unique _ 65536 (-1)); lia.
  - split; [lia|]. split; [apply Z.mod_small; lia | lia].
Qed.

Lemma ReadShort_twos_complement_witness :
  0 <= 2 /\ 2 + 2 <= Z.of_nat (length [x00; x00; xff; x38])
  /\ exists v,
       ReadShort (zeroTTFParser, mkFile [x00; x00; xff; x38] 2)
       = (Ok v, (zeroTTFParser, mkFile [x00; x00; xff; x38] (2 + 2)))
       /\ -32768 <= v < 32768
       /\ v mod 65536 = u16At [x00; x00; xff; x38] 2
       /\ (v < 0 <-> 0x8000 <= u16At [x00; x00; xff; x38] 2).
Proof.
  assert (0 <= 2) as H1 by lia.
  assert (2 + 2 <= Z.of_nat (length [x00; x00; xff; x38])) as H2 by (simpl; lia).
  split; [exact H1|]. split; [exact H2|].
  exact (ReadShort_twos_complement zeroTTFParser [x00; x00; xff; x38] 2 H1 H2).
Defined.

Example ReadShort_minus_200 :
  fst (ReadShort (zeroTTFParser, mkFile [x00; x00; xff; x38] 2)) = Ok (-200).
Proof. vm_compute. reflexivity. Qed.

Lemma Read_at_end me (data : list byte) (pos n : Z) :
  0 <= pos -> 0 < n -> Z.of_nat (length data) <= pos ->
  Read n (me, mkFile data pos) = (Err ErrEOF, (me, mkFile data pos)).
Proof.
  intros Hp Hn Hr. unfold Read. destruct (Z.ltb_spec n 0); [lia|].
  unfold os_Read. simpl. destruct (Z.eqb_spec n 0); [lia|].
  rewrite drop_ge by lia. reflexivity.
Qed.

Lemma Read_past_end me (data : list byte) (pos n : Z) :
  0 <= pos -> pos < Z.of_nat (length data) < pos + n ->
  Read n (me, mkFile data pos)
  = (Err ErrFileOutOfLength, (me, mkFile data (Z.of_nat (length data)))).
Proof.
  intros Hp Hr. unfold Read. destruct (Z.ltb_spec n 0); [lia|].
  unfold os_Read. simpl. destruct (Z.eqb_spec n 0); [lia|].
  remember (drop (Z.to_nat pos) data) as rest eqn:E.
  assert (length rest = (length data - Z.to_nat pos)%nat) as Hlen
    by (rewrite E; apply length_drop).
  destruct rest as [|x rest]; [simpl in Hlen; lia|].
  cbv zeta. rewrite length_take, Hlen.
  destruct (Z.eqb_spec
              (Z.of_nat (Z.to_nat n `min` (length data - Z.to_nat pos))) n);
    [lia|].
  repeat f_equal. lia.
Qed.

(** X2: what [Read] does at the end of the file.  Asked for [n > 0] bytes
    with none left it returns io.EOF; with some but fewer than [n] left it
    returns the "file out of length" error and the cursor is at the end of
    the file; asked for no byte it succeeds with the empty slice.  The
    receiver is untouched in each case. *)
Theorem Read_short me (fd : File) (n : Z) :
  0 <= fpos fd -> 0 <= n ->
  (n = 0 -> Read n (me, fd) = (Ok [], (me, fd)))
  /\ (0 < n -> remaining fd <= 0 -> Read n (me, fd) = (Err ErrEOF, (me, fd)))
  /\ (0 < remaining fd < n ->
      Read n (me, fd)
      = (Err ErrFileOutOfLength,
         (me, mkFile (fdata fd) (Z.of_nat (length (fdata fd)))))).
Proof.
  intros Hp Hn. destruct fd as [data pos]. unfold remaining. simpl in *.
  split; [|split].
  - intros ->. reflexivity.
  - intros H0 Hr. apply Read_at_end; lia.
  - intros Hr. apply Read_past_end; lia.
Qed.

Lemma Read_short_witness :
  0 <= fpos (mkFile [x01; x02; x03] 2) /\ 0 <= 4
  /\ (4 = 0 -> Read 4 (zeroTTFParser, mkFile [x01; x02; x03] 2)
               = (Ok [], (zeroTTFParser, mkFile [x01; x02; x03] 2)))
  /\ (0 < 4 -> remaining (mkFile [x01; x02; x03] 2) <= 0 ->
      Read 4 (zeroTTFParser, mkFile [x01; x02; x03] 2)
      = (Err ErrEOF, (zeroTTFParser, mkFile [x01; x02; x03] 2)))
  /\ (0 < remaining (mkFile [x01; x02; x03] 2) < 4 ->
      Read 4 (zeroTTFParser, mkFile [x01; x02; x03] 2)
      = (Err ErrFileOutOfLength,
         (zeroTTFParser,
          mkFile (fdata (mkFile [x01; x02; x03] 2))
            (Z.of_nat (length (fdata (mkFile [x01; x02; x03] 2))))))).
Proof.
  assert (0 <= fpos (mkFile [x01; x02; x03] 2)) as H1 by (simpl; lia).
  assert (0 <= 4) as H2 by lia.
  split; [exact H1|]. split; [exact H2|].
  exact (Read_short zeroTTFParser (mkFile [x01; x02; x03] 2) 4 H1 H2).
Defined.

Lemma CompareBytes_true (a b : list byte) : CompareBytes a b = true -> a = b.
Proof.
  revert b. induction a as [|x a IH]; intros [|y b]; simpl;
    try discriminate; try reflexivity.
  destruct (Byte.eqb x y) eqn:E; [|discriminate].
  apply Byte.byte_dec_bl in E. subst y. intros H. f_equal. apply IH, H.
Qed.

Lemma CompareBytes_same (a : list byte) : CompareBytes a a = true.
Proof.
  induction a as [|x a IH]; simpl; [reflexivity|].
  rewrite Byte.byte_dec_lb by reflexivity. exact IH.
Qed.

Lemma CompareBytes_eq (a b : list byte) : CompareBytes a b = true <-> a = b.
Proof.
  split; [apply CompareBytes_true | intros ->; apply CompareBytes_same].
Qed.

Lemma CompareBytes_loop_drop (n : nat) : forall (i : nat) (a b : list byte),
  length a = length b -> (i + n = length a)%nat ->
  CompareBytes_loop n i a b = Some (CompareBytes (drop i a) (drop i b)).
Proof.
  induction n as [|n IH]; intros i a b Hab Hi.
  - rewrite !drop_ge by lia. reflexivity.
  - cbn [CompareBytes_loop].
    destruct (lookup_lt_is_Some_2 a i ltac:(lia)) as [x Hx].
    destruct (lookup_lt_is_Some_2 b i ltac:(lia)) as [y Hy].
    rewrite Hx, Hy, (drop_S a x i Hx), (drop_S b y i Hy).
    cbn [CompareBytes]. destruct (Byte.eqb x y); [|reflexivity].
    apply IH; lia.
Qed.

(** X3: [CompareBytes], with its nil tests, its length test and its index
    loop, never panics and returns true exactly when the two slices are
    both nil or both non-nil with the same bytes; a nil and an empty slice
    are told apart.  On two non-nil slices it is the bytewise comparison
    that [Parse] is modelled with. *)
Theorem CompareBytes_slices_decides (a b : option (list byte))
    (a' b' : list byte) :
  (exists r, CompareBytes_slices a b = Some r /\ (r = true <-> a = b))
  /\ CompareBytes_slices (Some a') (Some b') = Some (CompareBytes a' b').
Proof.
  assert (forall x y : list byte,
            CompareBytes_slices (Some x) (Some y)
            = Some (CompareBytes x y)) as Hs.
  { clear. intros a' b'. cbn [CompareBytes_slices].
    destruct (Nat.eqb_spec (length a') (length b')) as [E|E]; cbn [negb].
    - rewrite (CompareBytes_loop_drop _ 0 a' b' E) by lia. reflexivity.
    - destruct (CompareBytes a' b') eqn:Ec; [|reflexivity].
      apply CompareBytes_true in Ec. subst b'. contradiction. }
  split; [|apply Hs].
  destruct a as [x|], b as [y|].
  - exists (CompareBytes x y). split; [apply Hs|].
    rewrite CompareBytes_eq. split; [intros ->; reflexivity|].
    intros [= ->]. reflexivity.
  - exists false. split; [reflexivity|]. split; discriminate.
  - exists false. split; [reflexivity|]. split; discriminate.
  - exists true. split; [reflexivity|]. split; reflexivity.
Qed.

(** A nil slice and an empty one differ; two empty ones do not. *)
Example CompareBytes_nil_and_empty :
  CompareBytes_slices None (Some []) = Some false
  /\ CompareBytes_slices (Some []) (Some []) = Some true.
Proof. split; reflexivity. Qed.

(** ** [ArrayPadUint] and [ParseHmtx] *)

(** X4: for a size below 2^63, [ArrayPadUint] returns exactly [size]
    elements: the first [size] elements of the array, followed by copies
    of the value when the array is shorter.  It never fails, and it
    truncates an array longer than [size]. *)
Theorem ArrayPadUint_closed (arr : list Z) (size val : Z) (s : State) :
  0 <= size < Int.two63 ->
  ArrayPadUint arr size val s
  = (Ok (take (Z.to_nat size) arr
         ++ replicate (Z.to_nat size - length arr) val), s).
Proof.
  intros Hs. unfold ArrayPadUint, ret. f_equal. f_equal.
  apply list_eq. intros k.
  destruct (Nat.lt_ge_cases k (Z.to_nat size)) as [Hk|Hk].
  - rewrite (ArrayPadUint_loop_lookup _ 0 arr val [] k)
      by (unfold Int.two63 in *; lia).
    rewrite Z.add_0_l, Nat2Z.id.
    destruct (Z.ltb_spec (Z.of_nat k) (Z.of_nat (length arr))) as [Hlt|Hge].
    + rewrite lookup_app_l by (rewrite length_take; lia).
      rewrite lookup_take_lt by lia.
      destruct (lookup_lt_is_Some_2 arr k ltac:(lia)) as [x Hx].
      rewrite Hx. f_equal. apply nth_lookup_Some, Hx.
    + rewrite lookup_app_r by (rewrite length_take; lia).
      rewrite length_take. symmetry. apply lookup_replicate_2. lia.
  - rewrite !lookup_ge_None_2; [reflexivity | |].
    + rewrite length_app, length_take, length_replicate. lia.
    + rewrite ArrayPadUint_loop_length. simpl. lia.
Qed.

Lemma ArrayPadUint_closed_witness :
  0 <= 2 < Int.two63
  /\ ArrayPadUint [7; 8; 9] 2 5 (zeroTTFParser, mkFile [] 0)
     = (Ok (take (Z.to_nat 2) [7; 8; 9]
            ++ replicate (Z.to_nat 2 - length [7; 8; 9]) 5),
        (zeroTTFParser, mkFile [] 0)).
Proof.
  assert (0 <= 2 < Int.two63) as H by (unfold Int.two63; lia).
  split; [exact H|].
  exact (ArrayPadUint_closed [7; 8; 9] 2 5 (zeroTTFParser, mkFile [] 0) H).
Defined.

Example ArrayPadUint_pads_and_truncates :
  fst (ArrayPadUint [7; 8; 9] 5 1 (zeroTTFParser, mkFile [] 0))
  = Ok [7; 8; 9; 1; 1]
  /\ fst (ArrayPadUint [7; 8; 9] 2 1 (zeroTTFParser, mkFile [] 0)) = Ok [7; 8]
  /\ fst (ArrayPadUint [] 0 1 (zeroTTFParser, mkFile [] 0)) = Ok [].
Proof. vm_compute. repeat split. Qed.

(** X5: when numberOfHMetrics is not below the glyph count, [ParseHmtx]
    appends the advance widths of the file, in order, to the widths the
    parser already holds: nothing is reset, padded or truncated. *)
Theorem ParseHmtx_appends me (fd : File) (e : TableDirectoryEntry) :
  tables me !! "hmtx"%string = Some e ->
  0 <= Offset e < Int.two63 ->
  0 <= numberOfHMetrics me ->
  numGlyphs me <= numberOfHMetrics me ->
  Offset e + 4 * numberOfHMetrics me <= Z.of_nat (length (fdata fd)) + 2 ->
  ParseHmtx (me, fd)
  = (Ok tt,
     (Set_.widths
        (widths me
           ++ map (fun k => u16At (fdata fd) (Offset e + 4 * Z.of_nat k))
                (seq 0 (Z.to_nat (numberOfHMetrics me)))) me,
      mkFile (fdata fd)
        (Offset e + 4 * Z.of_nat (Z.to_nat (numberOfHMetrics me))))).
Proof.
  intros Ht Ho H0 Hn Hl. unfold ParseHmtx.
  erewrite bind_Ok; cycle 1.
  { unfold discard. erewrite Seek_at by eassumption. reflexivity. }
  erewrite bind_Ok by reflexivity. cbn [fst snd].
  erewrite bind_Ok by (apply hmtx_loop; lia).
  erewrite bind_Ok by reflexivity. cbn [fst snd].
  change (numberOfHMetrics (Set_.widths ?w me)) with (numberOfHMetrics me).
  change (numGlyphs (Set_.widths ?w me)) with (numGlyphs me).
  destruct (Z.ltb_spec (numberOfHMetrics me) (numGlyphs me)); [lia|].
  reflexivity.
Qed.

Lemma ParseHmtx_appends_witness :
  tables meHmtx2 !! "hmtx"%string = Some entryHmtx
  /\ 0 <= Offset entryHmtx < Int.two63
  /\ 0 <= numberOfHMetrics meHmtx2
  /\ numGlyphs meHmtx2 <= numberOfHMetrics meHmtx2
  /\ Offset entryHmtx + 4 * numberOfHMetrics meHmtx2
     <= Z.of_nat (length (fdata fdHmtx)) + 2
  /\ ParseHmtx (meHmtx2, fdHmtx)
     = (Ok tt,
        (Set_.widths
           (widths meHmtx2
              ++ map (fun k => u16At (fdata fdHmtx)
                                 (Offset entryHmtx + 4 * Z.of_nat k))
                   (seq 0 (Z.to_nat (numberOfHMetrics meHmtx2)))) meHmtx2,
         mkFile (fdata fdHmtx)
           (Offset entryHmtx
            + 4 * Z.of_nat (Z.to_nat (numberOfHMetrics meHmtx2))))).
Proof.
  assert (tables meHmtx2 !! "hmtx"%string = Some entryHmtx) as H1
    by (vm_compute; reflexivity).
  assert (0 <= Offset entryHmtx < Int.two63) as H2
    by (unfold Int.two63; simpl; lia).
  assert (0 <= numberOfHMetrics meHmtx2) as H0 by (simpl; lia).
  assert (numGlyphs meHmtx2 <= numberOfHMetrics meHmtx2) as H3 by (simpl; lia).
  assert (Offset entryHmtx + 4 * numberOfHMetrics meHmtx2
          <= Z.of_nat (length (fdata fdHmtx)) + 2) as H4 by (simpl; lia).
  repeat (split; [assumption|]).
  exact (ParseHmtx_appends meHmtx2 fdHmtx entryHmtx H1 H2 H0 H3 H4).
Defined.

Example ParseHmtx_appends_widths :
  widths (fst (snd (ParseHmtx (meHmtx2, fdHmtx)))) = [11; 12; 500; 600].
Proof. vm_compute. reflexivity. Qed.

(** ** Field layouts of the fixed tables *)

(** Running a parser on a known file, one statement at a time. *)
Ltac run1 :=
  erewrite bind_Ok by
    first [ apply Seek_at; eassumption
          | apply Skip_at; lia
          | apply ReadUShort_at; lia
          | apply ReadShort_at; lia
          | apply ReadULong_at; lia
          | apply assignFrom_Ok;
            first [apply ReadUShort_at; lia | apply ReadShort_at; lia]
          | reflexivity ];
  cbn [fst snd].

Ltac at_offset := repeat first [reflexivity | lia | progress f_equal].

(** Names the receiver reached and normalizes the cursor reached to
    [pos]. *)
Ltac reached pos :=
  lazymatch goal with
  | |- exists me', (Ok tt, (?m, mkFile ?d ?p)) = _ /\ _ =>
      exists m; replace p with pos by lia; split; [reflexivity|]
  end.

(** X6: on a file that holds the 52 bytes of a head table with the right
    magic number, [ParseHead] succeeds, leaves the cursor behind the
    table's index-format field, and sets unitsPerEm, the bounding box and
    indexToLocFormat from the offsets 18, 36, 38, 40, 42 and 50 of the
    table, the box and the format as signed values. *)
Theorem ParseHead_fields me (fd : File) (e : TableDirectoryEntry) :
  tables me !! "head"%string = Some e ->
  0 <= Offset e < Int.two63 ->
  Offset e + 52 <= Z.of_nat (length (fdata fd)) ->
  u32At (fdata fd) (Offset e + 12) = 0x5F0F3CF5 ->
  exists me',
    ParseHead (me, fd) = (Ok tt, (me', mkFile (fdata fd) (Offset e + 52)))
    /\ headFields (fdata fd) (Offset e) me'
    /\ tables me' = tables me.
Proof.
  intros Ht Ho Hl Hm. unfold ParseHead.
  do 3 run1. change (3 * 4) with 12. rewrite Hm. cbn [Z.eqb Pos.eqb negb].
  do 8 run1.
  erewrite assignFrom_Ok by (apply ReadShort_at; lia). cbn [fst snd].
  reached (Offset e + 52).
  split; [|reflexivity].
  unfold headFields. cbn. repeat split; at_offset.
Qed.

Lemma ParseHead_fields_witness :
  tables (meTable "head" 52) !! "head"%string = Some (mkEntry 0 0 52)
  /\ 0 <= Offset (mkEntry 0 0 52) < Int.two63
  /\ Offset (mkEntry 0 0 52) + 52
     <= Z.of_nat (length (fdata (mkFile Sample.headA 0)))
  /\ u32At (fdata (mkFile Sample.headA 0)) (Offset (mkEntry 0 0 52) + 12)
     = 0x5F0F3CF5
  /\ exists me',
       ParseHead (meTable "head" 52, mkFile Sample.headA 0)
       = (Ok tt, (me', mkFile (fdata (mkFile Sample.headA 0))
                         (Offset (mkEntry 0 0 52) + 52)))
       /\ headFields (fdata (mkFile Sample.headA 0))
            (Offset (mkEntry 0 0 52)) me'
       /\ tables me' = tables (meTable "head" 52).
Proof.
  assert (tables (meTable "head" 52) !! "head"%string = Some (mkEntry 0 0 52))
    as H1 by (vm_compute; reflexivity).
  assert (0 <= Offset (mkEntry 0 0 52) < Int.two63) as H2
    by (unfold Int.two63; simpl; lia).
  assert (Offset (mkEntry 0 0 52) + 52
          <= Z.of_nat (length (fdata (mkFile Sample.headA 0)))) as H3
    by (vm_compute; discriminate).
  assert (u32At (fdata (mkFile Sample.headA 0)) (Offset (mkEntry 0 0 52) + 12)
          = 0x5F0F3CF5) as H4 by (vm_compute; reflexivity).
  repeat (split; [assumption|]).
  exact (ParseHead_fields (meTable "head" 52) (mkFile Sample.headA 0)
           (mkEntry 0 0 52) H1 H2 H3 H4).
Defined.

(** X7: on a file that holds the 36 bytes of an hhea table, [ParseHhea]
    succeeds and sets ascender and descender (signed) from the offsets 4
    and 6 and numberOfHMetrics (unsigned) from the offset 34. *)
Theorem ParseHhea_fields me (fd : File) (e : TableDirectoryEntry) :
  tables me !! "hhea"%string = Some e ->
  0 <= Offset e < Int.two63 ->
  Offset e + 36 <= Z.of_nat (length (fdata fd)) ->
  exists me',
    ParseHhea (me, fd) = (Ok tt, (me', mkFile (fdata fd) (Offset e + 36)))
    /\ hheaFields (fdata fd) (Offset e) me'
    /\ tables me' = tables me.
Proof.
  intros Ht Ho Hl. unfold ParseHhea.
  do 5 run1.
  erewrite assignFrom_Ok by (apply ReadUShort_at; lia). cbn [fst snd].
  reached (Offset e + 36).
  split; [|reflexivity].
  unfold hheaFields. cbn. repeat split; at_offset.
Qed.

Lemma ParseHhea_fields_witness :
  tables (meTable "hhea" 36) !! "hhea"%string = Some (mkEntry 0 0 36)
  /\ 0 <= Offset (mkEntry 0 0 36) < Int.two63
  /\ Offset (mkEntry 0 0 36) + 36
     <= Z.of_nat (length (fdata (fdOf (Sample.hhea 800 (-200) 2))))
  /\ exists me',
       ParseHhea (meTable "hhea" 36, fdOf (Sample.hhea 800 (-200) 2))
       = (Ok tt, (me', mkFile (fdata (fdOf (Sample.hhea 800 (-200) 2)))
                         (Offset (mkEntry 0 0 36) + 36)))
       /\ hheaFields (fdata (fdOf (Sample.hhea 800 (-200) 2)))
            (Offset (mkEntry 0 0 36)) me'
       /\ tables me' = tables (meTable "hhea" 36).
Proof.
  assert (tables (meTable "hhea" 36) !! "hhea"%string = Some (mkEntry 0 0 36))
    as H1 by (vm_compute; reflexivity).
  assert (0 <= Offset (mkEntry 0 0 36) < Int.two63) as H2
    by (unfold Int.two63; simpl; lia).
  assert (Offset (mkEntry 0 0 36) + 36
          <= Z.of_nat (length (fdata (fdOf (Sample.hhea 800 (-200) 2))))) as H3
    by (vm_compute; discriminate).
  repeat (split; [assumption|]).
  exact (ParseHhea_fields (meTable "hhea" 36) (fdOf (Sample.hhea 800 (-200) 2))
           (mkEntry 0 0 36) H1 H2 H3).
Defined.

(** X8: on a file that holds the first 6 bytes of a maxp table,
    [ParseMaxp] succeeds and sets the glyph count from the offset 4; a
    file that ends before the count makes it fail, with the count set
    to 0. *)
Theorem ParseMaxp_fields me (fd : File) (e : TableDirectoryEntry) :
  tables me !! "maxp"%string = Some e ->
  0 <= Offset e < Int.two63 ->
  (Offset e + 6 <= Z.of_nat (length (fdata fd)) ->
   ParseMaxp (me, fd)
   = (Ok tt, (Set_.numGlyphs (u16At (fdata fd) (Offset e + 4)) me,
              mkFile (fdata fd) (Offset e + 6))))
  /\ (Z.of_nat (length (fdata fd)) <= Offset e + 4 ->
      ParseMaxp (me, fd)
      = (Err ErrEOF, (Set_.numGlyphs 0 me, mkFile (fdata fd) (Offset e + 4)))).
Proof.
  intros Ht Ho. unfold ParseMaxp. split; intros Hl.
  - do 2 run1.
    erewrite assignFrom_Ok by (apply ReadUShort_at; lia). cbn [fst snd].
    replace (Offset e + 4 + 2) with (Offset e + 6) by lia. reflexivity.
  - do 2 run1.
    assert (Read 2 (me, mkFile (fdata fd) (Offset e + 4))
            = (Err ErrEOF, (me, mkFile (fdata fd) (Offset e + 4)))) as ER.
    { apply Read_at_end; lia. }
    unfold assignFrom, ReadUShort. erewrite bind_Err by exact ER.
    reflexivity.
Qed.

Lemma ParseMaxp_fields_witness :
  tables (meTable "maxp" 6) !! "maxp"%string = Some (mkEntry 0 0 6)
  /\ 0 <= Offset (mkEntry 0 0 6) < Int.two63
  /\ (Offset (mkEntry 0 0 6) + 6
      <= Z.of_nat (length (fdata (fdOf (Sample.maxp 3)))) ->
      ParseMaxp (meTable "maxp" 6, fdOf (Sample.maxp 3))
      = (Ok tt,
         (Set_.numGlyphs
            (u16At (fdata (fdOf (Sample.maxp 3))) (Offset (mkEntry 0 0 6) + 4))
            (meTable "maxp" 6),
          mkFile (fdata (fdOf (Sample.maxp 3))) (Offset (mkEntry 0 0 6) + 6))))
  /\ (Z.of_nat (length (fdata (fdOf (Sample.maxp 3))))
      <= Offset (mkEntry 0 0 6) + 4 ->
      ParseMaxp (meTable "maxp" 6, fdOf (Sample.maxp 3))
      = (Err ErrEOF,
         (Set_.numGlyphs 0 (meTable "maxp" 6),
          mkFile (fdata (fdOf (Sample.maxp 3))) (Offset (mkEntry 0 0 6) + 4)))).
Proof.
  assert (tables (meTable "maxp" 6) !! "maxp"%string = Some (mkEntry 0 0 6))
    as H1 by (vm_compute; reflexivity).
  assert (0 <= Offset (mkEntry 0 0 6) < Int.two63) as H2
    by (unfold Int.two63; simpl; lia).
  repeat (split; [assumption|]).
  exact (ParseMaxp_fields (meTable "maxp" 6) (fdOf (Sample.maxp 3))
           (mkEntry 0 0 6) H1 H2).
Defined.

Example ParseMaxp_numGlyphs :
  numGlyphs (fst (snd (ParseMaxp (meTable "maxp" 6, fdOf (Sample.maxp 3))))) = 3.
Proof. vm_compute. reflexivity. Qed.

(** X9: on a file that holds the 16 bytes of a post table that are read,
    [ParsePost] succeeds and sets the integer part of the italic angle,
    the underline position and thickness (signed, offsets 4, 8 and 10) and
    the fixed-pitch flag (the 32-bit field at offset 12 is not 0). *)
Theorem ParsePost_fields me (fd : File) (e : TableDirectoryEntry) :
  tables me !! "post"%string = Some e ->
  0 <= Offset e < Int.two63 ->
  Offset e + 16 <= Z.of_nat (length (fdata fd)) ->
  exists me',
    ParsePost (me, fd) = (Ok tt, (me', mkFile (fdata fd) (Offset e + 16)))
    /\ postFields (fdata fd) (Offset e) me'
    /\ tables me' = tables me.
Proof.
  intros Ht Ho Hl. unfold ParsePost.
  do 7 run1. unfold assign. cbn [fst snd].
  reached (Offset e + 16).
  split; [|reflexivity].
  unfold postFields. cbn. repeat split; at_offset.
Qed.

Lemma ParsePost_fields_witness :
  tables (meTable "post" 32) !! "post"%string = Some (mkEntry 0 0 32)
  /\ 0 <= Offset (mkEntry 0 0 32) < Int.two63
  /\ Offset (mkEntry 0 0 32) + 16
     <= Z.of_nat (length (fdata (fdOf Sample.postA)))
  /\ exists me',
       ParsePost (meTable "post" 32, fdOf Sample.postA)
       = (Ok tt, (me', mkFile (fdata (fdOf Sample.postA))
                         (Offset (mkEntry 0 0 32) + 16)))
       /\ postFields (fdata (fdOf Sample.postA)) (Offset (mkEntry 0 0 32)) me'
       /\ tables me' = tables (meTable "post" 32).
Proof.
  assert (tables (meTable "post" 32) !! "post"%string = Some (mkEntry 0 0 32))
    as H1 by (vm_compute; reflexivity).
  assert (0 <= Offset (mkEntry 0 0 32) < Int.two63) as H2
    by (unfold Int.two63; simpl; lia).
  assert (Offset (mkEntry 0 0 32) + 16
          <= Z.of_nat (length (fdata (fdOf Sample.postA)))) as H3
    by (vm_compute; discriminate).
  repeat (split; [assumption|]).
  exact (ParsePost_fields (meTable "post" 32) (fdOf Sample.postA)
           (mkEntry 0 0 32) H1 H2 H3).
Defined.

(** X10: on a file that holds the part of an OS/2 table that is read (78
    bytes, 90 from version 2 on), [ParseOS2] succeeds and sets the
    version, the typographic and Windows metrics from their offsets, the
    embedding permission (fsType, offset 8, is not 2 and lacks the bit
    0x200) and the bold flag (bit 32 of fsSelection, offset 62).  From
    version 2 on sxHeight and capHeight are read at the offsets 86 and
    88; below, sxHeight is left as it was and capHeight becomes the hhea
    ascender that the parser holds. *)
Theorem ParseOS2_fields me (fd : File) (e : TableDirectoryEntry) :
  tables me !! "OS/2"%string = Some e ->
  0 <= Offset e < Int.two63 ->
  Offset e + 2 <= Z.of_nat (length (fdata fd)) ->
  Offset e + os2Length (u16At (fdata fd) (Offset e))
  <= Z.of_nat (length (fdata fd)) ->
  exists me',
    ParseOS2 (me, fd)
    = (Ok tt, (me', mkFile (fdata fd)
                      (Offset e + os2Length (u16At (fdata fd) (Offset e)))))
    /\ os2Fields (fdata fd) (Offset e) me me'
    /\ tables me' = tables me.
Proof.
  intros Ht Ho Hl2 Hl. unfold ParseOS2, os2Length, os2Fields in *.
  destruct (2 <=? u16At (fdata fd) (Offset e)) eqn:Ev.
  - do 15 run1. rewrite Ev. do 2 run1.
    erewrite assignFrom_Ok by (apply ReadShort_at; lia). cbn [fst snd].
    reached (Offset e + 90).
    split; [|reflexivity]. cbn.
    repeat split; at_offset.
  - do 15 run1. rewrite Ev. unfold assign. cbn [fst snd].
    reached (Offset e + 78).
    split; [|reflexivity]. cbn.
    repeat split; at_offset.
Qed.

Lemma ParseOS2_fields_witness :
  tables (meTable "OS/2" 78) !! "OS/2"%string = Some (mkEntry 0 0 78)
  /\ 0 <= Offset (mkEntry 0 0 78) < Int.two63
  /\ Offset (mkEntry 0 0 78) + 2 <= Z.of_nat (length (fdata (fdOf os2V1)))
  /\ Offset (mkEntry 0 0 78)
     + os2Length (u16At (fdata (fdOf os2V1)) (Offset (mkEntry 0 0 78)))
     <= Z.of_nat (length (fdata (fdOf os2V1)))
  /\ exists me',
       ParseOS2 (meTable "OS/2" 78, fdOf os2V1)
       = (Ok tt,
          (me', mkFile (fdata (fdOf os2V1))
                  (Offset (mkEntry 0 0 78)
                   + os2Length (u16At (fdata (fdOf os2V1))
                                  (Offset (mkEntry 0 0 78))))))
       /\ os2Fields (fdata (fdOf os2V1)) (Offset (mkEntry 0 0 78))
            (meTable "OS/2" 78) me'
       /\ tables me' = tables (meTable "OS/2" 78).
Proof.
  assert (tables (meTable "OS/2" 78) !! "OS/2"%string = Some (mkEntry 0 0 78))
    as H1 by (vm_compute; reflexivity).
  assert (0 <= Offset (mkEntry 0 0 78) < Int.two63) as H2
    by (unfold Int.two63; simpl; lia).
  assert (Offset (mkEntry 0 0 78) + 2 <= Z.of_nat (length (fdata (fdOf os2V1))))
    as H3 by (vm_compute; discriminate).
  assert (Offset (mkEntry 0 0 78)
          + os2Length (u16At (fdata (fdOf os2V1)) (Offset (mkEntry 0 0 78)))
          <= Z.of_nat (length (fdata (fdOf os2V1)))) as H4
    by (vm_compute; discriminate).
  repeat (split; [assumption|]).
  exact (ParseOS2_fields (meTable "OS/2" 78) (fdOf os2V1) (mkEntry 0 0 78)
           H1 H2 H3 H4).
Defined.

Example ParseOS2_embeddable :
  (let me' := fst (snd (ParseOS2 (meTable "OS/2" 78, fdOf os2V1))) in
   (Embeddable me', Bold me', os2Version me')) = (false, true, 1)
  /\ (let me' := fst (snd (ParseOS2 (meTable "OS/2" 90, fdOf Sample.os2A))) in
      (Embeddable me', Bold me', sxHeight me', capHeight me'))
     = (true, false, 450, 700).
Proof. vm_compute. split; reflexivity. Qed.

(** ** Loops that read an array *)

(** A loop that reads [n] fields of [w] bytes with the reader [rd] and
    appends [f] of each to a local slice. *)
Lemma read_loop (rd : M Z) (w : Z) (val : list byte -> Z -> Z) (f : Z -> Z) :
  0 < w ->
  (forall me data pos, 0 <= pos -> pos + w <= Z.of_nat (length data) ->
     rd (me, mkFile data pos) = (Ok (val data pos), (me, mkFile data (pos + w)))) ->
  forall (n : nat) me (data : list byte) (pos i : Z) (acc : list Z),
    0 <= pos -> pos + w * Z.of_nat n <= Z.of_nat (length data) ->
    for_ n i acc (fun _ a => item <- rd ;; ret (Continue (a ++ [f item])))
      (me, mkFile data pos)
    = (Ok (acc ++ map (fun k => f (val data (pos + w * Z.of_nat k))) (seq 0 n)),
       (me, mkFile data (pos + w * Z.of_nat n))).
Proof.
  intros Hw Hrd. induction n as [|n IH]; intros me data pos i acc Hp Hl.
  - simpl. unfold ret. rewrite app_nil_r. repeat f_equal. lia.
  - cbn [for_].
    erewrite bind_Ok; cycle 1.
    { erewrite bind_Ok by (apply Hrd; lia). reflexivity. }
    cbn [fst snd]. rewrite IH by lia. f_equal; [|f_equal; f_equal; lia].
    f_equal. rewrite <- app_assoc. f_equal. cbn [seq map app].
    f_equal; [do 2 f_equal; lia|].
    rewrite <- seq_shift, map_map. apply map_ext. intros k. do 2 f_equal. lia.
Qed.

(** X11: on a file that holds the loca table, [ParseLoca] succeeds, sets
    the short-index flag exactly when indexToLocFormat is 0, and stores
    Length / 2 offsets, each twice the 16-bit field read, in the short
    format, Length / 4 offsets, the 32-bit fields as they are, in the
    long one. *)
Theorem ParseLoca_offsets me (fd : File) (e : TableDirectoryEntry) :
  tables me !! "loca"%string = Some e ->
  0 <= Offset e < Int.two63 ->
  0 <= Length e ->
  Offset e + Length e <= Z.of_nat (length (fdata fd)) ->
  exists me' fd',
    ParseLoca (me, fd) = (Ok tt, (me', fd'))
    /\ IsShortIndex me' = (indexToLocFormat me =? 0)
    /\ LocaTable me' = locaOffsets (fdata fd) e (indexToLocFormat me)
    /\ tables me' = tables me.
Proof.
  intros Ht Ho Hlen Hl. unfold ParseLoca, locaOffsets.
  erewrite bind_Ok by reflexivity. cbn [fst snd].
  erewrite bind_Ok by reflexivity. cbn [fst snd].
  change (indexToLocFormat (Set_.IsShortIndex false me))
    with (indexToLocFormat me).
  pose proof (Z.div_mod (Length e) 2 ltac:(lia)) as D2.
  pose proof (Z.mod_pos_bound (Length e) 2 ltac:(lia)) as M2.
  pose proof (Z.div_mod (Length e) 4 ltac:(lia)) as D4.
  pose proof (Z.mod_pos_bound (Length e) 4 ltac:(lia)) as M4.
  destruct (indexToLocFormat me =? 0).
  - erewrite bind_Ok by reflexivity. cbn [fst snd].
    erewrite bind_Ok by (apply Seek_at; [exact Ht | exact Ho]).
    erewrite bind_Ok by reflexivity. cbn [fst snd].
    change (tables _ !! "loca"%string) with (tables me !! "loca"%string).
    rewrite Ht. cbn [default from_option id IsShortIndex Set_.IsShortIndex].
    erewrite bind_Ok; cycle 1.
    { apply (read_loop ReadUShort 2 u16At (fun item => Int.mul item 2));
        [lia | intros; apply ReadUShort_at; lia | lia | lia]. }
    unfold assign. cbn [fst snd app].
    eexists _, _. split; [reflexivity|]. cbn.
    split; [reflexivity|]. split; [|reflexivity].
    apply map_ext_in. intros k Hk. apply in_seq in Hk.
    pose proof (u16At_range (fdata fd) (Offset e + 2 * Z.of_nat k)
                  ltac:(lia) ltac:(lia)) as Hr.
    unfold Int.mul. rewrite u64_small by (unfold Int.two64; lia). lia.
  - erewrite bind_Ok by reflexivity. cbn [fst snd].
    erewrite bind_Ok by (apply Seek_at; [exact Ht | exact Ho]).
    erewrite bind_Ok by reflexivity. cbn [fst snd].
    change (tables _ !! "loca"%string) with (tables me !! "loca"%string).
    rewrite Ht. cbn [default from_option id IsShortIndex Set_.IsShortIndex].
    erewrite bind_Ok; cycle 1.
    { apply (read_loop ReadULong 4 u32At (fun item => item));
        [lia | intros; apply ReadULong_at; lia | lia | lia]. }
    unfold assign. cbn [fst snd app].
    eexists _, _. split; [reflexivity|]. cbn.
    split; [reflexivity|]. split; reflexivity.
Qed.

Lemma ParseLoca_offsets_witness :
  tables (meTable "loca" 8) !! "loca"%string = Some (mkEntry 0 0 8)
  /\ 0 <= Offset (mkEntry 0 0 8) < Int.two63
  /\ 0 <= Length (mkEntry 0 0 8)
  /\ Offset (mkEntry 0 0 8) + Length (mkEntry 0 0 8)
     <= Z.of_nat (length (fdata (fdOf (Sample.loca [0; 10; 20; 30]))))
  /\ exists me' fd',
       ParseLoca (meTable "loca" 8, fdOf (Sample.loca [0; 10; 20; 30]))
       = (Ok tt, (me', fd'))
       /\ IsShortIndex me' = (indexToLocFormat (meTable "loca" 8) =? 0)
       /\ LocaTable me'
          = locaOffsets (fdata (fdOf (Sample.loca [0; 10; 20; 30])))
              (mkEntry 0 0 8) (indexToLocFormat (meTable "loca" 8))
       /\ tables me' = tables (meTable "loca" 8).
Proof.
  assert (tables (meTable "loca" 8) !! "loca"%string = Some (mkEntry 0 0 8))
    as H1 by (vm_compute; reflexivity).
  assert (0 <= Offset (mkEntry 0 0 8) < Int.two63) as H2
    by (unfold Int.two63; simpl; lia).
  assert (0 <= Length (mkEntry 0 0 8)) as H3 by (simpl; lia).
  assert (Offset (mkEntry 0 0 8) + Length (mkEntry 0 0 8)
          <= Z.of_nat (length (fdata (fdOf (Sample.loca [0; 10; 20; 30])))))
    as H4 by (vm_compute; discriminate).
  repeat (split; [assumption|]).
  exact (ParseLoca_offsets (meTable "loca" 8)
           (fdOf (Sample.loca [0; 10; 20; 30])) (mkEntry 0 0 8) H1 H2 H3 H4).
Defined.

Example ParseLoca_short_and_long :
  LocaTable (fst (snd (ParseLoca (meTable "loca" 8,
                                  fdOf (Sample.loca [0; 10; 20; 30])))))
  = [0; 20; 40; 60]
  /\ LocaTable (fst (snd (ParseLoca
       (Set_.indexToLocFormat 1 (meTable "loca" 8),
        fdOf (Sample.loca [0; 10; 20; 30])))))
     = [10; 1310750].
Proof. vm_compute. split; reflexivity. Qed.

(** ** More on the whole parse *)

Lemma wp_Seek_lookup (tag : string) (Q : unit -> TTFParser -> Prop) me :
  (present tag me -> Q tt me) -> wp (Seek tag) Q me.
Proof.
  intros H. unfold Seek. apply wp_bind, wp_getMe.
  destruct (tables me !! tag) as [e|] eqn:E.
  - apply wp_bind, wp_onFile. intros _. apply wp_ret, H.
    unfold present. rewrite E. eauto.
  - apply wp_fail.
Qed.

Lemma cleanName_no_zero (stmp : list byte) :
  x00 ∉ List.filter (fun v => negb (Byte.eqb v strconv_Itoa_0))
          (List.filter (fun v => negb (byteZ v =? 0)) stmp).
Proof.
  rewrite list_elem_of_In, !filter_In. intros [[_ H] _].
  vm_compute in H. discriminate H.
Qed.

Lemma wp_cleanName (stmp : list byte) (Q : list byte -> TTFParser -> Prop) me :
  (forall s, x00 ∉ s -> Q s me) -> wp (cleanName stmp) Q me.
Proof.
  intros H fd a s'. rewrite cleanName_eq. intros [= <- <-].
  apply H, cleanName_no_zero.
Qed.

Ltac more_solve :=
  unfold frameC, frameB, frameA, present in *; simpl in *;
  intuition (congruence || lia).

Lemma ParseHead_more me :
  wp ParseHead (fun _ me' => tables me' = tables me /\ present "head" me') me.
Proof.
  unfold ParseHead. apply wp_bind, wp_Seek_lookup. intros Hp.
  wp_steps. more_solve.
Qed.

Lemma ParseHhea_more me :
  wp ParseHhea
     (fun _ me' =>
        tables me' = tables me /\ indexToLocFormat me' = indexToLocFormat me
        /\ present "hhea" me' /\ -32768 <= ascender me' < 32768) me.
Proof.
  unfold ParseHhea. apply wp_bind, wp_Seek_lookup. intros Hp.
  wp_steps. more_solve.
Qed.

Lemma ParseMaxp_more me :
  wp ParseMaxp (fun _ me' => frameA me me' /\ present "maxp" me') me.
Proof.
  unfold ParseMaxp. apply wp_bind, wp_Seek_lookup. intros Hp.
  wp_steps. more_solve.
Qed.

Lemma ParseHmtx_more me : wp ParseHmtx (fun _ me' => frameA me me') me.
Proof.
  unfold ParseHmtx. wp_steps.
  apply (wp_for_keep (fun me' => frameA me me')).
  - more_solve.
  - intros ? ? ? _ ?. wp_steps. more_solve.
  - intros ? ? ?. unfold ArrayPadUint. wp_steps; more_solve.
Qed.

Lemma cmapCodepoint_more me0 (d ro c : Z) me :
  frameA me0 me -> wp (cmapCodepoint d ro c) (fun _ me' => frameA me0 me') me.
Proof. intros H. unfold cmapCodepoint. wp_steps; more_solve. Qed.

Lemma cmapSegment_more me0 (startCount endCount idDelta idRangeOffset : list Z)
    (offset i : Z) me :
  frameA me0 me ->
  wp (cmapSegment startCount endCount idDelta idRangeOffset offset i)
     (fun _ me' => frameA me0 me') me.
Proof.
  intros H. unfold cmapSegment.
  apply wp_bind, wp_index. intros c1 _.
  apply wp_bind, wp_index. intros c2 _.
  apply wp_bind, wp_index. intros d _.
  apply wp_bind, wp_index. intros ro _.
  apply wp_bind.
  assert (wp (for_ (Z.to_nat (c2 + 1 - c1)) c1 ()
                (fun c _ => cmapCodepoint d ro c);; ret (Continue ()))
             (fun _ me' => frameA me0 me') me) as Hloop.
  { apply wp_bind.
    apply (wp_for_keep (fun me' => frameA me0 me')); [exact H | |].
    - intros c a me' _ Hme. apply cmapCodepoint_more, Hme.
    - intros a me' Hme. apply wp_ret, Hme. }
  destruct (0 <? ro).
  - apply wp_bind, wp_onFile. intros _. apply wp_ret. exact Hloop.
  - apply wp_ret. exact Hloop.
Qed.

Lemma ParseCmap_more me : wp ParseCmap (fun _ me' => frameA me me') me.
Proof.
  unfold ParseCmap. wp_steps.
  apply (wp_for_keep (fun me' => frameA me me')).
  - more_solve.
  - intros ? ? ? _ ?. wp_steps; more_solve.
  - intros offset31 me' Hf. wp_steps.
    apply (wp_for_keep (fun me' => frameA me me')).
    + more_solve.
    + intros ? ? ? _ ?. apply cmapSegment_more. assumption.
    + intros ? ? ?. wp_steps. assumption.
Qed.

Lemma ParseName_more me :
  wp ParseName
     (fun _ me' => frameA me me' /\ present "name" me' /\ nameOK me') me.
Proof.
  unfold ParseName. apply wp_bind, wp_Seek_lookup. intros Hp.
  wp_steps.
  apply (wp_for_keep
           (fun me' => frameA me me' /\ present "name" me'
                       /\ x00 ∉ list_byte_of_string (postScriptName me'))).
  - split; [more_solve|]. split; [more_solve|]. simpl. apply not_elem_of_nil.
  - intros ? ? ? _ (Hf & Hpr & Hz). wp_steps.
    + apply wp_cleanName. intros s Hs. wp_steps.
      split; [more_solve|]. split; [more_solve|]. simpl.
      rewrite list_byte_of_string_of_list_byte. exact Hs.
    + split; [exact Hf|]. split; [exact Hpr | exact Hz].
  - intros ? ? (Hf & Hpr & Hz). wp_steps.
    split; [exact Hf|]. split; [exact Hpr|]. split; [|exact Hz].
    intros E. rewrite E in *. discriminate.
Qed.

Lemma ParseOS2_more me :
  wp ParseOS2
     (fun _ me' =>
        frameB me me' /\ present "OS/2" me'
        /\ 0 <= usWinAscent me' < 65536
        /\ (os2Version me' < 2 -> capHeight me' = ascender me')) me.
Proof.
  unfold ParseOS2. apply wp_bind, wp_Seek_lookup. intros Hp.
  wp_steps; (split; [more_solve|]); (split; [more_solve|]); simpl;
    (split; [lia|]); intros; try reflexivity; lia.
Qed.

Lemma ParsePost_more me :
  wp ParsePost (fun _ me' => frameC me me' /\ present "post" me') me.
Proof.
  unfold ParsePost. apply wp_bind, wp_Seek_lookup. intros Hp.
  wp_steps. more_solve.
Qed.

Lemma ParseLoca_more me :
  wp ParseLoca
     (fun _ me' =>
        frameC me me' /\ present "loca" me'
        /\ IsShortIndex me' = (indexToLocFormat me' =? 0)) me.
Proof.
  unfold ParseLoca. apply wp_bind, wp_assign. apply wp_bind, wp_getMe.
  set (P := fun me' : TTFParser =>
              frameC me me'
              /\ IsShortIndex me' = (indexToLocFormat me' =? 0)).
  assert (forall me1, P me1 ->
            wp (Seek "loca";;
                me0 <- getMe;;
                (let table := default zeroEntry (tables me0 !! "loca"%string) in
                 locaTable <-
                   (if IsShortIndex me0
                    then
                     let entries := Length table / 2 in
                     for_ (Z.to_nat entries) 0 []
                       (fun _ locaTable =>
                          item <- ReadUShort;;
                          ret (Continue (locaTable ++ [Int.mul item 2])))
                    else
                     let entries := Length table / 4 in
                     for_ (Z.to_nat entries) 0 []
                       (fun _ locaTable =>
                          item <- ReadULong;;
                          ret (Continue (locaTable ++ [item]))));;
                 assign (Set_.LocaTable locaTable)))
               (fun _ me' =>
                  frameC me me' /\ present "loca" me'
                  /\ IsShortIndex me' = (indexToLocFormat me' =? 0)) me1)
    as Hrest.
  { intros me1 [Hf Hi]. apply wp_bind, wp_Seek_lookup. intros Hp.
    wp_steps.
    all: apply (wp_for_keep (fun me' => me' = me1));
      [reflexivity | intros ? ? ? _ ->; wp_steps; reflexivity
      | intros ? ? ->; wp_steps; simpl; repeat split; more_solve]. }
  cbn [indexToLocFormat Set_.IsShortIndex].
  destruct (indexToLocFormat me =? 0) eqn:E.
  - apply wp_bind, wp_assign. apply Hrest. unfold P. simpl.
    split; [more_solve | symmetry; exact E].
  - apply wp_bind, wp_ret. apply Hrest. unfold P. simpl.
    split; [more_solve | symmetry; exact E].
Qed.

(** The table parsers in the order of [Parse], and the caching of the
    file, from the receiver that holds the directory. *)
Lemma parsers_parsedTables (content : list byte) me1 :
  wp (ParseHead ;; ParseHhea ;; ParseMaxp ;; ParseHmtx ;; ParseCmap ;;
      ParseName ;; ParseOS2 ;; ParsePost ;; ParseLoca ;;
      assignFrom Set_.cahceFontData [] (readFontData content))
     (fun _ me => parsedTables content me1 me) me1.
Proof.
  eapply wp_then; [apply ParseHead_more|]. intros [] m2 (T2 & P2).
  eapply wp_then; [apply ParseHhea_more|]. intros [] m3 (T3 & I3 & P3 & A3).
  eapply wp_then; [apply ParseMaxp_more|]. intros [] m4 (F4 & P4).
  eapply wp_then; [apply ParseHmtx_more|]. intros [] m5 F5.
  eapply wp_then; [apply ParseCmap_more|]. intros [] m6 F6.
  eapply wp_then; [apply ParseName_more|]. intros [] m7 (F7 & P7 & N7).
  eapply wp_then; [apply ParseOS2_more|]. intros [] m8 (F8 & P8 & W8 & C8).
  eapply wp_then; [apply ParsePost_more|]. intros [] m9 (F9 & P9).
  eapply wp_then; [apply ParseLoca_more|]. intros [] m10 (F10 & P10 & S10).
  unfold readFontData. wp_steps.
  assert (tables m10 = tables me1) as T by more_solve.
  assert (frameC m8 m10) as F by more_solve.
  assert (frameB m7 m10) as Fb by more_solve.
  unfold parsedTables. simpl.
  split; [exact T|].
  split; [|split; [reflexivity|split; [|split; [|split; [|split]]]]].
  - unfold checkedTags, present in *. simpl. rewrite T.
    assert (tables m2 = tables me1) as <- by exact T2.
    assert (tables m3 = tables m2) as E3 by exact T3.
    assert (tables m4 = tables m2) as E4 by more_solve.
    assert (tables m7 = tables m2) as E7 by more_solve.
    assert (tables m8 = tables m2) as E8 by more_solve.
    assert (tables m9 = tables m2) as E9 by more_solve.
    assert (tables m10 = tables m2) as E10 by more_solve.
    rewrite E3 in P3. rewrite E4 in P4. rewrite E7 in P7. rewrite E8 in P8.
    rewrite E9 in P9. rewrite E10 in P10.
    repeat constructor; assumption.
  - unfold nameOK in *. simpl.
    assert (postScriptName m10 = postScriptName m7) as -> by more_solve.
    exact N7.
  - more_solve.
  - exact S10.
  - assert (os2Version m10 = os2Version m8) as -> by more_solve.
    assert (capHeight m10 = capHeight m8) as -> by more_solve.
    assert (ascender m10 = ascender m8) as -> by more_solve.
    exact C8.
  - assert (ascender m10 = ascender m3) as -> by more_solve.
    exact A3.
Qed.

(** ** The header and the directory *)

Lemma bind_Ok_inv {A B} (m : M A) (k : A -> M B) (s s' : State) (b : B) :
  (x <- m ;; k x) s = (Ok b, s') ->
  exists a s1, m s = (Ok a, s1) /\ k a s1 = (Ok b, s').
Proof.
  unfold bind. destruct (m s) as [[a|e|] s1]; try discriminate.
  intros E. exists a, s1. auto.
Qed.

Lemma Read_Ok_at me (data : list byte) (pos n : Z) (buff : list byte)
    (s' : State) :
  0 <= pos -> 0 < n ->
  Read n (me, mkFile data pos) = (Ok buff, s') ->
  buff = bytesAt data pos n
  /\ s' = (me, mkFile data (pos + n))
  /\ pos + n <= Z.of_nat (length data).
Proof.
  intros Hp Hn E.
  destruct (Z.le_gt_cases (pos + n) (Z.of_nat (length data))) as [Hl|Hl].
  - rewrite Read_at in E by lia. injection E as <- <-. auto.
  - exfalso.
    destruct (Z.le_gt_cases (Z.of_nat (length data)) pos).
    + rewrite Read_at_end in E by lia. discriminate.
    + rewrite Read_past_end in E by lia. discriminate.
Qed.

Lemma ReadUShort_Ok_at me (data : list byte) (pos v : Z) (s' : State) :
  0 <= pos ->
  ReadUShort (me, mkFile data pos) = (Ok v, s') ->
  v = u16At data pos /\ s' = (me, mkFile data (pos + 2))
  /\ pos + 2 <= Z.of_nat (length data).
Proof.
  intros Hp E. unfold ReadUShort in E.
  apply bind_Ok_inv in E as (buff & s1 & E1 & E2).
  apply Read_Ok_at in E1 as (-> & -> & Hl); [|lia|lia].
  injection E2 as <- <-. auto.
Qed.

Lemma ReadULong_Ok_at me (data : list byte) (pos v : Z) (s' : State) :
  0 <= pos ->
  ReadULong (me, mkFile data pos) = (Ok v, s') ->
  v = u32At data pos /\ s' = (me, mkFile data (pos + 4))
  /\ pos + 4 <= Z.of_nat (length data).
Proof.
  intros Hp E. unfold ReadULong in E.
  apply bind_Ok_inv in E as (buff & s1 & E1 & E2).
  apply Read_Ok_at in E1 as (-> & -> & Hl); [|lia|lia].
  injection E2 as <- <-. auto.
Qed.

(** The directory loop of [Parse]: when it ends without error, the
    records have been inserted in file order and the cursor is behind the
    last one. *)
Lemma directory_loop (n : nat) : forall me (data : list byte) (pos i : Z)
    (s' : State),
  0 <= pos ->
  for_ n i tt (fun _ _ =>
      tag <- Read 4 ;;
      checksum <- ReadULong ;;
      offset <- ReadULong ;;
      length <- ReadULong ;;
      let table := mkEntry checksum offset length in
      assign (fun me =>
        Set_.tables (<[BytesToString tag := table]> (tables me)) me) ;;
      ret (Continue tt)) (me, mkFile data pos) = (Ok tt, s') ->
  tables (fst s') = dirTables n data pos (tables me)
  /\ snd s' = mkFile data (pos + 16 * Z.of_nat n)
  /\ pos + 16 * Z.of_nat n <= Z.max pos (Z.of_nat (length data)).
Proof.
  induction n as [|n IH]; intros me data pos i s' Hp E.
  - injection E as <-. simpl. repeat split; [f_equal; lia | lia].
  - cbn [for_] in E.
    apply bind_Ok_inv in E as (r & s1 & E1 & E2).
    apply bind_Ok_inv in E1 as (tag & s2 & Et & E1).
    apply Read_Ok_at in Et as (-> & -> & Ht); [|lia|lia].
    apply bind_Ok_inv in E1 as (c & s3 & Ec & E1).
    apply ReadULong_Ok_at in Ec as (-> & -> & Hc); [|lia].
    apply bind_Ok_inv in E1 as (o & s4 & Eo & E1).
    apply ReadULong_Ok_at in Eo as (-> & -> & Ho); [|lia].
    apply bind_Ok_inv in E1 as (l & s5 & El & E1).
    apply ReadULong_Ok_at in El as (-> & -> & Hl); [|lia].
    cbv zeta in E1. injection E1 as <- <-.
    cbn [fst snd] in E2.
    apply IH in E2 as (Ht' & Hs & Hb); [|lia].
    cbn [dirTables]. unfold dirTag, dirEntry.
    replace (pos + 4 + 4 + 4 + 4) with (pos + 16) in * by lia.
    replace (pos + 4 + 4) with (pos + 8) in * by lia.
    replace (pos + 8 + 4) with (pos + 12) in * by lia.
    split; [exact Ht'|]. split; [rewrite Hs; f_equal; lia | lia].
Qed.

(** An entry of the directory: the last record of a tag wins, and a tag
    that no record carries keeps what the map held. *)
Lemma dirTables_other (n : nat) : forall (data : list byte) (pos : Z)
    (t : gmap string TableDirectoryEntry) (tag : string),
  (forall k, (k < n)%nat -> dirTag data (pos + 16 * Z.of_nat k) <> tag) ->
  dirTables n data pos t !! tag = t !! tag.
Proof.
  induction n as [|n IH]; intros data pos t tag H; [reflexivity|].
  cbn [dirTables]. rewrite IH.
  - apply lookup_insert_ne. specialize (H 0%nat ltac:(lia)).
    replace (pos + 16 * Z.of_nat 0) with pos in H by lia. exact H.
  - intros k Hk. specialize (H (S k) ltac:(lia)).
    replace (pos + 16 + 16 * Z.of_nat k) with (pos + 16 * Z.of_nat (S k)) by lia.
    exact H.
Qed.

(** In the directory that the records build, the entry of a tag is the
    one of the last record that carries the tag. *)
Lemma dirTables_last (n : nat) : forall (data : list byte) (pos : Z)
    (t : gmap string TableDirectoryEntry) (k : nat),
  (k < n)%nat ->
  (forall j, (k < j < n)%nat ->
     dirTag data (pos + 16 * Z.of_nat j) <> dirTag data (pos + 16 * Z.of_nat k)) ->
  dirTables n data pos t !! dirTag data (pos + 16 * Z.of_nat k)
  = Some (dirEntry data (pos + 16 * Z.of_nat k)).
Proof.
  induction n as [|n IH]; intros data pos t k Hk H; [lia|].
  cbn [dirTables]. destruct k as [|k].
  - replace (pos + 16 * Z.of_nat 0) with pos in * by lia.
    rewrite dirTables_other; [apply lookup_insert_eq|].
    intros j Hj. specialize (H (S j) ltac:(lia)).
    replace (pos + 16 + 16 * Z.of_nat j) with (pos + 16 * Z.of_nat (S j)) by lia.
    exact H.
  - replace (pos + 16 * Z.of_nat (S k)) with (pos + 16 + 16 * Z.of_nat k) by lia.
    apply IH; [lia|].
    intros j Hj. specialize (H (S j) ltac:(lia)).
    replace (pos + 16 * Z.of_nat (S j)) with (pos + 16 + 16 * Z.of_nat j) in H by lia.
    replace (pos + 16 * Z.of_nat (S k)) with (pos + 16 + 16 * Z.of_nat k) in H by lia.
    exact H.
Qed.

(** The whole parse, split at the directory. *)
Lemma Parse_parsedTables (content : list byte) (me0 me : TTFParser) :
  Parse (Some content) me0 = (Ok tt, me) ->
  bytesAt content 0 4 = [x00; x01; x00; x00]
  /\ exists me1,
       tables me1 = dirTables (Z.to_nat (u16At content 4)) content 12 ∅
       /\ parsedTables content me1 me.
Proof.
  unfold Parse. intros E.
  destruct (ParseOpened content (me0, mkFile content 0)) as [r s] eqn:Es.
  injection E as -> <-. unfold ParseOpened in Es.
  apply bind_Ok_inv in Es as (version & s1 & Ev & Es).
  apply Read_Ok_at in Ev as (-> & -> & Hv); [|lia|lia].
  destruct (CompareBytes (bytesAt content 0 4) [x00; x01; x00; x00]) eqn:Ec;
    [|discriminate].
  apply CompareBytes_true in Ec. split; [exact Ec|]. cbn [negb] in Es.
  apply bind_Ok_inv in Es as (numTables & s2 & En & Es).
  apply ReadUShort_Ok_at in En as (-> & -> & Hn); [|lia].
  apply bind_Ok_inv in Es as (u & s3 & Ed & Es).
  unfold discard in Ed. rewrite Skip_at in Ed by lia. injection Ed as <- <-.
  apply bind_Ok_inv in Es as (u' & s4 & Ea & Es). injection Ea as <- <-.
  apply bind_Ok_inv in Es as (u'' & s5 & El & Es).
  cbn [fst snd] in El. destruct u''.
  apply directory_loop in El as (Ht & Hs & _); [|lia].
  destruct s5 as [me1 fd1]. cbn [fst snd] in *.
  exists me1. split.
  - rewrite Ht. f_equal.
  - exact (parsers_parsedTables content me1 fd1 _ _ Es).
Qed.

(** X12: a duplicate tag in the directory overwrites the earlier entry.
    After a successful parse the entry of the tag of the record [k] is
    the record [k] itself (checksum, offset and length at the offsets 4,
    8 and 12 of the record) when no later record carries the same tag. *)
Theorem Parse_last_record_wins (content : list byte) (me0 me : TTFParser)
    (k : nat) :
  Parse (Some content) me0 = (Ok tt, me) ->
  (k < Z.to_nat (u16At content 4))%nat ->
  (forall j, (k < j < Z.to_nat (u16At content 4))%nat ->
     dirTag content (12 + 16 * Z.of_nat j)
     <> dirTag content (12 + 16 * Z.of_nat k)) ->
  tables me !! dirTag content (12 + 16 * Z.of_nat k)
  = Some (dirEntry content (12 + 16 * Z.of_nat k)).
Proof.
  intros E Hk Hj. apply Parse_parsedTables in E as (_ & me1 & Ht & Hp & _).
  rewrite Hp, Ht. apply dirTables_last; assumption.
Qed.

Lemma Parse_last_record_wins_witness :
  Parse (Some fontTwoMaxp) zeroTTFParser = (Ok tt, parsedTwoMaxp)
  /\ (3 < Z.to_nat (u16At fontTwoMaxp 4))%nat
  /\ (forall j, (3 < j < Z.to_nat (u16At fontTwoMaxp 4))%nat ->
        dirTag fontTwoMaxp (12 + 16 * Z.of_nat j)
        <> dirTag fontTwoMaxp (12 + 16 * Z.of_nat 3))
  /\ tables parsedTwoMaxp !! dirTag fontTwoMaxp (12 + 16 * Z.of_nat 3)
     = Some (dirEntry fontTwoMaxp (12 + 16 * Z.of_nat 3)).
Proof.
  assert (Parse (Some fontTwoMaxp) zeroTTFParser = (Ok tt, parsedTwoMaxp)) as H1
    by (vm_compute; reflexivity).
  assert (Z.to_nat (u16At fontTwoMaxp 4) = 10%nat) as En
    by (vm_compute; reflexivity).
  assert ((3 < Z.to_nat (u16At fontTwoMaxp 4))%nat) as H2 by (rewrite En; lia).
  assert (forall j, (3 < j < Z.to_nat (u16At fontTwoMaxp 4))%nat ->
            dirTag fontTwoMaxp (12 + 16 * Z.of_nat j)
            <> dirTag fontTwoMaxp (12 + 16 * Z.of_nat 3)) as H3.
  { intros j Hj. rewrite En in Hj.
    assert (j = 4 \/ j = 5 \/ j = 6 \/ j = 7 \/ j = 8 \/ j = 9)%nat
      as Hc by lia.
    destruct Hc as [->|[->|[->|[->|[->| ->]]]]]; vm_compute; discriminate. }
  repeat (split; [assumption|]).
  exact (Parse_last_record_wins fontTwoMaxp zeroTTFParser parsedTwoMaxp 3
           H1 H2 H3).
Defined.

(** Of the two maxp records of the sample the second is kept, and with it
    the glyph count 3 of the second maxp table. *)
Example Parse_two_maxp :
  dirTag fontTwoMaxp 12 = "maxp"%string
  /\ dirTag fontTwoMaxp (12 + 16 * 3) = "maxp"%string
  /\ numGlyphs parsedTwoMaxp = 3.
Proof. vm_compute. repeat split; reflexivity. Qed.

(** X13: after a successful parse the file starts with the sfnt version
    00 01 00 00 and the directory is the map built from the numTables
    records that follow the 12-byte header, whatever the directory of the
    parser was before. *)
Theorem Parse_directory (content : list byte) (me0 me : TTFParser) :
  Parse (Some content) me0 = (Ok tt, me) ->
  bytesAt content 0 4 = [x00; x01; x00; x00]
  /\ tables me = dirTables (Z.to_nat (u16At content 4)) content 12 ∅.
Proof.
  intros E. apply Parse_parsedTables in E as (Hv & me1 & Ht & Hp & _).
  split; [exact Hv | congruence].
Qed.

Lemma Parse_directory_witness :
  Parse (Some Sample.fontA) (meTable "glyf" 7) = (Ok tt, parsedA)
  /\ bytesAt Sample.fontA 0 4 = [x00; x01; x00; x00]
  /\ tables parsedA
     = dirTables (Z.to_nat (u16At Sample.fontA 4)) Sample.fontA 12 ∅.
Proof.
  assert (Parse (Some Sample.fontA) (meTable "glyf" 7) = (Ok tt, parsedA)) as H
    by (vm_compute; reflexivity).
  split; [exact H|].
  exact (Parse_directory Sample.fontA (meTable "glyf" 7) parsedA H).
Defined.

(** X14: a successful parse implies that the directory holds the seven
    tables whose lookup is checked: head, hhea, maxp, name, OS/2, post and
    loca. *)
Theorem Parse_checked_tables (content : list byte) (me0 me : TTFParser) :
  Parse (Some content) me0 = (Ok tt, me) ->
  forall tag, tag ∈ checkedTags -> is_Some (tables me !! tag).
Proof.
  intros E. apply Parse_parsedTables in E as (_ & me1 & _ & _ & Hp & _).
  rewrite Forall_forall in Hp. exact Hp.
Qed.

Lemma Parse_checked_tables_witness :
  Parse (Some Sample.fontNoHmtx) zeroTTFParser = (Ok tt, parsedNoHmtx)
  /\ forall tag, tag ∈ checkedTags -> is_Some (tables parsedNoHmtx !! tag).
Proof.
  assert (Parse (Some Sample.fontNoHmtx) zeroTTFParser = (Ok tt, parsedNoHmtx))
    as H by (vm_compute; reflexivity).
  split; [exact H|].
  exact (Parse_checked_tables Sample.fontNoHmtx zeroTTFParser parsedNoHmtx H).
Defined.

(** X15: after a successful parse [FontData] returns the whole content of
    the file. *)
Theorem Parse_FontData (content : list byte) (me0 me : TTFParser) :
  Parse (Some content) me0 = (Ok tt, me) -> FontData me = content.
Proof.
  intros E. apply Parse_parsedTables in E as (_ & me1 & _ & _ & _ & Hd & _).
  exact Hd.
Qed.

Lemma Parse_FontData_witness :
  Parse (Some Sample.fontA) zeroTTFParser = (Ok tt, parsedA)
  /\ FontData parsedA = Sample.fontA.
Proof.
  assert (Parse (Some Sample.fontA) zeroTTFParser = (Ok tt, parsedA)) as H
    by (vm_compute; reflexivity).
  split; [exact H|].
  exact (Parse_FontData Sample.fontA zeroTTFParser parsedA H).
Defined.

(** X16: after a successful parse the PostScript name is not empty and
    holds no zero byte. *)
Theorem Parse_postScriptName (content : list byte) (me0 me : TTFParser) :
  Parse (Some content) me0 = (Ok tt, me) ->
  postScriptName me <> EmptyString
  /\ x00 ∉ list_byte_of_string (postScriptName me).
Proof.
  intros E. apply Parse_parsedTables in E as (_ & me1 & _ & _ & _ & _ & Hn & _).
  exact Hn.
Qed.

Lemma Parse_postScriptName_witness :
  Parse (Some Sample.fontA) zeroTTFParser = (Ok tt, parsedA)
  /\ postScriptName parsedA <> EmptyString
  /\ x00 ∉ list_byte_of_string (postScriptName parsedA).
Proof.
  assert (Parse (Some Sample.fontA) zeroTTFParser = (Ok tt, parsedA)) as H
    by (vm_compute; reflexivity).
  split; [exact H|].
  exact (Parse_postScriptName Sample.fontA zeroTTFParser parsedA H).
Defined.

(** X17: after a successful parse [Ascender] returns the hhea ascender
    when typoAscender is 0 and usWinAscent, as it is, otherwise. *)
Theorem Ascender_parsed (content : list byte) (me0 me : TTFParser) :
  Parse (Some content) me0 = (Ok tt, me) ->
  Ascender me = if typoAscender me =? 0 then ascender me else usWinAscent me.
Proof.
  intros E.
  apply Parse_parsedTables in E as (_ & me1 & _ & _ & _ & _ & _ & Hw & _).
  unfold Ascender. destruct (typoAscender me =? 0); [reflexivity|].
  apply int64_of_uint64_small. unfold Int.two63. lia.
Qed.

Lemma Ascender_parsed_witness :
  Parse (Some Sample.fontA) zeroTTFParser = (Ok tt, parsedA)
  /\ Ascender parsedA
     = if typoAscender parsedA =? 0 then ascender parsedA
       else usWinAscent parsedA.
Proof.
  assert (Parse (Some Sample.fontA) zeroTTFParser = (Ok tt, parsedA)) as H
    by (vm_compute; reflexivity).
  split; [exact H|].
  exact (Ascender_parsed Sample.fontA zeroTTFParser parsedA H).
Defined.

Example Ascender_fontA : Ascender parsedA = 850 /\ ascender parsedA = 800.
Proof. vm_compute. split; reflexivity. Qed.

(** X18: after a successful parse the short-index flag is set exactly when
    indexToLocFormat is 0, and for an OS/2 table of a version below 2
    [CapHeight] is the hhea ascender. *)
Theorem Parse_index_and_capHeight (content : list byte) (me0 me : TTFParser) :
  Parse (Some content) me0 = (Ok tt, me) ->
  IsShortIndex me = (indexToLocFormat me =? 0)
  /\ (os2Version me < 2 -> CapHeight me = ascender me).
Proof.
  intros E.
  apply Parse_parsedTables in E as (_ & me1 & _ & _ & _ & _ & _ & _ & Hs & Hc & _).
  split; [exact Hs | exact Hc].
Qed.

Lemma Parse_index_and_capHeight_witness :
  Parse (Some Sample.fontA) zeroTTFParser = (Ok tt, parsedA)
  /\ IsShortIndex parsedA = (indexToLocFormat parsedA =? 0)
  /\ (os2Version parsedA < 2 -> CapHeight parsedA = ascender parsedA).
Proof.
  assert (Parse (Some Sample.fontA) zeroTTFParser = (Ok tt, parsedA)) as H
    by (vm_compute; reflexivity).
  split; [exact H|].
  exact (Parse_index_and_capHeight Sample.fontA zeroTTFParser parsedA H).
Defined.

(** X19: a file of at least four bytes that does not start with
    00 01 00 00 is refused with the unrecognized-format error before
    anything is assigned; a path that cannot be opened gives the error of
    the opening, an empty file io.EOF. *)
Theorem Parse_unrecognized (content : list byte) (me : TTFParser) :
  4 <= Z.of_nat (length content) ->
  bytesAt content 0 4 <> [x00; x01; x00; x00] ->
  Parse (Some content) me = (Err ErrUnrecognizedFormat, me)
  /\ Parse None me = (Err ErrOpen, me)
  /\ Parse (Some []) me = (Err ErrEOF, me).
Proof.
  intros Hl Hv. split; [|split; reflexivity].
  unfold Parse, ParseOpened.
  erewrite bind_Ok by (apply Read_at; lia).
  destruct (CompareBytes (bytesAt content 0 4) [x00; x01; x00; x00]) eqn:Ec.
  - apply CompareBytes_true in Ec. contradiction.
  - reflexivity.
Qed.

Lemma Parse_unrecognized_witness :
  4 <= Z.of_nat (length (list_byte_of_string "OTTO tables"))
  /\ bytesAt (list_byte_of_string "OTTO tables") 0 4 <> [x00; x01; x00; x00]
  /\ Parse (Some (list_byte_of_string "OTTO tables")) parsedA
     = (Err ErrUnrecognizedFormat, parsedA)
  /\ Parse None parsedA = (Err ErrOpen, parsedA)
  /\ Parse (Some []) parsedA = (Err ErrEOF, parsedA).
Proof.
  assert (4 <= Z.of_nat (length (list_byte_of_string "OTTO tables"))) as H1
    by (vm_compute; discriminate).
  assert (bytesAt (list_byte_of_string "OTTO tables") 0 4
          <> [x00; x01; x00; x00]) as H2 by (vm_compute; discriminate).
  split; [exact H1|]. split; [exact H2|].
  exact (Parse_unrecognized (list_byte_of_string "OTTO tables") parsedA H1 H2).
Defined.

(** ** Missing tables and names *)

(** X20: each of the seven parsers that check the result of [Seek] fails
    with the missing-table error of its tag, without moving the cursor,
    when the directory lacks the tag. *)
Theorem checked_parser_missing (tag : string) (p : M unit) me (fd : File) :
  (tag, p) ∈ checkedParsers ->
  tables me !! tag = None ->
  fst (p (me, fd)) = Err (ErrTableNotFound tag)
  /\ snd (snd (p (me, fd))) = fd.
Proof.
  intros Hin Hn. unfold checkedParsers in Hin.
  repeat (apply elem_of_cons in Hin as [[= -> ->]|Hin]);
    [ unfold ParseHead | unfold ParseHhea | unfold ParseMaxp
    | unfold ParseName | unfold ParseOS2 | unfold ParsePost | | ];
    try (erewrite bind_Err by (apply Seek_missing, Hn); split; reflexivity).
  - unfold ParseLoca.
    erewrite bind_Ok by reflexivity. cbn [fst snd].
    erewrite bind_Ok by reflexivity. cbn [fst snd].
    change (indexToLocFormat (Set_.IsShortIndex false me))
      with (indexToLocFormat me).
    destruct (indexToLocFormat me =? 0);
      erewrite bind_Ok by reflexivity; cbn [fst snd];
      (erewrite bind_Err by (apply Seek_missing; exact Hn));
      split; reflexivity.
  - apply elem_of_nil in Hin. contradiction.
Qed.

Lemma checked_parser_missing_witness :
  ("OS/2"%string, ParseOS2) ∈ checkedParsers
  /\ tables (meTable "head" 52) !! "OS/2"%string = None
  /\ fst (ParseOS2 (meTable "head" 52, fdOf Sample.headA))
     = Err (ErrTableNotFound "OS/2")
  /\ snd (snd (ParseOS2 (meTable "head" 52, fdOf Sample.headA)))
     = fdOf Sample.headA.
Proof.
  assert (("OS/2"%string, ParseOS2) ∈ checkedParsers) as H1
    by (unfold checkedParsers; rewrite !elem_of_cons;
        repeat first [left; reflexivity | right]).
  assert (tables (meTable "head" 52) !! "OS/2"%string = None) as H2
    by (vm_compute; reflexivity).
  split; [exact H1|]. split; [exact H2|].
  exact (checked_parser_missing "OS/2" ParseOS2 (meTable "head" 52)
           (fdOf Sample.headA) H1 H2).
Defined.

Lemma FTell_at me (data : list byte) (pos : Z) :
  0 <= pos < Int.two64 ->
  FTell (me, mkFile data pos) = (Ok pos, (me, mkFile data pos)).
Proof.
  intros Hp. unfold FTell, bind, onFile, os_Seek, ret. simpl.
  destruct (Z.ltb_spec (pos + 0) 0); [lia|].
  unfold Int.uint64_of_int64. rewrite u64_small by lia.
  repeat f_equal; lia.
Qed.

(** The record loop of [ParseName] over [n] records none of which is a
    PostScript name: nothing is assigned. *)
Lemma name_loop_none (tableOffset stringOffset : Z) (n : nat) :
  forall me (data : list byte) (pos i : Z),
    0 <= pos ->
    pos + 12 * Z.of_nat n <= Z.of_nat (length data) ->
    (forall k, (k < n)%nat -> u16At data (pos + 12 * Z.of_nat k + 6) <> 6) ->
    for_ n i tt (fun _ _ =>
        Skip (3 * 2) ;;
        nameID <- ReadUShort ;;
        length <- ReadUShort ;;
        offset <- ReadUShort ;;
        if nameID =? 6 then
          _ <- onFile (os_Seek
                 (Int.int64_of_uint64
                    (Int.add (Int.add tableOffset stringOffset) offset)) 0) ;;
          stmp <- Read (Int.int_of_uint64 length) ;;
          s <- cleanName stmp ;;
          assign (Set_.postScriptName (string_of_list_byte s)) ;;
          ret (Break tt)
        else ret (Continue tt)) (me, mkFile data pos)
    = (Ok tt, (me, mkFile data (pos + 12 * Z.of_nat n))).
Proof.
  induction n as [|n IH]; intros me data pos i Hp Hl Hk.
  - simpl. unfold ret. repeat f_equal. lia.
  - cbn [for_].
    erewrite bind_Ok; cycle 1.
    { do 4 run1.
      specialize (Hk 0%nat ltac:(lia)).
      replace (pos + 12 * Z.of_nat 0 + 6) with (pos + 3 * 2) in Hk by lia.
      destruct (Z.eqb_spec (u16At data (pos + 3 * 2)) 6); [contradiction|].
      reflexivity. }
    cbn [fst snd]. rewrite IH.
    + do 3 f_equal. lia.
    + lia.
    + lia.
    + intros k Hlt. specialize (Hk (S k) ltac:(lia)).
      replace (pos + 3 * 2 + 2 + 2 + 2 + 12 * Z.of_nat k + 6)
        with (pos + 12 * Z.of_nat (S k) + 6) by lia.
      exact Hk.
Qed.

(** X21: on a file that holds the header and the records of a name table
    no record of which has the nameID 6, [ParseName] fails with the
    PostScript-name-not-found error and leaves the name empty. *)
Theorem ParseName_not_found me (fd : File) (e : TableDirectoryEntry) :
  tables me !! "name"%string = Some e ->
  0 <= Offset e < Int.two63 ->
  Offset e + 6 <= Z.of_nat (length (fdata fd)) ->
  Offset e + 6 + 12 * u16At (fdata fd) (Offset e + 2)
  <= Z.of_nat (length (fdata fd)) ->
  (forall k, 0 <= k < u16At (fdata fd) (Offset e + 2) ->
     nameIDAt (fdata fd) (Offset e) k <> 6) ->
  exists fd',
    ParseName (me, fd)
    = (Err ERROR_POSTSCRIPT_NAME_NOT_FOUND,
       (Set_.postScriptName EmptyString me, fd')).
Proof.
  intros Ht Ho Hl6 Hl Hk. unfold ParseName.
  pose proof (u16At_range (fdata fd) (Offset e + 2) ltac:(lia) ltac:(lia)) as Hc.
  run1.
  erewrite bind_Ok by (apply FTell_at; unfold Int.two63, Int.two64 in *; lia).
  do 4 run1.
  assert (Int.int_of_uint64 (u16At (fdata fd) (Offset e + 2))
          = u16At (fdata fd) (Offset e + 2)) as Ei
    by (apply int64_of_uint64_small; unfold Int.two63; lia).
  erewrite bind_Ok; cycle 1.
  { apply name_loop_none.
    - lia.
    - rewrite Ei. lia.
    - intros k Hlt. rewrite Ei in Hlt.
      specialize (Hk (Z.of_nat k) ltac:(lia)). unfold nameIDAt in Hk.
      replace (Offset e + 2 + 2 + 2 + 12 * Z.of_nat k + 6)
        with (Offset e + 6 + 12 * Z.of_nat k + 6) by lia.
      exact Hk. }
  erewrite bind_Ok by reflexivity. cbn [fst snd].
  eexists. reflexivity.
Qed.

Lemma ParseName_not_found_witness :
  tables (meTable "name" 34) !! "name"%string = Some (mkEntry 0 0 34)
  /\ 0 <= Offset (mkEntry 0 0 34) < Int.two63
  /\ Offset (mkEntry 0 0 34) + 6 <= Z.of_nat (length (fdata (fdOf nameNoPS)))
  /\ Offset (mkEntry 0 0 34) + 6
     + 12 * u16At (fdata (fdOf nameNoPS)) (Offset (mkEntry 0 0 34) + 2)
     <= Z.of_nat (length (fdata (fdOf nameNoPS)))
  /\ (forall k,
        0 <= k < u16At (fdata (fdOf nameNoPS)) (Offset (mkEntry 0 0 34) + 2) ->
        nameIDAt (fdata (fdOf nameNoPS)) (Offset (mkEntry 0 0 34)) k <> 6)
  /\ exists fd',
       ParseName (meTable "name" 34, fdOf nameNoPS)
       = (Err ERROR_POSTSCRIPT_NAME_NOT_FOUND,
          (Set_.postScriptName EmptyString (meTable "name" 34), fd')).
Proof.
  assert (tables (meTable "name" 34) !! "name"%string = Some (mkEntry 0 0 34))
    as H1 by (vm_compute; reflexivity).
  assert (0 <= Offset (mkEntry 0 0 34) < Int.two63) as H2
    by (unfold Int.two63; simpl; lia).
  assert (Offset (mkEntry 0 0 34) + 6
          <= Z.of_nat (length (fdata (fdOf nameNoPS)))) as H3
    by (vm_compute; discriminate).
  assert (Offset (mkEntry 0 0 34) + 6
          + 12 * u16At (fdata (fdOf nameNoPS)) (Offset (mkEntry 0 0 34) + 2)
          <= Z.of_nat (length (fdata (fdOf nameNoPS)))) as H4
    by (vm_compute; discriminate).
  assert (forall k,
            0 <= k < u16At (fdata (fdOf nameNoPS)) (Offset (mkEntry 0 0 34) + 2) ->
            nameIDAt (fdata (fdOf nameNoPS)) (Offset (mkEntry 0 0 34)) k <> 6)
    as H5.
  { intros k Hk.
    assert (u16At (fdata (fdOf nameNoPS)) (Offset (mkEntry 0 0 34) + 2) = 2)
      as E by (vm_compute; reflexivity).
    rewrite E in Hk.
    assert (k = 0 \/ k = 1) as [-> | ->] by lia; vm_compute; discriminate. }
  repeat (split; [assumption|]).
  exact (ParseName_not_found (meTable "name" 34) (fdOf nameNoPS)
           (mkEntry 0 0 34) H1 H2 H3 H4 H5).
Defined.

(** A PostScript name that the cleaning empties is reported as missing
    too. *)
Example ParseName_emptied :
  fst (ParseName (meTable "name" 21, fdOf nameZeros))
  = Err ERROR_POSTSCRIPT_NAME_NOT_FOUND.
Proof. vm_compute. reflexivity. Qed.

(** ** The encoding records of cmap *)

Lemma cmapOffset31_none (n : nat) : forall (data : list byte) (pos acc : Z),
  (forall k, (k < n)%nat ->
     ~ (u16At data (pos + 8 * Z.of_nat k) = 3
        /\ u16At data (pos + 8 * Z.of_nat k + 2) = 1)) ->
  cmapOffset31 n data pos acc = acc.
Proof.
  induction n as [|n IH]; intros data pos acc H; [reflexivity|].
  cbn [cmapOffset31]. rewrite IH.
  - specialize (H 0%nat ltac:(lia)).
    replace (pos + 8 * Z.of_nat 0) with pos in H by lia.
    destruct (Z.eqb_spec (u16At data pos) 3);
      destruct (Z.eqb_spec (u16At data (pos + 2)) 1); try reflexivity.
    exfalso. apply H. auto.
  - intros k Hk. specialize (H (S k) ltac:(lia)).
    replace (pos + 8 + 8 * Z.of_nat k) with (pos + 8 * Z.of_nat (S k)) by lia.
    exact H.
Qed.

(** The record loop of [ParseCmap] on a file that holds the records. *)
Lemma cmap_records_loop (n : nat) : forall me (data : list byte)
    (pos i acc : Z),
  0 <= pos -> pos + 8 * Z.of_nat n <= Z.of_nat (length data) ->
  for_ n i acc (fun _ offset31 =>
      platformID <- ReadUShort ;;
      encodingID <- ReadUShort ;;
      offset <- ReadULong ;;
      assign (Set_.symbol false) ;;
      if (platformID =? 3) && (encodingID =? 1) then
        (if encodingID =? 0 then assign (Set_.symbol true) else ret tt) ;;
        ret (Continue offset)
      else ret (Continue offset31)) (me, mkFile data pos)
  = (Ok (cmapOffset31 n data pos acc),
     (match n with O => me | S _ => Set_.symbol false me end,
      mkFile data (pos + 8 * Z.of_nat n))).
Proof.
  induction n as [|n IH]; intros me data pos i acc Hp Hl.
  - simpl. unfold ret. do 3 f_equal. lia.
  - cbn [for_ cmapOffset31].
    rewrite (bind_Ok _ _ _
               (Set_.symbol false me, mkFile data (pos + 8))
               (Continue (if (u16At data pos =? 3) && (u16At data (pos + 2) =? 1)
                          then u32At data (pos + 4) else acc))); cycle 1.
    { do 4 run1.
      replace (pos + 2 + 2 + 4) with (pos + 8) by lia.
      replace (pos + 2 + 2) with (pos + 4) by lia.
      destruct (Z.eqb_spec (u16At data pos) 3);
        destruct (Z.eqb_spec (u16At data (pos + 2)) 1); cbn [andb];
        try reflexivity.
      destruct (Z.eqb_spec (u16At data (pos + 2)) 0); [lia|].
      erewrite bind_Ok by reflexivity. reflexivity. }
    rewrite IH by lia. f_equal. f_equal.
    + destruct n; reflexivity.
    + f_equal. lia.
Qed.

(** X22: on a file that holds the header and the encoding records of a
    cmap table none of which is of platform 3 with encoding 1,
    [ParseCmap] fails with the no-Unicode-encoding error; the character
    map is not touched. *)
Theorem ParseCmap_no_unicode me (fd : File) (e : TableDirectoryEntry) :
  tables me !! "cmap"%string = Some e ->
  0 <= Offset e < Int.two63 ->
  Offset e + 4 <= Z.of_nat (length (fdata fd)) ->
  Offset e + 4 + 8 * u16At (fdata fd) (Offset e + 2)
  <= Z.of_nat (length (fdata fd)) ->
  (forall k, 0 <= k < u16At (fdata fd) (Offset e + 2) ->
     ~ (platformAt (fdata fd) (Offset e) k = 3
        /\ encodingAt (fdata fd) (Offset e) k = 1)) ->
  exists me' fd',
    ParseCmap (me, fd) = (Err ERROR_NO_UNICODE_ENCODING_FOUND, (me', fd'))
    /\ chars me' = chars me.
Proof.
  intros Ht Ho Hl4 Hl Hk. unfold ParseCmap.
  pose proof (u16At_range (fdata fd) (Offset e + 2) ltac:(lia) ltac:(lia)) as Hc.
  erewrite bind_Ok; cycle 1.
  { unfold discard. erewrite Seek_at by eassumption. reflexivity. }
  erewrite bind_Ok; cycle 1.
  { unfold discard. erewrite Skip_at by lia. reflexivity. }
  run1.
  assert (Int.int_of_uint64 (u16At (fdata fd) (Offset e + 2))
          = u16At (fdata fd) (Offset e + 2)) as Ei
    by (apply int64_of_uint64_small; unfold Int.two63; lia).
  erewrite bind_Ok by (apply cmap_records_loop; rewrite ?Ei; lia).
  rewrite cmapOffset31_none.
  - cbn [Z.eqb]. eexists _, _. split; [reflexivity|].
    destruct (Z.to_nat _); reflexivity.
  - intros k Hlt. rewrite Ei in Hlt.
    specialize (Hk (Z.of_nat k) ltac:(lia)).
    unfold platformAt, encodingAt in Hk.
    replace (Offset e + 2 + 2 + 8 * Z.of_nat k)
      with (Offset e + 4 + 8 * Z.of_nat k) by lia.
    exact Hk.
Qed.

Lemma ParseCmap_no_unicode_witness :
  tables (meTable "cmap" 36) !! "cmap"%string = Some (mkEntry 0 0 36)
  /\ 0 <= Offset (mkEntry 0 0 36) < Int.two63
  /\ Offset (mkEntry 0 0 36) + 4 <= Z.of_nat (length (fdata (fdOf cmapMac)))
  /\ Offset (mkEntry 0 0 36) + 4
     + 8 * u16At (fdata (fdOf cmapMac)) (Offset (mkEntry 0 0 36) + 2)
     <= Z.of_nat (length (fdata (fdOf cmapMac)))
  /\ (forall k,
        0 <= k < u16At (fdata (fdOf cmapMac)) (Offset (mkEntry 0 0 36) + 2) ->
        ~ (platformAt (fdata (fdOf cmapMac)) (Offset (mkEntry 0 0 36)) k = 3
           /\ encodingAt (fdata (fdOf cmapMac)) (Offset (mkEntry 0 0 36)) k = 1))
  /\ exists me' fd',
       ParseCmap (meTable "cmap" 36, fdOf cmapMac)
       = (Err ERROR_NO_UNICODE_ENCODING_FOUND, (me', fd'))
       /\ chars me' = chars (meTable "cmap" 36).
Proof.
  assert (tables (meTable "cmap" 36) !! "cmap"%string = Some (mkEntry 0 0 36))
    as H1 by (vm_compute; reflexivity).
  assert (0 <= Offset (mkEntry 0 0 36) < Int.two63) as H2
    by (unfold Int.two63; simpl; lia).
  assert (Offset (mkEntry 0 0 36) + 4
          <= Z.of_nat (length (fdata (fdOf cmapMac)))) as H3
    by (vm_compute; discriminate).
  assert (Offset (mkEntry 0 0 36) + 4
          + 8 * u16At (fdata (fdOf cmapMac)) (Offset (mkEntry 0 0 36) + 2)
          <= Z.of_nat (length (fdata (fdOf cmapMac)))) as H4
    by (vm_compute; discriminate).
  assert (forall k,
            0 <= k < u16At (fdata (fdOf cmapMac)) (Offset (mkEntry 0 0 36) + 2) ->
            ~ (platformAt (fdata (fdOf cmapMac)) (Offset (mkEntry 0 0 36)) k = 3
               /\ encodingAt (fdata (fdOf cmapMac)) (Offset (mkEntry 0 0 36)) k
                  = 1)) as H5.
  { intros k Hk.
    assert (u16At (fdata (fdOf cmapMac)) (Offset (mkEntry 0 0 36) + 2) = 1)
      as E by (vm_compute; reflexivity).
    rewrite E in Hk. assert (k = 0) as -> by lia.
    intros [Hp _]. vm_compute in Hp. discriminate Hp. }
  repeat (split; [assumption|]).
  exact (ParseCmap_no_unicode (meTable "cmap" 36) (fdOf cmapMac)
           (mkEntry 0 0 36) H1 H2 H3 H4 H5).
Defined.

(** X23: when the encoding records leave a nonzero subtable offset and
    the 16-bit format field of that subtable is in the file and is not 4,
    [ParseCmap] fails with the unexpected-subtable-format error; the
    character map is not touched. *)
Theorem ParseCmap_bad_format me (fd : File) (e : TableDirectoryEntry)
    (offset31 : Z) :
  tables me !! "cmap"%string = Some e ->
  0 <= Offset e < 4294967296 ->
  Offset e + 4 <= Z.of_nat (length (fdata fd)) ->
  Offset e + 4 + 8 * u16At (fdata fd) (Offset e + 2)
  <= Z.of_nat (length (fdata fd)) ->
  cmapOffset31 (Z.to_nat (u16At (fdata fd) (Offset e + 2))) (fdata fd)
    (Offset e + 4) 0 = offset31 ->
  0 < offset31 < 4294967296 ->
  Offset e + offset31 + 2 <= Z.of_nat (length (fdata fd)) ->
  u16At (fdata fd) (Offset e + offset31) <> 4 ->
  exists me' fd',
    ParseCmap (me, fd) = (Err ERROR_UNEXPECTED_SUBTABLE_FORMAT, (me', fd'))
    /\ chars me' = chars me.
Proof.
  intros Ht Ho Hl4 Hl Hoff Hr Hl2 Hf. unfold ParseCmap.
  pose proof (u16At_range (fdata fd) (Offset e + 2) ltac:(lia) ltac:(lia)) as Hc.
  erewrite bind_Ok; cycle 1.
  { unfold discard. erewrite Seek_at by (unfold Int.two63; first [eassumption | lia]).
    reflexivity. }
  erewrite bind_Ok; cycle 1.
  { unfold discard. erewrite Skip_at by lia. reflexivity. }
  run1.
  assert (Int.int_of_uint64 (u16At (fdata fd) (Offset e + 2))
          = u16At (fdata fd) (Offset e + 2)) as Ei
    by (apply int64_of_uint64_small; unfold Int.two63; lia).
  erewrite bind_Ok by (apply cmap_records_loop; rewrite ?Ei; lia).
  rewrite Ei.
  replace (Offset e + 2 + 2) with (Offset e + 4) by lia. rewrite Hoff.
  destruct (Z.eqb_spec offset31 0); [lia|].
  erewrite bind_Ok by reflexivity. cbn [fst snd].
  set (me1 := match Z.to_nat (u16At (fdata fd) (Offset e + 2)) with
              | O => me | S _ => Set_.symbol false me end).
  assert (tables me1 = tables me /\ chars me1 = chars me) as [Et Ec]
    by (unfold me1; destruct (Z.to_nat _); split; reflexivity).
  rewrite Et, Ht. cbn [default from_option id].
  assert (Int.int64_of_uint64 (Int.add (Offset e) offset31)
          = Offset e + offset31) as Ea.
  { unfold Int.add. rewrite u64_small by (unfold Int.two64; lia).
    apply int64_of_uint64_small. unfold Int.two63. lia. }
  erewrite bind_Ok; cycle 1.
  { unfold onFile, os_Seek. cbn [snd fst fdata Z.eqb]. rewrite Ea.
    destruct (Z.ltb_spec (Offset e + offset31) 0); [lia|]. reflexivity. }
  run1.
  destruct (Z.eqb_spec (u16At (fdata fd) (Offset e + offset31)) 4);
    [contradiction|].
  eexists _, _. split; [reflexivity | exact Ec].
Qed.

Lemma ParseCmap_bad_format_witness :
  tables (meTable "cmap" 28) !! "cmap"%string = Some (mkEntry 0 0 28)
  /\ 0 <= Offset (mkEntry 0 0 28) < 4294967296
  /\ Offset (mkEntry 0 0 28) + 4
     <= Z.of_nat (length (fdata (fdOf cmapFormat12)))
  /\ Offset (mkEntry 0 0 28) + 4
     + 8 * u16At (fdata (fdOf cmapFormat12)) (Offset (mkEntry 0 0 28) + 2)
     <= Z.of_nat (length (fdata (fdOf cmapFormat12)))
  /\ cmapOffset31
       (Z.to_nat (u16At (fdata (fdOf cmapFormat12))
                    (Offset (mkEntry 0 0 28) + 2)))
       (fdata (fdOf cmapFormat12)) (Offset (mkEntry 0 0 28) + 4) 0 = 12
  /\ 0 < 12 < 4294967296
  /\ Offset (mkEntry 0 0 28) + 12 + 2
     <= Z.of_nat (length (fdata (fdOf cmapFormat12)))
  /\ u16At (fdata (fdOf cmapFormat12)) (Offset (mkEntry 0 0 28) + 12) <> 4
  /\ exists me' fd',
       ParseCmap (meTable "cmap" 28, fdOf cmapFormat12)
       = (Err ERROR_UNEXPECTED_SUBTABLE_FORMAT, (me', fd'))
       /\ chars me' = chars (meTable "cmap" 28).
Proof.
  assert (tables (meTable "cmap" 28) !! "cmap"%string = Some (mkEntry 0 0 28))
    as H1 by (vm_compute; reflexivity).
  assert (0 <= Offset (mkEntry 0 0 28) < 4294967296) as H2 by (simpl; lia).
  assert (Offset (mkEntry 0 0 28) + 4
          <= Z.of_nat (length (fdata (fdOf cmapFormat12)))) as H3
    by (vm_compute; discriminate).
  assert (Offset (mkEntry 0 0 28) + 4
          + 8 * u16At (fdata (fdOf cmapFormat12)) (Offset (mkEntry 0 0 28) + 2)
          <= Z.of_nat (length (fdata (fdOf cmapFormat12)))) as H4
    by (vm_compute; discriminate).
  assert (cmapOffset31
            (Z.to_nat (u16At (fdata (fdOf cmapFormat12))
                         (Offset (mkEntry 0 0 28) + 2)))
            (fdata (fdOf cmapFormat12)) (Offset (mkEntry 0 0 28) + 4) 0 = 12)
    as H5 by (vm_compute; reflexivity).
  assert (0 < 12 < 4294967296) as H6 by lia.
  assert (Offset (mkEntry 0 0 28) + 12 + 2
          <= Z.of_nat (length (fdata (fdOf cmapFormat12)))) as H7
    by (vm_compute; discriminate).
  assert (u16At (fdata (fdOf cmapFormat12)) (Offset (mkEntry 0 0 28) + 12) <> 4)
    as H8 by (vm_compute; discriminate).
  repeat (split; [assumption|]).
  exact (ParseCmap_bad_format (meTable "cmap" 28) (fdOf cmapFormat12)
           (mkEntry 0 0 28) 12 H1 H2 H3 H4 H5 H6 H7 H8).
Defined.

(** ** Segments with a range offset *)

Lemma gid_wrap_indirect (g d : Z) :
  0 <= g <= 65535 -> 0 <= d <= 65535 ->
  (let gid := if 0 <? g then Int.add g d else g in
   if 65536 <=? gid then Int.sub gid 65536 else gid) = indirectGlyph g d.
Proof.
  intros Hg Hd. cbv zeta. unfold indirectGlyph.
  destruct (Z.ltb_spec 0 g); destruct (Z.eqb_spec g 0); try lia.
  - apply gid_wrap; lia.
  - subst g. reflexivity.
Qed.

Lemma cmapCodepoint_indirect me (data : list byte) (pos d ro c : Z) :
  0 < ro -> 0 <= c < 65535 -> 0 <= d <= 65535 ->
  0 <= pos -> pos + 2 <= Z.of_nat (length data) ->
  cmapCodepoint d ro c (me, mkFile data pos)
  = (Ok (Continue tt),
     (if 0 <? indirectGlyph (u16At data pos) d
      then Set_.chars (<[c := indirectGlyph (u16At data pos) d]> (chars me)) me
      else me, mkFile data (pos + 2))).
Proof.
  intros Hro Hc Hd Hp Hl. unfold cmapCodepoint.
  destruct (Z.eqb_spec c 0xFFFF); [lia|].
  destruct (Z.ltb_spec 0 ro); [|lia].
  pose proof (u16At_range data pos Hp Hl) as Hr.
  erewrite bind_Ok; cycle 1.
  { erewrite bind_Ok by (apply ReadUShort_at; lia). reflexivity. }
  pose proof (gid_wrap_indirect (u16At data pos) d ltac:(lia) Hd) as Hw.
  cbv zeta in Hw |- *. rewrite Hw.
  assert (Int.int_of_uint64 c = c) as ->
    by (apply int64_of_uint64_small; unfold Int.two63; lia).
  destruct (0 <? indirectGlyph (u16At data pos) d); reflexivity.
Qed.

Lemma cmap_indirect_loop (data : list byte) (d ro : Z) (n : nat) :
  forall me (c1 pos : Z),
    0 < ro -> 0 <= c1 -> c1 + Z.of_nat n <= 65536 -> 0 <= d <= 65535 ->
    0 <= pos -> pos + 2 * Z.of_nat n <= Z.of_nat (length data) ->
    exists me' fd',
      for_ n c1 tt (fun c _ => cmapCodepoint d ro c) (me, mkFile data pos)
      = (Ok tt, (me', fd'))
      /\ (forall c, c1 <= c < c1 + Z.of_nat n -> c <> 0xFFFF ->
            chars me' !! c
            = if indirectGlyph (u16At data (pos + 2 * (c - c1))) d =? 0
              then chars me !! c
              else Some (indirectGlyph (u16At data (pos + 2 * (c - c1))) d))
      /\ (forall c, ~ (c1 <= c < c1 + Z.of_nat n) ->
            chars me' !! c = chars me !! c).
Proof.
  induction n as [|n IH]; intros me c1 pos Hro Hc1 Hn Hd Hp Hl.
  - exists me, (mkFile data pos). split; [reflexivity|].
    split; [lia | reflexivity].
  - cbn [for_]. destruct (Z.eq_dec c1 0xFFFF) as [->|Hne].
    + exists me, (mkFile data pos). split; [reflexivity|].
      split; [lia | reflexivity].
    + erewrite bind_Ok by (apply cmapCodepoint_indirect; lia).
      set (g := indirectGlyph (u16At data pos) d).
      set (me1 := if 0 <? g then Set_.chars (<[c1 := g]> (chars me)) me else me).
      assert (forall c, c <> c1 -> chars me1 !! c = chars me !! c) as Hother.
      { intros c Hc. unfold me1. destruct (0 <? g); [|reflexivity].
        cbn. apply lookup_insert_ne. congruence. }
      assert (0 <= g) as Hg.
      { unfold g, indirectGlyph. destruct (_ =? 0); [lia|].
        apply Z.mod_pos_bound. lia. }
      assert (chars me1 !! c1 = if g =? 0 then chars me !! c1 else Some g)
        as Hsame.
      { unfold me1. destruct (Z.ltb_spec 0 g); destruct (Z.eqb_spec g 0);
          try lia.
        - cbn. apply lookup_insert_eq.
        - reflexivity. }
      destruct (IH me1 (c1 + 1) (pos + 2)) as (me' & fd' & E & Hin & Hout);
        try lia.
      exists me', fd'. split; [exact E|]. split.
      * intros c Hc Hs. destruct (Z.eq_dec c c1) as [->|Hcc].
        -- rewrite Hout by lia.
           replace (pos + 2 * (c1 - c1)) with pos by lia. exact Hsame.
        -- rewrite Hin by lia. rewrite Hother by exact Hcc.
           replace (pos + 2 + 2 * (c - (c1 + 1))) with (pos + 2 * (c - c1))
             by lia.
           reflexivity.
      * intros c Hc. rewrite Hout by lia. apply Hother. lia.
Qed.

(** X24: in a segment [i] whose idRangeOffset [ro] is not 0, with 16-bit
    start, end and idDelta, the cursor is set to [offset + 2 i + ro],
    [offset] being the position of the idRangeOffset array, and the
    codepoints of [start, end] other than 0xFFFF take their glyph indices
    from the consecutive 16-bit fields found there: a field 0 gives no
    entry, a field [g] gives the index (g + idDelta) mod 65536, stored
    unless it is 0. *)
Theorem cmapSegment_indirect me (fd : File)
    (startCount endCount idDelta idRangeOffset : list Z)
    (offset i c1 c2 d ro : Z) :
  0 <= i < 65536 ->
  startCount !! Z.to_nat i = Some c1 ->
  endCount !! Z.to_nat i = Some c2 ->
  idDelta !! Z.to_nat i = Some d ->
  idRangeOffset !! Z.to_nat i = Some ro ->
  0 < ro <= 65535 ->
  0 <= c1 <= 65535 -> c2 <= 65535 -> 0 <= d <= 65535 ->
  0 <= offset < Int.two63 - 262144 ->
  offset + 2 * i + ro + 2 * Z.max 0 (c2 + 1 - c1)
  <= Z.of_nat (length (fdata fd)) ->
  exists me' fd',
    cmapSegment startCount endCount idDelta idRangeOffset offset i (me, fd)
    = (Ok (Continue tt), (me', fd'))
    /\ forall c, c1 <= c <= c2 -> c <> 0xFFFF ->
         let g := u16At (fdata fd) (offset + 2 * i + ro + 2 * (c - c1)) in
         chars me' !! c
         = if indirectGlyph g d =? 0 then chars me !! c
           else Some (indirectGlyph g d).
Proof.
  intros Hi Es Ee Ed Er Hro Hc1 Hc2 Hd Ho Hl.
  destruct (cmap_indirect_loop (fdata fd) d ro (Z.to_nat (c2 + 1 - c1)) me c1
              (offset + 2 * i + ro))
    as (me' & fd' & E & Hin & _); try lia.
  exists me', fd'. split.
  - unfold cmapSegment.
    erewrite bind_Ok by (apply index_at; [lia | eassumption]).
    erewrite bind_Ok by (apply index_at; [lia | eassumption]).
    erewrite bind_Ok by (apply index_at; [lia | eassumption]).
    erewrite bind_Ok by (apply index_at; [lia | eassumption]).
    destruct (Z.ltb_spec 0 ro); [|lia].
    assert (Int.int64_of_uint64
              (Int.add (Int.add offset (Int.uint64_of_int64 (2 * i))) ro)
            = offset + 2 * i + ro) as Ea.
    { unfold Int.add, Int.uint64_of_int64, Int.two63, Int.two64 in *.
      rewrite (u64_small (2 * i)) by (unfold Int.two64; lia).
      rewrite (u64_small (offset + 2 * i)) by (unfold Int.two64; lia).
      rewrite u64_small by (unfold Int.two64; lia).
      apply int64_of_uint64_small. unfold Int.two63. lia. }
    erewrite bind_Ok; cycle 1.
    { erewrite bind_Ok; [reflexivity|].
      unfold onFile, os_Seek. cbn [snd fst Z.eqb]. rewrite Ea.
      destruct (Z.ltb_spec (offset + 2 * i + ro) 0); [lia|]. reflexivity. }
    cbn [fst snd fdata].
    erewrite bind_Ok by exact E. reflexivity.
  - intros c Hc Hs. cbv zeta. apply Hin; lia.
Qed.

Lemma cmapSegment_indirect_witness :
  0 <= 0 < 65536
  /\ [65] !! Z.to_nat 0 = Some 65
  /\ [67] !! Z.to_nat 0 = Some 67
  /\ [65530] !! Z.to_nat 0 = Some 65530
  /\ [4] !! Z.to_nat 0 = Some 4
  /\ 0 < 4 <= 65535
  /\ 0 <= 65 <= 65535 /\ 67 <= 65535 /\ 0 <= 65530 <= 65535
  /\ 0 <= 0 < Int.two63 - 262144
  /\ 0 + 2 * 0 + 4 + 2 * Z.max 0 (67 + 1 - 65)
     <= Z.of_nat (length (fdata fdGlyphIds))
  /\ exists me' fd',
       cmapSegment [65] [67] [65530] [4] 0 0 (zeroTTFParser, fdGlyphIds)
       = (Ok (Continue tt), (me', fd'))
       /\ forall c, 65 <= c <= 67 -> c <> 0xFFFF ->
            let g := u16At (fdata fdGlyphIds) (0 + 2 * 0 + 4 + 2 * (c - 65)) in
            chars me' !! c
            = if indirectGlyph g 65530 =? 0 then chars zeroTTFParser !! c
              else Some (indirectGlyph g 65530).
Proof.
  assert (0 <= 0 < 65536) as H1 by lia.
  assert ([65] !! Z.to_nat 0 = Some 65) as H2 by reflexivity.
  assert ([67] !! Z.to_nat 0 = Some 67) as H3 by reflexivity.
  assert ([65530] !! Z.to_nat 0 = Some 65530) as H4 by reflexivity.
  assert ([4] !! Z.to_nat 0 = Some 4) as H5 by reflexivity.
  assert (0 < 4 <= 65535) as H6 by lia.
  assert (0 <= 65 <= 65535) as H7 by lia.
  assert (67 <= 65535) as H8 by lia.
  assert (0 <= 65530 <= 65535) as H9 by lia.
  assert (0 <= 0 < Int.two63 - 262144) as H10 by (unfold Int.two63; lia).
  assert (0 + 2 * 0 + 4 + 2 * Z.max 0 (67 + 1 - 65)
          <= Z.of_nat (length (fdata fdGlyphIds))) as H11
    by (vm_compute; discriminate).
  repeat (split; [assumption|]).
  exact (cmapSegment_indirect zeroTTFParser fdGlyphIds [65] [67] [65530] [4]
           0 0 65 67 65530 4 H1 H2 H3 H4 H5 H6 H7 H8 H9 H10 H11).
Defined.

Example cmapSegment_indirect_chars :
  map_to_list
    (chars (fst (snd (cmapSegment [65] [67] [65530] [4] 0 0
                        (zeroTTFParser, fdGlyphIds)))))
  = [(67, 3); (65, 1)].
Proof. vm_compute. reflexivity. Qed.

(** ** The font descriptor object *)

Module FontDescriptorFacts.
Import FontDescriptor.

Lemma append_assoc (s1 s2 s3 : string) :
  (s1 +:+ s2) +:+ s3 = s1 +:+ (s2 +:+ s3).
Proof.
  induction s1 as [|c s1 IH]; [reflexivity|].
  change (String c ((s1 +:+ s2) +:+ s3) = String c (s1 +:+ (s2 +:+ s3))).
  rewrite IH. reflexivity.
Qed.

Lemma append_empty_r (s : string) : s +:+ EmptyString = s.
Proof.
  induction s as [|c s IH]; [reflexivity|].
  change (String c (s +:+ EmptyString) = String c s).
  rewrite IH. reflexivity.
Qed.

Lemma Build_loop_items (descs : list FontDescItem) :
  forall (pre : list FontDescItem) (buf : string),
    Build_loop (length descs) (Z.of_nat (length pre)) (pre ++ descs) buf
    = (Ok tt, buf +:+ itemsText descs).
Proof.
  induction descs as [|d descs IH]; intros pre buf.
  - simpl. rewrite append_empty_r. reflexivity.
  - cbn [length Build_loop].
    destruct (Z.leb_spec 0 (Z.of_nat (length pre))); [|lia].
    destruct (Z.ltb_spec (Z.of_nat (length pre))
                (Z.of_nat (length (pre ++ d :: descs))));
      [|rewrite length_app in *; simpl in *; lia].
    cbn [andb]. rewrite Nat2Z.id.
    rewrite (list_lookup_middle pre descs d (length pre) eq_refl).
    replace (Z.of_nat (length pre) + 1) with (Z.of_nat (length (pre ++ [d])))
      by (rewrite length_app; simpl; lia).
    replace (pre ++ d :: descs) with ((pre ++ [d]) ++ descs)
      by (rewrite <- app_assoc; reflexivity).
    rewrite IH. unfold WriteString. cbn [itemsText].
    rewrite append_assoc. reflexivity.
Qed.

(** X25: with a font set, [Build] returns no error and appends to the
    buffer the opening of the dictionary with the font name, the items of
    the font in their order, the key /FontFile2 with the reference of the
    font file, and the closing.  The key is /FontFile2 for every font:
    the test of [GetType] against "Type1" never holds, [GetType] being
    the constant "FontDescriptor". *)
Theorem Build_text (f : FontDescriptorObj) (ft : IFont) :
  font f = Some ft ->
  Build f
  = (Ok tt,
     mkObj
       (((((buffer f
            +:+ (("<</Type /FontDescriptor /FontName /" +:+ GetName ft) +:+ " "))
           +:+ itemsText (GetDesc ft))
          +:+ "/FontFile2 ")
         +:+ fontFileObjRelate f)
        +:+ (">>" +:+ newline))
       (font f) (fontFileObjRelate f)).
Proof.
  intros E. unfold Build. rewrite E. cbv zeta.
  rewrite (Build_loop_items (GetDesc ft) []). reflexivity.
Qed.

Lemma Build_text_witness :
  font sampleObj = Some sampleFont
  /\ Build sampleObj
     = (Ok tt,
        mkObj
          (((((buffer sampleObj
               +:+ (("<</Type /FontDescriptor /FontName /"
                     +:+ GetName sampleFont) +:+ " "))
              +:+ itemsText (GetDesc sampleFont))
             +:+ "/FontFile2 ")
            +:+ fontFileObjRelate sampleObj)
           +:+ (">>" +:+ newline))
          (font sampleObj) (fontFileObjRelate sampleObj)).
Proof.
  assert (font sampleObj = Some sampleFont) as H by reflexivity.
  split; [exact H|].
  exact (Build_text sampleObj sampleFont H).
Defined.

Example Build_sample :
  buffer (snd (Build sampleObj))
  = "%PDF<</Type /FontDescriptor /FontName /Sample /Ascent 850 /Flags 32 /FontFile2 7 0 R>>"
    +:+ newline
  /\ fst (Build (mkObj EmptyString None "7 0 R")) = Panic.
Proof. vm_compute. split; reflexivity. Qed.

End FontDescriptorFacts.

(** ** Big-endian fields *)

(** X26: the unsigned reads are big-endian.  With the bytes b0 b1
    (b0 b1 b2 b3) at the cursor, [ReadUShort] returns 256 b0 + b1 and
    [ReadULong] returns ((256 b0 + b1) 256 + b2) 256 + b3; the cursor
    moves by 2 and by 4, and the receiver is left alone. *)
Theorem Read_big_endian me (pre post : list byte) (b0 b1 b2 b3 : byte) :
  ReadUShort (me, mkFile (pre ++ [b0; b1] ++ post) (Z.of_nat (length pre)))
  = (Ok (byteZ b0 * 256 + byteZ b1),
     (me, mkFile (pre ++ [b0; b1] ++ post) (Z.of_nat (length pre) + 2)))
  /\ ReadULong (me, mkFile (pre ++ [b0; b1; b2; b3] ++ post)
                      (Z.of_nat (length pre)))
     = (Ok (((byteZ b0 * 256 + byteZ b1) * 256 + byteZ b2) * 256 + byteZ b3),
        (me, mkFile (pre ++ [b0; b1; b2; b3] ++ post)
               (Z.of_nat (length pre) + 4))).
Proof.
  split.
  - rewrite ReadUShort_at by (rewrite ?length_app; simpl; lia).
    unfold u16At, bytesAt. rewrite Nat2Z.id, drop_app_length. reflexivity.
  - rewrite ReadULong_at by (rewrite ?length_app; simpl; lia).
    unfold u32At, bytesAt. rewrite Nat2Z.id, drop_app_length. reflexivity.
Qed.

(** ** The PostScript name record *)

Lemma Read_at0 me (data : list byte) (pos n : Z) :
  0 <= pos -> 0 <= n -> pos + n <= Z.of_nat (length data) ->
  Read n (me, mkFile data pos)
  = (Ok (bytesAt data pos n), (me, mkFile data (pos + n))).
Proof.
  intros Hp Hn Hl. destruct (Z.eq_dec n 0) as [->|Hne].
  - replace (pos + 0) with pos by lia. reflexivity.
  - apply Read_at; lia.
Qed.

Lemma string_of_list_byte_empty (l : list byte) :
  string_of_list_byte l = EmptyString -> l = [].
Proof.
  intros E. rewrite <- (list_byte_of_string_of_list_byte l), E. reflexivity.
Qed.

(** The record loop of [ParseName] when the record [k] is the first of
    nameID 6: the loop is left there with the cleaned payload stored. *)
Lemma name_loop_found (tableOffset stringOffset : Z) (k : nat) :
  forall (n : nat) me (data : list byte) (pos i : Z),
    (k < n)%nat ->
    0 <= pos ->
    pos + 12 * Z.of_nat (S k) <= Z.of_nat (length data) ->
    (forall j, (j < k)%nat -> u16At data (pos + 12 * Z.of_nat j + 6) <> 6) ->
    u16At data (pos + 12 * Z.of_nat k + 6) = 6 ->
    0 <= tableOffset -> 0 <= stringOffset ->
    tableOffset + stringOffset < Int.two63 - 65536 ->
    tableOffset + stringOffset + u16At data (pos + 12 * Z.of_nat k + 10)
    + u16At data (pos + 12 * Z.of_nat k + 8) <= Z.of_nat (length data) ->
    exists fd',
      for_ n i tt (fun _ _ =>
          Skip (3 * 2) ;;
          nameID <- ReadUShort ;;
          length <- ReadUShort ;;
          offset <- ReadUShort ;;
          if nameID =? 6 then
            _ <- onFile (os_Seek
                   (Int.int64_of_uint64
                      (Int.add (Int.add tableOffset stringOffset) offset)) 0) ;;
            stmp <- Read (Int.int_of_uint64 length) ;;
            s <- cleanName stmp ;;
            assign (Set_.postScriptName (string_of_list_byte s)) ;;
            ret (Break tt)
          else ret (Continue tt)) (me, mkFile data pos)
      = (Ok tt,
         (Set_.postScriptName
            (string_of_list_byte
               (cleanedName
                  (bytesAt data
                     (tableOffset + stringOffset
                      + u16At data (pos + 12 * Z.of_nat k + 10))
                     (u16At data (pos + 12 * Z.of_nat k + 8))))) me, fd')).
Proof.
  induction k as [|k IH]; intros n me data pos i Hk Hp Hl Hb He Ht Hs Hts Hpl;
    (destruct n as [|n]; [lia|]).
  - cbn [for_].
    replace (pos + 12 * Z.of_nat 0 + 6) with (pos + 3 * 2) in He by lia.
    replace (pos + 12 * Z.of_nat 0 + 10) with (pos + 3 * 2 + 2 + 2) in * by lia.
    replace (pos + 12 * Z.of_nat 0 + 8) with (pos + 3 * 2 + 2) in * by lia.
    pose proof (u16At_range data (pos + 3 * 2 + 2) ltac:(lia) ltac:(lia)) as Rl.
    pose proof (u16At_range data (pos + 3 * 2 + 2 + 2) ltac:(lia) ltac:(lia))
      as Ro.
    eexists. erewrite bind_Ok; cycle 1.
    { do 4 run1. rewrite He. cbn [Z.eqb Pos.eqb].
      assert (Int.int64_of_uint64
                (Int.add (Int.add tableOffset stringOffset)
                   (u16At data (pos + 3 * 2 + 2 + 2)))
              = tableOffset + stringOffset + u16At data (pos + 3 * 2 + 2 + 2))
        as Ea.
      { unfold Int.add, Int.two63 in *.
        rewrite (u64_small (tableOffset + stringOffset))
          by (unfold Int.two64; lia).
        rewrite u64_small by (unfold Int.two64; lia).
        apply int64_of_uint64_small. unfold Int.two63. lia. }
      erewrite bind_Ok; cycle 1.
      { unfold onFile, os_Seek. cbn [snd fst fdata Z.eqb]. rewrite Ea.
        destruct (Z.ltb_spec
                    (tableOffset + stringOffset
                     + u16At data (pos + 3 * 2 + 2 + 2)) 0); [lia|].
        reflexivity. }
      unfold Int.int_of_uint64.
      rewrite (int64_of_uint64_small (u16At data (pos + 3 * 2 + 2)))
        by (unfold Int.two63; lia).
      erewrite bind_Ok by (apply Read_at0; lia).
      erewrite bind_Ok by (apply cleanName_eq).
      erewrite bind_Ok by reflexivity. reflexivity. }
    reflexivity.
  - cbn [for_].
    erewrite bind_Ok; cycle 1.
    { do 4 run1.
      pose proof (Hb 0%nat ltac:(lia)) as H0.
      replace (pos + 12 * Z.of_nat 0 + 6) with (pos + 3 * 2) in H0 by lia.
      destruct (Z.eqb_spec (u16At data (pos + 3 * 2)) 6); [contradiction|].
      reflexivity. }
    cbn [fst snd].
    replace (pos + 12 * Z.of_nat (S k) + 10)
      with (pos + 3 * 2 + 2 + 2 + 2 + 12 * Z.of_nat k + 10) in * by lia.
    replace (pos + 12 * Z.of_nat (S k) + 8)
      with (pos + 3 * 2 + 2 + 2 + 2 + 12 * Z.of_nat k + 8) in * by lia.
    apply IH; try lia.
    + intros j Hj. specialize (Hb (S j) ltac:(lia)).
      replace (pos + 3 * 2 + 2 + 2 + 2 + 12 * Z.of_nat j + 6)
        with (pos + 12 * Z.of_nat (S j) + 6) by lia.
      exact Hb.
    + replace (pos + 3 * 2 + 2 + 2 + 2 + 12 * Z.of_nat k + 6)
        with (pos + 12 * Z.of_nat (S k) + 6) by lia.
      exact He.
Qed.

Lemma set_postScriptName_twice (a b : string) me :
  Set_.postScriptName a (Set_.postScriptName b me) = Set_.postScriptName a me.
Proof. destruct me; reflexivity. Qed.

(** X27: [ParseName] takes the first record of nameID 6 and no later one.
    When the record [k] is the first of nameID 6 and its string lies in
    the file, the name stored is the string's bytes at table offset +
    stringOffset + the record's offset, of the record's length, with the
    zero bytes and the digit 0 removed; when that leaves any byte the
    call succeeds. *)
Theorem ParseName_found me (fd : File) (e : TableDirectoryEntry) (k : Z) :
  tables me !! "name"%string = Some e ->
  0 <= Offset e ->
  Z.of_nat (length (fdata fd)) < Int.two63 - 65536 ->
  0 <= k < u16At (fdata fd) (Offset e + 2) ->
  Offset e + 6 + 12 * (k + 1) <= Z.of_nat (length (fdata fd)) ->
  (forall j, 0 <= j < k -> nameIDAt (fdata fd) (Offset e) j <> 6) ->
  nameIDAt (fdata fd) (Offset e) k = 6 ->
  Offset e + stringOffsetAt (fdata fd) (Offset e)
  + nameOffsetAt (fdata fd) (Offset e) k
  + nameLengthAt (fdata fd) (Offset e) k <= Z.of_nat (length (fdata fd)) ->
  cleanedName
    (bytesAt (fdata fd)
       (Offset e + stringOffsetAt (fdata fd) (Offset e)
        + nameOffsetAt (fdata fd) (Offset e) k)
       (nameLengthAt (fdata fd) (Offset e) k)) <> [] ->
  exists fd',
    ParseName (me, fd)
    = (Ok tt,
       (Set_.postScriptName
          (string_of_list_byte
             (cleanedName
                (bytesAt (fdata fd)
                   (Offset e + stringOffsetAt (fdata fd) (Offset e)
                    + nameOffsetAt (fdata fd) (Offset e) k)
                   (nameLengthAt (fdata fd) (Offset e) k)))) me, fd')).
Proof.
  intros Ht Ho Hlen Hk Hl Hb He Hp Hne. unfold ParseName.
  unfold nameIDAt, stringOffsetAt, nameOffsetAt, nameLengthAt in *.
  assert (0 <= Offset e < Int.two63) as Ho' by (unfold Int.two63 in *; lia).
  pose proof (u16At_range (fdata fd) (Offset e + 2) ltac:(lia) ltac:(lia)) as Hc.
  pose proof (u16At_range (fdata fd) (Offset e + 4) ltac:(lia) ltac:(lia)) as Hs.
  pose proof (u16At_range (fdata fd) (Offset e + 6 + 12 * k + 8)
                ltac:(lia) ltac:(lia)) as Hrl.
  pose proof (u16At_range (fdata fd) (Offset e + 6 + 12 * k + 10)
                ltac:(lia) ltac:(lia)) as Hro.
  run1.
  erewrite bind_Ok by (apply FTell_at; unfold Int.two63, Int.two64 in *; lia).
  do 4 run1.
  assert (Int.int_of_uint64 (u16At (fdata fd) (Offset e + 2))
          = u16At (fdata fd) (Offset e + 2)) as Ei
    by (apply int64_of_uint64_small; unfold Int.two63; lia).
  rewrite Ei.
  replace (Offset e + 2 + 2) with (Offset e + 4) by lia.
  destruct (name_loop_found (Offset e) (u16At (fdata fd) (Offset e + 4))
              (Z.to_nat k) (Z.to_nat (u16At (fdata fd) (Offset e + 2)))
              (Set_.postScriptName EmptyString me) (fdata fd)
              (Offset e + 4 + 2) 0) as [fd' Efd].
  - lia.
  - lia.
  - lia.
  - intros j Hj. specialize (Hb (Z.of_nat j) ltac:(lia)).
    replace (Offset e + 4 + 2 + 12 * Z.of_nat j + 6)
      with (Offset e + 6 + 12 * Z.of_nat j + 6) by lia.
    exact Hb.
  - rewrite Z2Nat.id by lia.
    replace (Offset e + 4 + 2 + 12 * k + 6) with (Offset e + 6 + 12 * k + 6)
      by lia.
    exact He.
  - lia.
  - lia.
  - unfold Int.two63 in *. lia.
  - rewrite Z2Nat.id by lia.
    replace (Offset e + 4 + 2 + 12 * k + 10) with (Offset e + 6 + 12 * k + 10)
      by lia.
    replace (Offset e + 4 + 2 + 12 * k + 8) with (Offset e + 6 + 12 * k + 8)
      by lia.
    exact Hp.
  - rewrite Z2Nat.id in Efd by lia.
    replace (Offset e + 4 + 2 + 12 * k + 10) with (Offset e + 6 + 12 * k + 10)
      in Efd by lia.
    replace (Offset e + 4 + 2 + 12 * k + 8) with (Offset e + 6 + 12 * k + 8)
      in Efd by lia.
    rewrite set_postScriptName_twice in Efd.
    erewrite bind_Ok by exact Efd.
    erewrite bind_Ok by reflexivity. cbn [fst snd].
    exists fd'.
    destruct (String.eqb_spec
                (postScriptName
                   (Set_.postScriptName
                      (string_of_list_byte
                         (cleanedName
                            (bytesAt (fdata fd)
                               (Offset e + u16At (fdata fd) (Offset e + 4)
                                + u16At (fdata fd) (Offset e + 6 + 12 * k + 10))
                               (u16At (fdata fd) (Offset e + 6 + 12 * k + 8)))))
                      me)) EmptyString) as [E|E].
    + exfalso. apply Hne. apply string_of_list_byte_empty.
      destruct me; exact E.
    + reflexivity.
Qed.

Lemma ParseName_found_witness :
  tables (meTable "name" 54) !! "name"%string = Some (mkEntry 0 0 54)
  /\ 0 <= Offset (mkEntry 0 0 54)
  /\ Z.of_nat (length (fdata (fdOf nameTwoPS))) < Int.two63 - 65536
  /\ 0 <= 1 < u16At (fdata (fdOf nameTwoPS)) (Offset (mkEntry 0 0 54) + 2)
  /\ Offset (mkEntry 0 0 54) + 6 + 12 * (1 + 1)
     <= Z.of_nat (length (fdata (fdOf nameTwoPS)))
  /\ (forall j, 0 <= j < 1 ->
        nameIDAt (fdata (fdOf nameTwoPS)) (Offset (mkEntry 0 0 54)) j <> 6)
  /\ nameIDAt (fdata (fdOf nameTwoPS)) (Offset (mkEntry 0 0 54)) 1 = 6
  /\ Offset (mkEntry 0 0 54)
     + stringOffsetAt (fdata (fdOf nameTwoPS)) (Offset (mkEntry 0 0 54))
     + nameOffsetAt (fdata (fdOf nameTwoPS)) (Offset (mkEntry 0 0 54)) 1
     + nameLengthAt (fdata (fdOf nameTwoPS)) (Offset (mkEntry 0 0 54)) 1
     <= Z.of_nat (length (fdata (fdOf nameTwoPS)))
  /\ cleanedName
       (bytesAt (fdata (fdOf nameTwoPS))
          (Offset (mkEntry 0 0 54)
           + stringOffsetAt (fdata (fdOf nameTwoPS)) (Offset (mkEntry 0 0 54))
           + nameOffsetAt (fdata (fdOf nameTwoPS)) (Offset (mkEntry 0 0 54)) 1)
          (nameLengthAt (fdata (fdOf nameTwoPS)) (Offset (mkEntry 0 0 54)) 1))
     <> []
  /\ exists fd',
       ParseName (meTable "name" 54, fdOf nameTwoPS)
       = (Ok tt,
          (Set_.postScriptName
             (string_of_list_byte
                (cleanedName
                   (bytesAt (fdata (fdOf nameTwoPS))
                      (Offset (mkEntry 0 0 54)
                       + stringOffsetAt (fdata (fdOf nameTwoPS))
                           (Offset (mkEntry 0 0 54))
                       + nameOffsetAt (fdata (fdOf nameTwoPS))
                           (Offset (mkEntry 0 0 54)) 1)
                      (nameLengthAt (fdata (fdOf nameTwoPS))
                         (Offset (mkEntry 0 0 54)) 1))))
             (meTable "name" 54), fd')).
Proof.
  assert (tables (meTable "name" 54) !! "name"%string = Some (mkEntry 0 0 54))
    as H1 by (vm_compute; reflexivity).
  assert (0 <= Offset (mkEntry 0 0 54)) as H2 by (simpl; lia).
  assert (Z.of_nat (length (fdata (fdOf nameTwoPS))) < Int.two63 - 65536) as H3
    by (vm_compute; reflexivity).
  assert (0 <= 1 < u16At (fdata (fdOf nameTwoPS)) (Offset (mkEntry 0 0 54) + 2))
    as H4 by (vm_compute; split; [discriminate | reflexivity]).
  assert (Offset (mkEntry 0 0 54) + 6 + 12 * (1 + 1)
          <= Z.of_nat (length (fdata (fdOf nameTwoPS)))) as H5
    by (vm_compute; discriminate).
  assert (forall j, 0 <= j < 1 ->
            nameIDAt (fdata (fdOf nameTwoPS)) (Offset (mkEntry 0 0 54)) j <> 6)
    as H6.
  { intros j Hj. assert (j = 0) as -> by lia. vm_compute. discriminate. }
  assert (nameIDAt (fdata (fdOf nameTwoPS)) (Offset (mkEntry 0 0 54)) 1 = 6)
    as H7 by (vm_compute; reflexivity).
  assert (Offset (mkEntry 0 0 54)
          + stringOffsetAt (fdata (fdOf nameTwoPS)) (Offset (mkEntry 0 0 54))
          + nameOffsetAt (fdata (fdOf nameTwoPS)) (Offset (mkEntry 0 0 54)) 1
          + nameLengthAt (fdata (fdOf nameTwoPS)) (Offset (mkEntry 0 0 54)) 1
          <= Z.of_nat (length (fdata (fdOf nameTwoPS)))) as H8
    by (vm_compute; discriminate).
  assert (cleanedName
            (bytesAt (fdata (fdOf nameTwoPS))
               (Offset (mkEntry 0 0 54)
                + stringOffsetAt (fdata (fdOf nameTwoPS))
                    (Offset (mkEntry 0 0 54))
                + nameOffsetAt (fdata (fdOf nameTwoPS))
                    (Offset (mkEntry 0 0 54)) 1)
               (nameLengthAt (fdata (fdOf nameTwoPS))
                  (Offset (mkEntry 0 0 54)) 1)) <> []) as H9
    by (vm_compute; discriminate).
  repeat (split; [assumption|]).
  exact (ParseName_found (meTable "name" 54) (fdOf nameTwoPS)
           (mkEntry 0 0 54) 1 H1 H2 H3 H4 H5 H6 H7 H8 H9).
Defined.

(** The first of the two PostScript names of the sample table is taken,
    its UTF-16 zero bytes dropped. *)
Example ParseName_first_record :
  postScriptName (fst (snd (ParseName (meTable "name" 54, fdOf nameTwoPS))))
  = "Ab-1"%string.
Proof. vm_compute. reflexivity. Qed.

(** ** The format-4 subtable of cmap *)

Lemma readUShorts_at me (data : list byte) (pos n : Z) :
  0 <= pos -> 0 <= n < Int.two63 ->
  pos + 2 * n <= Z.of_nat (length data) ->
  readUShorts n (me, mkFile data pos)
  = (Ok (u16Array data pos n), (me, mkFile data (pos + 2 * n))).
Proof.
  intros Hp Hn Hl. unfold readUShorts, Int.int_of_uint64.
  rewrite int64_of_uint64_small by exact Hn.
  pose proof (read_loop ReadUShort 2 u16At (fun x => x) ltac:(lia)
                ReadUShort_at (Z.to_nat n) me data pos 0 []
                Hp ltac:(lia)) as H.
  cbn beta in H. rewrite Z2Nat.id in H by lia. exact H.
Qed.

(** X28: the layout of the format-4 subtable as [ParseCmap] reads it.
    When the encoding records select a subtable at [sub] = table offset +
    offset31 whose format is 4, whose length field covers the header and
    the four arrays and which lies in the file, [ParseCmap] is the segment
    loop started with SegCount = segCountX2 / 2, EndCount read at
    [sub + 14], StartCount at [sub + 16 + 2 SegCount], IdDelta at
    [sub + 16 + 4 SegCount], IdRangeOffset at [sub + 16 + 6 SegCount],
    which is also the offset the range offsets are relative to, the
    glyph-index array of (length - 16 - 8 SegCount) / 2 entries behind it,
    an empty character map, and the cursor behind the glyph-index array. *)
Theorem ParseCmap_arrays me (fd : File) (e : TableDirectoryEntry)
    (offset31 : Z) :
  tables me !! "cmap"%string = Some e ->
  0 <= Offset e < 4294967296 ->
  Offset e + 4 <= Z.of_nat (length (fdata fd)) ->
  Offset e + 4 + 8 * u16At (fdata fd) (Offset e + 2)
  <= Z.of_nat (length (fdata fd)) ->
  cmapOffset31 (Z.to_nat (u16At (fdata fd) (Offset e + 2))) (fdata fd)
    (Offset e + 4) 0 = offset31 ->
  0 < offset31 < 4294967296 ->
  Offset e + offset31 + 14 <= Z.of_nat (length (fdata fd)) ->
  u16At (fdata fd) (Offset e + offset31) = 4 ->
  16 + 8 * cmapSegCount (fdata fd) (Offset e + offset31)
  <= u16At (fdata fd) (Offset e + offset31 + 2) ->
  Offset e + offset31 + u16At (fdata fd) (Offset e + offset31 + 2)
  <= Z.of_nat (length (fdata fd)) ->
  ParseCmap (me, fd)
  = (for_ (Z.to_nat (cmapSegCount (fdata fd) (Offset e + offset31))) 0 tt
       (fun i _ =>
          cmapSegment (cmapStartCount (fdata fd) (Offset e + offset31))
            (cmapEndCount (fdata fd) (Offset e + offset31))
            (cmapIdDelta (fdata fd) (Offset e + offset31))
            (cmapIdRangeOffset (fdata fd) (Offset e + offset31))
            (cmapRangePos (fdata fd) (Offset e + offset31)) i) ;;
     ret tt)
      (cmapDecoded (fdata fd) (Offset e + offset31) me,
       mkFile (fdata fd)
         (Offset e + offset31 + 16
          + 8 * cmapSegCount (fdata fd) (Offset e + offset31)
          + 2 * cmapGlyphCount (fdata fd) (Offset e + offset31))).
Proof.
  intros Ht Ho Hl4 Hl Hoff Hr Hl14 Hf Hlen Hsub. unfold ParseCmap.
  pose proof (u16At_range (fdata fd) (Offset e + 2) ltac:(lia) ltac:(lia)) as Hc.
  erewrite bind_Ok; cycle 1.
  { unfold discard. erewrite Seek_at by (unfold Int.two63; first [eassumption | lia]).
    reflexivity. }
  erewrite bind_Ok; cycle 1.
  { unfold discard. erewrite Skip_at by lia. reflexivity. }
  run1.
  assert (Int.int_of_uint64 (u16At (fdata fd) (Offset e + 2))
          = u16At (fdata fd) (Offset e + 2)) as Ei
    by (apply int64_of_uint64_small; unfold Int.two63; lia).
  erewrite bind_Ok by (apply cmap_records_loop; rewrite ?Ei; lia).
  rewrite Ei.
  replace (Offset e + 2 + 2) with (Offset e + 4) by lia. rewrite Hoff.
  destruct (Z.eqb_spec offset31 0) as [|Hnz]; [lia|].
  erewrite bind_Ok by reflexivity. cbn [fst snd].
  assert (match Z.to_nat (u16At (fdata fd) (Offset e + 2)) with
          | O => me | S _ => Set_.symbol false me end
          = Set_.symbol false me) as ->.
  { destruct (Z.to_nat (u16At (fdata fd) (Offset e + 2))); [|reflexivity].
    simpl in Hoff. lia. }
  cbn [tables Set_.symbol]. rewrite Ht. cbn [default from_option id].
  assert (Int.int64_of_uint64 (Int.add (Offset e) offset31)
          = Offset e + offset31) as Ea.
  { unfold Int.add. rewrite u64_small by (unfold Int.two64; lia).
    apply int64_of_uint64_small. unfold Int.two63. lia. }
  erewrite bind_Ok; cycle 1.
  { unfold onFile, os_Seek. cbn [snd fst fdata Z.eqb]. rewrite Ea.
    destruct (Z.ltb_spec (Offset e + offset31) 0); [lia|]. reflexivity. }
  unfold cmapDecoded, cmapStartCount, cmapEndCount, cmapIdDelta,
    cmapIdRangeOffset, cmapGlyphIdArray, cmapRangePos, cmapGlyphCount,
    cmapSegCount in *.
  set (sub := Offset e + offset31) in *.
  pose proof (u16At_range (fdata fd) (sub + 2) ltac:(lia) ltac:(lia)) as RL.
  pose proof (u16At_range (fdata fd) (sub + 6) ltac:(lia) ltac:(lia)) as RS.
  pose proof (Z.mul_div_le (u16At (fdata fd) (sub + 6)) 2 ltac:(lia)) as Dn.
  pose proof (Z.div_pos (u16At (fdata fd) (sub + 6)) 2 ltac:(lia) ltac:(lia))
    as Pn.
  set (L := u16At (fdata fd) (sub + 2)) in *.
  set (n := u16At (fdata fd) (sub + 6) / 2) in *.
  pose proof (Z.mul_div_le (L - (16 + 8 * n)) 2 ltac:(lia)) as Dg.
  pose proof (Z.div_pos (L - (16 + 8 * n)) 2 ltac:(lia) ltac:(lia)) as Pg.
  cbn [fst snd].
  run1. rewrite Hf. cbn [Z.eqb Pos.eqb negb].
  do 2 run1.
  replace (sub + 2 + 2 + 2) with (sub + 6) by lia.
  run1. fold n. fold L.
  assert (Int.sub L (Int.add 16 (Int.mul 8 n)) = L - (16 + 8 * n)) as ->.
  { unfold Int.sub, Int.add, Int.mul.
    rewrite (u64_small (8 * n)) by (unfold Int.two64; lia).
    rewrite (u64_small (16 + 8 * n)) by (unfold Int.two64; lia).
    apply u64_small. unfold Int.two64. lia. }
  set (g := (L - (16 + 8 * n)) / 2) in *.
  assert (Int.int_of_uint64 n = n) as ->
    by (apply int64_of_uint64_small; unfold Int.two63; lia).
  do 2 run1.
  replace (sub + 6 + 2 + 3 * 2) with (sub + 14) by lia.
  erewrite bind_Ok by (apply readUShorts_at; unfold Int.two63; lia).
  do 2 run1.
  replace (sub + 14 + 2 * n + 2) with (sub + 16 + 2 * n) by lia.
  erewrite bind_Ok by (apply readUShorts_at; unfold Int.two63; lia).
  run1.
  replace (sub + 16 + 2 * n + 2 * n) with (sub + 16 + 4 * n) by lia.
  erewrite bind_Ok by (apply readUShorts_at; unfold Int.two63; lia).
  run1.
  replace (sub + 16 + 4 * n + 2 * n) with (sub + 16 + 6 * n) by lia.
  erewrite bind_Ok by (apply FTell_at; unfold Int.two64; lia).
  erewrite bind_Ok by (apply readUShorts_at; unfold Int.two63; lia).
  run1.
  replace (sub + 16 + 6 * n + 2 * n) with (sub + 16 + 8 * n) by lia.
  erewrite bind_Ok by (apply readUShorts_at; unfold Int.two63; lia).
  do 2 run1.
  reflexivity.
Qed.

Lemma ParseCmap_arrays_witness :
  tables (meTable "cmap" 48) !! "cmap"%string = Some (mkEntry 0 0 48)
  /\ 0 <= Offset (mkEntry 0 0 48) < 4294967296
  /\ Offset (mkEntry 0 0 48) + 4
     <= Z.of_nat (length (fdata (fdOf cmapTwoSegs)))
  /\ Offset (mkEntry 0 0 48) + 4
     + 8 * u16At (fdata (fdOf cmapTwoSegs)) (Offset (mkEntry 0 0 48) + 2)
     <= Z.of_nat (length (fdata (fdOf cmapTwoSegs)))
  /\ cmapOffset31
       (Z.to_nat (u16At (fdata (fdOf cmapTwoSegs))
                    (Offset (mkEntry 0 0 48) + 2)))
       (fdata (fdOf cmapTwoSegs)) (Offset (mkEntry 0 0 48) + 4) 0 = 12
  /\ 0 < 12 < 4294967296
  /\ Offset (mkEntry 0 0 48) + 12 + 14
     <= Z.of_nat (length (fdata (fdOf cmapTwoSegs)))
  /\ u16At (fdata (fdOf cmapTwoSegs)) (Offset (mkEntry 0 0 48) + 12) = 4
  /\ 16 + 8 * cmapSegCount (fdata (fdOf cmapTwoSegs))
                (Offset (mkEntry 0 0 48) + 12)
     <= u16At (fdata (fdOf cmapTwoSegs)) (Offset (mkEntry 0 0 48) + 12 + 2)
  /\ Offset (mkEntry 0 0 48) + 12
     + u16At (fdata (fdOf cmapTwoSegs)) (Offset (mkEntry 0 0 48) + 12 + 2)
     <= Z.of_nat (length (fdata (fdOf cmapTwoSegs)))
  /\ ParseCmap (meTable "cmap" 48, fdOf cmapTwoSegs)
     = (for_ (Z.to_nat (cmapSegCount (fdata (fdOf cmapTwoSegs))
                          (Offset (mkEntry 0 0 48) + 12))) 0 tt
          (fun i _ =>
             cmapSegment
               (cmapStartCount (fdata (fdOf cmapTwoSegs))
                  (Offset (mkEntry 0 0 48) + 12))
               (cmapEndCount (fdata (fdOf cmapTwoSegs))
                  (Offset (mkEntry 0 0 48) + 12))
               (cmapIdDelta (fdata (fdOf cmapTwoSegs))
                  (Offset (mkEntry 0 0 48) + 12))
               (cmapIdRangeOffset (fdata (fdOf cmapTwoSegs))
                  (Offset (mkEntry 0 0 48) + 12))
               (cmapRangePos (fdata (fdOf cmapTwoSegs))
                  (Offset (mkEntry 0 0 48) + 12)) i) ;;
        ret tt)
         (cmapDecoded (fdata (fdOf cmapTwoSegs))
            (Offset (mkEntry 0 0 48) + 12) (meTable "cmap" 48),
          mkFile (fdata (fdOf cmapTwoSegs))
            (Offset (mkEntry 0 0 48) + 12 + 16
             + 8 * cmapSegCount (fdata (fdOf cmapTwoSegs))
                     (Offset (mkEntry 0 0 48) + 12)
             + 2 * cmapGlyphCount (fdata (fdOf cmapTwoSegs))
                     (Offset (mkEntry 0 0 48) + 12))).
Proof.
  assert (tables (meTable "cmap" 48) !! "cmap"%string = Some (mkEntry 0 0 48))
    as H1 by (vm_compute; reflexivity).
  assert (0 <= Offset (mkEntry 0 0 48) < 4294967296) as H2 by (simpl; lia).
  assert (Offset (mkEntry 0 0 48) + 4
          <= Z.of_nat (length (fdata (fdOf cmapTwoSegs)))) as H3
    by (vm_compute; discriminate).
  assert (Offset (mkEntry 0 0 48) + 4
          + 8 * u16At (fdata (fdOf cmapTwoSegs)) (Offset (mkEntry 0 0 48) + 2)
          <= Z.of_nat (length (fdata (fdOf cmapTwoSegs)))) as H4
    by (vm_compute; discriminate).
  assert (cmapOffset31
            (Z.to_nat (u16At (fdata (fdOf cmapTwoSegs))
                         (Offset (mkEntry 0 0 48) + 2)))
            (fdata (fdOf cmapTwoSegs)) (Offset (mkEntry 0 0 48) + 4) 0 = 12)
    as H5 by (vm_compute; reflexivity).
  assert (0 < 12 < 4294967296) as H6 by lia.
  assert (Offset (mkEntry 0 0 48) + 12 + 14
          <= Z.of_nat (length (fdata (fdOf cmapTwoSegs)))) as H7
    by (vm_compute; discriminate).
  assert (u16At (fdata (fdOf cmapTwoSegs)) (Offset (mkEntry 0 0 48) + 12) = 4)
    as H8 by (vm_compute; reflexivity).
  assert (16 + 8 * cmapSegCount (fdata (fdOf cmapTwoSegs))
                     (Offset (mkEntry 0 0 48) + 12)
          <= u16At (fdata (fdOf cmapTwoSegs))
               (Offset (mkEntry 0 0 48) + 12 + 2)) as H9
    by (vm_compute; discriminate).
  assert (Offset (mkEntry 0 0 48) + 12
          + u16At (fdata (fdOf cmapTwoSegs))
              (Offset (mkEntry 0 0 48) + 12 + 2)
          <= Z.of_nat (length (fdata (fdOf cmapTwoSegs)))) as H10
    by (vm_compute; discriminate).
  repeat (split; [assumption|]).
  exact (ParseCmap_arrays (meTable "cmap" 48) (fdOf cmapTwoSegs)
           (mkEntry 0 0 48) 12 H1 H2 H3 H4 H5 H6 H7 H8 H9 H10).
Defined.

(** The arrays of the sample subtable, and the character map it yields. *)
Example ParseCmap_two_segments :
  cmapStartCount cmapTwoSegs 12 = [65; 0xFFFF]
  /\ cmapEndCount cmapTwoSegs 12 = [70; 0xFFFF]
  /\ cmapIdDelta cmapTwoSegs 12 = [3; 1]
  /\ cmapGlyphIdArray cmapTwoSegs 12 = [7; 8]
  /\ chars (fst (snd (ParseCmap (meTable "cmap" 48, fdOf cmapTwoSegs))))
     !! 66 = Some 69.
Proof. vm_compute. repeat split; reflexivity. Qed.

(** ** [XHeight] *)

Lemma xHeightAgrees_sound (n : nat) : forall a x,
  xHeightAgrees n a = true -> a <= x < a + Z.of_nat n ->
  Float64.to_int64 (PrimFloat.mul Float64.c066 (Float64.of_int64 x))
  = Z.quot (66 * x) 100.
Proof.
  induction n as [|n IH]; intros a x H Hx; [lia|].
  cbn [xHeightAgrees] in H. apply andb_prop in H as [H0 H1].
  destruct (Z.eq_dec x a) as [->|Hne].
  - apply Z.eqb_eq, H0.
  - apply (IH (a + 1)); [exact H1 | lia].
Qed.

Lemma xHeight_16bit : xHeightAgrees (Z.to_nat 65536) (-32768) = true.
Proof. vm_compute. reflexivity. Qed.

(** X29: after a successful parse [XHeight] returns sxHeight when the
    OS/2 version is at least 2 and sxHeight is not 0; otherwise the
    float64 product 0.66 * ascender, converted to an integer, is the
    quotient 66 * ascender / 100 truncated toward zero, for every
    ascender that a parse can leave (a signed 16-bit value): the rounding
    of the constant and of the product never shows. *)
Theorem XHeight_parsed (content : list byte) (me0 me : TTFParser) :
  Parse (Some content) me0 = (Ok tt, me) ->
  XHeight me
  = if (2 <=? os2Version me) && negb (sxHeight me =? 0) then sxHeight me
    else Z.quot (66 * ascender me) 100.
Proof.
  intros E.
  apply Parse_parsedTables in E as (_ & me1 & _ & _ & _ & _ & _ & _ & _ & _ & Ha).
  unfold XHeight.
  destruct ((2 <=? os2Version me) && negb (sxHeight me =? 0)); [reflexivity|].
  apply (xHeightAgrees_sound _ _ _ xHeight_16bit). 
  rewrite Z2Nat.id by lia. lia.
Qed.

Lemma XHeight_parsed_witness :
  Parse (Some Sample.fontA) zeroTTFParser = (Ok tt, parsedA)
  /\ XHeight parsedA
     = if (2 <=? os2Version parsedA) && negb (sxHeight parsedA =? 0)
       then sxHeight parsedA
       else Z.quot (66 * ascender parsedA) 100.
Proof.
  assert (Parse (Some Sample.fontA) zeroTTFParser = (Ok tt, parsedA)) as H
    by (vm_compute; reflexivity).
  split; [exact H|].
  exact (XHeight_parsed Sample.fontA zeroTTFParser parsedA H).
Defined.

(** The fallback for the ascenders 800 and -799, and the x-height of the
    sample font, which has an sxHeight. *)
Example XHeight_values :
  XHeight (Set_.ascender 800 zeroTTFParser) = 528
  /\ XHeight (Set_.ascender (-799) zeroTTFParser) = -527
  /\ XHeight parsedA = 450.
Proof. vm_compute. repeat split; reflexivity. Qed.
